(** * UE Source Diff Tool: the cross-tree comparison engine

    A shallow embedding of the comparison engine of [SourceCodeComparer.py]
    ([fast_hash], [read_lines], [collect_source_files], [compare_file] and the
    aggregation part of [_comparison_worker]), of [esc] and of the escaping
    of the diffs in [build_html_report], together with the pieces of the
    Python runtime they call: [hashlib.md5], the text codecs behind
    [open(..., encoding=..., errors="replace")], [difflib.unified_diff],
    [html.escape] and [str.replace].

    Conventions.
    - A Python [str] is a list of Unicode code points ([list N]); a [bytes]
      object is a [list byte].
    - A Python [dict] is a [gmap], a [set] is a [gset].
    - Filesystem access goes through a small reader/writer monad [IO]: a
      computation reads an immutable snapshot of the filesystem and logs every
      system call it performs. *)

From Stdlib Require Import NArith Ascii String DecimalString.
From Stdlib.Strings Require Import Byte.
From stdpp Require Import gmap list sorting.

Local Open Scope N_scope.

(** ** Python strings *)

Module Py.

Definition char := N.
Definition str := list N.

(** Code points of an ASCII literal. *)
Definition of_string (s : string) : str :=
  map (fun b => Byte.to_N b) (list_byte_of_string s).

Definition NL : char := 10.
Definition CR : char := 13.

(** The string ["\n"]. *)
Definition LF : str := [NL].

Definition char_eqb (a b : char) : bool := N.eqb a b.

(** [s.startswith(p)] *)
Fixpoint startswith (s p : str) : bool :=
  match p, s with
  | [], _ => true
  | _ :: _, [] => false
  | c :: p', d :: s' => char_eqb c d && startswith s' p'
  end.

(** [s.endswith(p)] *)
Definition endswith (s p : str) : bool := startswith (rev s) (rev p).

(** [s.rstrip(LF)]: every trailing line feed is removed. *)
Fixpoint rstrip_nl (s : str) : str :=
  match s with
  | [] => []
  | c :: s' =>
      match rstrip_nl s' with
      | [] => if char_eqb c NL then [] else [c]
      | r => c :: r
      end
  end.

(** ['{}'.format(n)] for a non-negative integer. *)
Definition format_nat (n : nat) : str :=
  of_string (NilEmpty.string_of_uint (Nat.to_uint n)).

(** Comparison of strings, as [<] and [<=] on [str]: lexicographic on code
    points, a proper prefix being smaller. *)
Fixpoint str_leb (s t : str) : bool :=
  match s, t with
  | [], _ => true
  | _ :: _, [] => false
  | c :: s', d :: t' =>
      if N.ltb c d then true
      else if N.ltb d c then false
      else str_leb s' t'
  end.

(** [sorted(l)] and [l.sort()]: a stable sort, here by insertion; [leb x y]
    stands for [not (y < x)].  Elements are inserted from the right, each one
    before the first element it is not greater than, so equal elements keep
    their original order. *)
Fixpoint insert_sorted {A} (leb : A -> A -> bool) (x : A) (l : list A) : list A :=
  match l with
  | [] => [x]
  | y :: l' => if leb x y then x :: y :: l' else y :: insert_sorted leb x l'
  end.

Definition sort_with {A} (leb : A -> A -> bool) (l : list A) : list A :=
  foldr (insert_sorted leb) [] l.

(** [sorted(l, key=key)] with string keys. *)
Definition sorted_by {A} (key : A -> str) (l : list A) : list A :=
  sort_with (fun x y => str_leb (key x) (key y)) l.

Definition sorted (l : list str) : list str := sort_with str_leb l.

(** [s.replace(old, new)] for a pattern [old] that is not empty: the
    occurrences of [old] are replaced from the left, and the search goes on
    behind each one.  [skip] counts the characters of an occurrence that are
    still to be passed over. *)
Fixpoint replace_from (old new : str) (skip : nat) (s : str) : str :=
  match s with
  | [] => []
  | c :: s' =>
      match skip with
      | S k => replace_from old new k s'
      | O =>
          if startswith s old
          then new ++ replace_from old new (Nat.pred (length old)) s'
          else c :: replace_from old new 0 s'
      end
  end.

Definition replace (s old new : str) : str := replace_from old new 0 s.

(** [sub in s] *)
Fixpoint contains (s sub : str) {struct s} : bool :=
  match s with
  | [] => startswith [] sub
  | _ :: s' => startswith s sub || contains s' sub
  end.

End Py.

Notation "'u' s" := (Py.of_string s%string) (at level 1, s at level 0, only parsing).

(** ** hashlib.md5 (RFC 1321) *)

Module MD5.

Definition mask32 : N := 0xFFFFFFFF.
Definition add32 (a b : N) : N := N.land (a + b) mask32.
Definition not32 (a : N) : N := N.lxor a mask32.
Definition rotl32 (x : N) (c : N) : N :=
  N.lor (N.land (N.shiftl x c) mask32) (N.shiftr x (32 - c)).

Definition shifts : list N :=
  [7; 12; 17; 22; 7; 12; 17; 22; 7; 12; 17; 22; 7; 12; 17; 22;
   5;  9; 14; 20; 5;  9; 14; 20; 5;  9; 14; 20; 5;  9; 14; 20;
   4; 11; 16; 23; 4; 11; 16; 23; 4; 11; 16; 23; 4; 11; 16; 23;
   6; 10; 15; 21; 6; 10; 15; 21; 6; 10; 15; 21; 6; 10; 15; 21].

(** [K[i] = floor(2^32 * abs(sin(i + 1)))] *)
Definition sines : list N :=
  [0xd76aa478; 0xe8c7b756; 0x242070db; 0xc1bdceee;
   0xf57c0faf; 0x4787c62a; 0xa8304613; 0xfd469501;
   0x698098d8; 0x8b44f7af; 0xffff5bb1; 0x895cd7be;
   0x6b901122; 0xfd987193; 0xa679438e; 0x49b40821;
   0xf61e2562; 0xc040b340; 0x265e5a51; 0xe9b6c7aa;
   0xd62f105d; 0x02441453; 0xd8a1e681; 0xe7d3fbc8;
   0x21e1cde6; 0xc33707d6; 0xf4d50d87; 0x455a14ed;
   0xa9e3e905; 0xfcefa3f8; 0x676f02d9; 0x8d2a4c8a;
   0xfffa3942; 0x8771f681; 0x6d9d6122; 0xfde5380c;
   0xa4beea44; 0x4bdecfa9; 0xf6bb4b60; 0xbebfbc70;
   0x289b7ec6; 0xeaa127fa; 0xd4ef3085; 0x04881d05;
   0xd9d4d039; 0xe6db99e5; 0x1fa27cf8; 0xc4ac5665;
   0xf4292244; 0x432aff97; 0xab9423a7; 0xfc93a039;
   0x655b59c3; 0x8f0ccc92; 0xffeff47d; 0x85845dd1;
   0x6fa87e4f; 0xfe2ce6e0; 0xa3014314; 0x4e0811a1;
   0xf7537e82; 0xbd3af235; 0x2ad7d2bb; 0xeb86d391].

(** The four chaining words A, B, C, D. *)
Record words := Words { wA : N; wB : N; wC : N; wD : N }.

Definition init : words :=
  Words 0x67452301 0xefcdab89 0x98badcfe 0x10325476.

(** Little-endian bytes of a number, [n] of them. *)
Fixpoint le_bytes (n : nat) (x : N) : list N :=
  match n with
  | O => []
  | S n' => N.land x 0xFF :: le_bytes n' (N.shiftr x 8)
  end.

Fixpoint le_word (bs : list N) : N :=
  match bs with
  | [] => 0
  | b :: bs' => b + 256 * le_word bs'
  end.

(** Message padding: a one bit, zeros up to 56 modulo 64, then the bit length
    in 64 bits. *)
Definition padding (len : N) : list N :=
  let zeros := (119 - len mod 64) mod 64 in
  0x80 :: repeat 0 (N.to_nat zeros) ++ le_bytes 8 (N.land (8 * len) 0xFFFFFFFFFFFFFFFF).

(** The sixteen 32-bit words of a 64-byte block; [blocks] cuts a padded
    message into its blocks. *)
Fixpoint block_words (n : nat) (bs : list N) : list N :=
  match n with
  | O => []
  | S n' => le_word (take 4 bs) :: block_words n' (drop 4 bs)
  end.

Fixpoint blocks (fuel : nat) (bs : list N) : list (list N) :=
  match fuel, bs with
  | O, _ | _, [] => []
  | S fuel', _ => block_words 16 (take 64 bs) :: blocks fuel' (drop 64 bs)
  end.

Definition round (m : list N) (w : words) (i : N) : words :=
  let '(Words a b c d) := w in
  let '(f, g) :=
    if i <? 16 then (N.lor (N.land b c) (N.land (not32 b) d), i)
    else if i <? 32 then (N.lor (N.land d b) (N.land (not32 d) c), (5 * i + 1) mod 16)
    else if i <? 48 then (N.lxor (N.lxor b c) d, (3 * i + 5) mod 16)
    else (N.lxor c (N.lor b (not32 d)), (7 * i) mod 16) in
  let f' := add32 (add32 (add32 f a) (nth (N.to_nat i) sines 0)) (nth (N.to_nat g) m 0) in
  Words d (add32 b (rotl32 f' (nth (N.to_nat i) shifts 0))) b c.

Definition rounds : list N := map N.of_nat (seq 0 64).

Definition compress (w : words) (m : list N) : words :=
  let w' := fold_left (round m) rounds w in
  Words (add32 (wA w) (wA w')) (add32 (wB w) (wB w'))
        (add32 (wC w) (wC w')) (add32 (wD w) (wD w')).

(** The 16-byte digest of a message. *)
Definition digest (msg : list byte) : list N :=
  let bs := map Byte.to_N msg in
  let padded := bs ++ padding (N.of_nat (length bs)) in
  let w := fold_left compress (blocks (length padded) padded) init in
  le_bytes 4 (wA w) ++ le_bytes 4 (wB w) ++ le_bytes 4 (wC w) ++ le_bytes 4 (wD w).

Definition hex_digit (n : N) : Py.char :=
  if n <? 10 then 48 + n else 87 + n.

Definition hex_byte (b : N) : Py.str :=
  [hex_digit (N.shiftr b 4); hex_digit (N.land b 0xF)].

(** The hash object: [hashlib.md5()] starts empty, [update] feeds it more
    data, [hexdigest] is the digest of everything fed so far, in lowercase
    hexadecimal. *)
Definition t := list byte.
Definition new : t := [].
Definition update (h : t) (chunk : list byte) : t := h ++ chunk.
Definition hexdigest (h : t) : Py.str := concat (map hex_byte (digest h)).

End MD5.

(** ** Text codecs and universal newlines *)

Module Codecs.

Inductive encoding := Utf8 | Utf8Sig | Latin1.

(** The [errors] argument of a decoder: ["strict"] raises on undecodable
    input, ["replace"] writes U+FFFD for it. *)
Inductive errors := Strict | Replace.

Definition REPLACEMENT : Py.char := 0xFFFD.

Definition is_continuation (c : N) : bool := (0x80 <=? c) && (c <? 0xC0).

(** What the error handler makes of one undecodable run; [rest] is the
    decoding of the input after the run. *)
Definition on_error (e : errors) (rest : option Py.str) : option Py.str :=
  match e with
  | Strict => None
  | Replace => cons REPLACEMENT <$> rest
  end.

(** CPython's UTF-8 decoder.  An invalid start byte is an error of one byte;
    an invalid continuation byte ends an error that covers the bytes of the
    sequence before it; a sequence cut off by the end of the input is one
    error up to the end.  Overlong forms, surrogates and code points above
    U+10FFFF are rejected at their second byte. *)
Fixpoint utf8_decode (e : errors) (bs : list N) : option Py.str :=
  match bs with
  | [] => Some []
  | c :: r =>
      if c <? 0x80 then cons c <$> utf8_decode e r
      else if c <? 0xC2 then on_error e (utf8_decode e r)
      else if c <? 0xE0 then
        match r with
        | [] => on_error e (Some [])
        | c2 :: r2 =>
            if is_continuation c2
            then cons ((c - 0xC0) * 64 + (c2 - 0x80)) <$> utf8_decode e r2
            else on_error e (utf8_decode e r)
        end
      else if c <? 0xF0 then
        match r with
        | [] => on_error e (Some [])
        | c2 :: r2 =>
            if negb (is_continuation c2)
               || (if c2 <? 0xA0 then c =? 0xE0 else c =? 0xED)
            then on_error e (utf8_decode e r)
            else
              match r2 with
              | [] => on_error e (Some [])
              | c3 :: r3 =>
                  if is_continuation c3
                  then cons ((c - 0xE0) * 4096 + (c2 - 0x80) * 64 + (c3 - 0x80))
                         <$> utf8_decode e r3
                  else on_error e (utf8_decode e r2)
              end
        end
      else if c <? 0xF5 then
        match r with
        | [] => on_error e (Some [])
        | c2 :: r2 =>
            if negb (is_continuation c2)
               || (if c2 <? 0x90 then c =? 0xF0 else c =? 0xF4)
            then on_error e (utf8_decode e r)
            else
              match r2 with
              | [] => on_error e (Some [])
              | c3 :: r3 =>
                  if negb (is_continuation c3) then on_error e (utf8_decode e r2)
                  else
                    match r3 with
                    | [] => on_error e (Some [])
                    | c4 :: r4 =>
                        if is_continuation c4
                        then cons ((c - 0xF0) * 262144 + (c2 - 0x80) * 4096
                                   + (c3 - 0x80) * 64 + (c4 - 0x80))
                               <$> utf8_decode e r4
                        else on_error e (utf8_decode e r3)
                    end
              end
        end
      else on_error e (utf8_decode e r)
  end.

(** [utf-8-sig] skips one leading byte order mark.  The incremental decoder
    a file object uses waits for three bytes before it decides; a file that
    ends inside the mark decodes to the empty string. *)
Definition strip_bom (bs : list N) : list N :=
  match bs with
  | 0xEF :: 0xBB :: 0xBF :: bs' => bs'
  | [0xEF] | [0xEF; 0xBB] => []
  | _ => bs
  end.

(** The text a file object opened with [encoding=enc, errors=e] decodes
    [data] to; [None] stands for [UnicodeDecodeError]. *)
Definition decode (enc : encoding) (e : errors) (data : list byte) : option Py.str :=
  let bs := map Byte.to_N data in
  match enc with
  | Utf8 => utf8_decode e bs
  | Utf8Sig => utf8_decode e (strip_bom bs)
  | Latin1 => Some bs
  end.

(** Universal newlines ([newline=None] on reading): ["\r\n"] and a lone
    ["\r"] become ["\n"]. *)
Fixpoint translate_newlines (s : Py.str) : Py.str :=
  match s with
  | [] => []
  | c :: s' =>
      if c =? Py.CR then
        Py.NL :: match s' with
                 | d :: s'' =>
                     if d =? Py.NL then translate_newlines s''
                     else translate_newlines s'
                 | [] => []
                 end
      else c :: translate_newlines s'
  end.

(** [f.readlines()]: the text cut after every line feed, the line feeds
    kept. *)
Fixpoint readlines (s : Py.str) : list Py.str :=
  match s with
  | [] => []
  | c :: s' =>
      if c =? Py.NL then [c] :: readlines s'
      else match readlines s' with
           | [] => [[c]]
           | l :: ls => (c :: l) :: ls
           end
  end.

End Codecs.

Local Close Scope N_scope.

(** ** The filesystem and the calls made to it *)

Module FS.

(** What a path names: nothing, a directory, or a regular file.  A regular
    file whose [data] is [None] exists but cannot be opened for reading
    ([open] raises [OSError]). *)
Inductive node :=
  | Missing
  | Directory
  | Regular (data : option (list byte)).

(** A snapshot of the filesystem. *)
Definition t := Py.str -> node.

Inductive syscall :=
  | Stat (path : Py.str)
  | Open (path : Py.str).

(** A computation over the filesystem: its value and the calls it made, in
    order. *)
Definition IO (A : Type) : Type := t -> A * list syscall.

Definition ret {A} (x : A) : IO A := fun _ => (x, []).

Definition bind {A B} (m : IO A) (k : A -> IO B) : IO B :=
  fun fs => let '(x, l1) := m fs in let '(y, l2) := k x fs in (y, l1 ++ l2).

Definition value {A} (m : IO A) (fs : t) : A := fst (m fs).
Definition calls {A} (m : IO A) (fs : t) : list syscall := snd (m fs).

(** [os.path.isfile(path)] *)
Definition isfile (path : Py.str) : IO bool :=
  fun fs => (match fs path with Regular _ => true | _ => false end, [Stat path]).

(** [open(path, ...).read()] for a whole file; [None] stands for [OSError]. *)
Definition open_read (path : Py.str) : IO (option (list byte)) :=
  fun fs => (match fs path with Regular (Some data) => Some data | _ => None end,
             [Open path]).

Definition is_open (c : syscall) : bool :=
  match c with Open _ => true | Stat _ => false end.

(** The snapshot that holds the listed nodes and nothing else. *)
Definition snapshot (nodes : list (Py.str * node)) : t :=
  fun path => default Missing (list_to_map (M := gmap Py.str node) nodes !! path).

(** A readable regular file with the given content. *)
Definition file (content : list byte) : node := Regular (Some content).

(** A regular file that cannot be opened. *)
Definition unreadable : node := Regular None.

End FS.

#[export] Instance io_ret : MRet FS.IO := @FS.ret.
#[export] Instance io_bind : MBind FS.IO := fun A B k m => FS.bind m k.

(** ** difflib: SequenceMatcher and unified_diff *)

Module Difflib.

Import Py.
Local Open Scope nat_scope.

Inductive tag := Replace | Delete | Insert | Equal.

(** An opcode [(tag, i1, i2, j1, j2)]. *)
Record opcode := Op { op_tag : tag; op_i1 : nat; op_i2 : nat; op_j1 : nat; op_j2 : nat }.

Definition is_equal (t : tag) : bool :=
  match t with Equal => true | _ => false end.

Definition str_eqb (x y : str) : bool := bool_decide (x = y).

(** [l[i1:i2]] for [i1 <= i2]. *)
Definition slice {A} (l : list A) (i1 i2 : nat) : list A := take (i2 - i1) (drop i1 l).

(** The matcher object built by [SequenceMatcher(None, a, b)]: the two
    sequences, the index [b2j] of the positions of every element of [b], and
    the junk and popular sets computed by [__chain_b]. *)
Record matcher := Matcher {
  seq_a : list str;
  seq_b : list str;
  b2j : gmap str (list nat);
  bjunk : gset str;
  bpopular : gset str
}.

Definition index_elements (b : list str) : gmap str (list nat) :=
  fold_left (fun b2j '(i, elt) => <[elt := default [] (b2j !! elt) ++ [i]]> b2j)
            (zip (seq 0 (length b)) b) ∅.

(** [__chain_b] with [isjunk=None] and [autojunk=True]: nothing is junk, and
    in a sequence of 200 elements or more, an element that occurs more than
    [n // 100 + 1] times is popular and leaves the index. *)
Definition chain_b (a b : list str) : matcher :=
  let b2j := index_elements b in
  let junk : gset str := ∅ in
  let n := length b in
  if 200 <=? n then
    let ntest := n / 100 + 1 in
    let popular : gset str :=
      dom (filter (fun kv : str * list nat => ntest < length kv.2) b2j) in
    Matcher a b (set_fold (fun elt m => delete elt m) b2j popular) junk popular
  else Matcher a b b2j junk ∅.

(** [j2len.get(j - 1, 0)]: no key is negative, so the value at [j = 0] is
    the default. *)
Definition j2len_get_prev (j2len : gmap nat nat) (j : nat) : nat :=
  match j with
  | O => 0
  | S j' => default 0 (j2len !! j')
  end.

(** The best match so far: [(besti, bestj, bestsize)]. *)
Definition best := (nat * nat * nat)%type.

(** The inner loop of [find_longest_match] over the positions of [a[i]] in
    [b]: positions below [blo] are skipped, the first one at or above [bhi]
    ends the loop.  [i - k + 1] is written [i + 1 - k] ([k <= i + 1]). *)
Fixpoint scan_row (i blo bhi : nat) (j2len : gmap nat nat) (js : list nat)
    (newj2len : gmap nat nat) (bst : best) : gmap nat nat * best :=
  match js with
  | [] => (newj2len, bst)
  | j :: js' =>
      if j <? blo then scan_row i blo bhi j2len js' newj2len bst
      else if bhi <=? j then (newj2len, bst)
      else
        let k := j2len_get_prev j2len j + 1 in
        let newj2len' := <[j := k]> newj2len in
        let bst' := if bst.2 <? k then (i + 1 - k, j + 1 - k, k) else bst in
        scan_row i blo bhi j2len js' newj2len' bst'
  end.

(** One round of the outer loop: [a[i]] is looked up in [b2j]. *)
Definition scan_step (m : matcher) (blo bhi : nat)
    (st : gmap nat nat * best) (i : nat) : gmap nat nat * best :=
  let js := match seq_a m !! i with
            | Some elt => default [] (b2j m !! elt)
            | None => []
            end in
  scan_row i blo bhi st.1 js ∅ st.2.

(** [a[i] == b[j]] and the junk test on [b[j]], for positions inside the
    sequences. *)
Definition same_at (m : matcher) (i j : nat) : bool :=
  match seq_a m !! i, seq_b m !! j with
  | Some x, Some y => str_eqb x y
  | _, _ => false
  end.

Definition isbjunk_at (m : matcher) (j : nat) : bool :=
  match seq_b m !! j with
  | Some y => bool_decide (y ∈ bjunk m)
  | None => false
  end.

(** The loops that extend a match to the left: each round lowers [besti],
    and the loop ends at the latest when it reaches [alo]. [junk] tells
    whether the round takes junk or non-junk elements. *)
Fixpoint extend_left (m : matcher) (junk : bool) (alo blo : nat)
    (besti bestj bestsize : nat) {struct besti} : best :=
  match besti, bestj with
  | S i', S j' =>
      if (alo <? besti) && (blo <? bestj)
         && eqb (isbjunk_at m j') junk && same_at m i' j'
      then extend_left m junk alo blo i' j' (S bestsize)
      else (besti, bestj, bestsize)
  | _, _ => (besti, bestj, bestsize)
  end.

(** The loops that extend a match to the right; [room] counts the elements
    of [a] left before [ahi]. *)
Fixpoint extend_right (m : matcher) (junk : bool) (ahi bhi : nat)
    (besti bestj : nat) (room : nat) (bestsize : nat) : nat :=
  match room with
  | O => bestsize
  | S room' =>
      if (besti + bestsize <? ahi) && (bestj + bestsize <? bhi)
         && eqb (isbjunk_at m (bestj + bestsize)) junk
         && same_at m (besti + bestsize) (bestj + bestsize)
      then extend_right m junk ahi bhi besti bestj room' (S bestsize)
      else bestsize
  end.

Definition find_longest_match (m : matcher) (alo ahi blo bhi : nat) : best :=
  let '(_, (besti, bestj, bestsize)) :=
    fold_left (scan_step m blo bhi) (seq alo (ahi - alo)) (∅, (alo, blo, 0)) in
  let '(besti, bestj, bestsize) :=
    extend_left m false alo blo besti bestj bestsize in
  let bestsize :=
    extend_right m false ahi bhi besti bestj (ahi - (besti + bestsize)) bestsize in
  let '(besti, bestj, bestsize) :=
    extend_left m true alo blo besti bestj bestsize in
  let bestsize :=
    extend_right m true ahi bhi besti bestj (ahi - (besti + bestsize)) bestsize in
  (besti, bestj, bestsize).

(** The [while queue:] loop of [get_matching_blocks].  The queue is used as
    a stack; its top is the head of the list.  [fuel] bounds the number of
    rounds. *)
Fixpoint match_loop (m : matcher) (fuel : nat)
    (queue : list (nat * nat * nat * nat)) (matching_blocks : list best) : list best :=
  match fuel, queue with
  | O, _ | _, [] => matching_blocks
  | S fuel', (alo, ahi, blo, bhi) :: queue =>
      let '(i, j, k) := find_longest_match m alo ahi blo bhi in
      if k =? 0 then match_loop m fuel' queue matching_blocks
      else
        let queue := if (alo <? i) && (blo <? j)
                     then (alo, i, blo, j) :: queue else queue in
        let queue := if (i + k <? ahi) && (j + k <? bhi)
                     then (i + k, ahi, j + k, bhi) :: queue else queue in
        match_loop m fuel' queue (matching_blocks ++ [(i, j, k)])
  end.

(** Order of triples of integers. *)
Definition best_leb (x y : best) : bool :=
  let '(i1, j1, k1) := x in
  let '(i2, j2, k2) := y in
  if i1 <? i2 then true else if i2 <? i1 then false
  else if j1 <? j2 then true else if j2 <? j1 then false
  else k1 <=? k2.

(** The loop that merges adjacent blocks; the state is [(i1, j1, k1)] and
    the blocks written so far. *)
Definition collapse_step (st : best * list best) (x : best) : best * list best :=
  let '((i1, j1, k1), non_adjacent) := st in
  let '(i2, j2, k2) := x in
  if (i1 + k1 =? i2) && (j1 + k1 =? j2) then ((i1, j1, k1 + k2), non_adjacent)
  else ((i2, j2, k2),
        if k1 =? 0 then non_adjacent else non_adjacent ++ [(i1, j1, k1)]).

Definition get_matching_blocks (m : matcher) : list best :=
  let la := length (seq_a m) in
  let lb := length (seq_b m) in
  let matching_blocks :=
    sort_with best_leb (match_loop m (2 * la + 1) [(0, la, 0, lb)] []) in
  let '((i1, j1, k1), non_adjacent) :=
    fold_left collapse_step matching_blocks ((0, 0, 0), []) in
  let non_adjacent :=
    if k1 =? 0 then non_adjacent else non_adjacent ++ [(i1, j1, k1)] in
  non_adjacent ++ [(la, lb, 0)].

(** The loop of [get_opcodes]; the state is [(i, j)] and the answer. *)
Definition opcode_step (st : nat * nat * list opcode) (x : best) : nat * nat * list opcode :=
  let '(i, j, answer) := st in
  let '(ai, bj, size) := x in
  let answer :=
    if (i <? ai) && (j <? bj) then answer ++ [Op Replace i ai j bj]
    else if i <? ai then answer ++ [Op Delete i ai j bj]
    else if j <? bj then answer ++ [Op Insert i ai j bj]
    else answer in
  let answer :=
    if size =? 0 then answer else answer ++ [Op Equal ai (ai + size) bj (bj + size)] in
  (ai + size, bj + size, answer).

Definition get_opcodes (m : matcher) : list opcode :=
  (fold_left opcode_step (get_matching_blocks m) (0, 0, [])).2.

(** The loop of [get_grouped_opcodes]; the state is the open group and the
    groups yielded so far. *)
Definition group_step (n : nat) (st : list opcode * list (list opcode)) (c : opcode)
    : list opcode * list (list opcode) :=
  let '(group, out) := st in
  let '(Op t i1 i2 j1 j2) := c in
  if is_equal t && (n + n <? i2 - i1) then
    ([Op t (i1 `max` (i2 - n)) i2 (j1 `max` (j2 - n)) j2],
     out ++ [group ++ [Op t i1 (i2 `min` (i1 + n)) j1 (j2 `min` (j1 + n))]])
  else (group ++ [c], out).

(** [get_grouped_opcodes(n)] for a number [n] of context lines that is not
    negative.  (The library takes every integer; a negative one is outside
    this model.) *)
Definition get_grouped_opcodes (m : matcher) (n : nat) : list (list opcode) :=
  let codes := get_opcodes m in
  let codes := match codes with [] => [Op Equal 0 1 0 1] | _ => codes end in
  let codes :=
    match codes !! 0 with
    | Some (Op Equal i1 i2 j1 j2) =>
        <[0 := Op Equal (i1 `max` (i2 - n)) i2 (j1 `max` (j2 - n)) j2]> codes
    | _ => codes
    end in
  let codes :=
    match codes !! (length codes - 1) with
    | Some (Op Equal i1 i2 j1 j2) =>
        <[length codes - 1 := Op Equal i1 (i2 `min` (i1 + n)) j1 (j2 `min` (j1 + n))]> codes
    | _ => codes
    end in
  let '(group, out) := fold_left (group_step n) codes ([], []) in
  match group with
  | [] => out
  | [Op Equal _ _ _ _] => out
  | _ => out ++ [group]
  end.

(** [_format_range_unified(start, stop)] *)
Definition format_range_unified (start stop : nat) : str :=
  let beginning := start + 1 in
  let length := stop - start in
  if length =? 1 then format_nat beginning
  else
    let beginning := if length =? 0 then beginning - 1 else beginning in
    format_nat beginning ++ u"," ++ format_nat length.

(** The kinds of line a unified diff is made of. *)
Inductive kind := FileHeader | HunkHeader | Context | Removal | Addition.

Definition line : Type := kind * str.

Definition kind_eqb (k1 k2 : kind) : bool :=
  match k1, k2 with
  | FileHeader, FileHeader | HunkHeader, HunkHeader | Context, Context
  | Removal, Removal | Addition, Addition => true
  | _, _ => false
  end.

(** The number of lines of a kind in a diff. *)
Definition count_kind (k : kind) (lines : list line) : nat :=
  length (List.filter (fun l : line => kind_eqb l.1 k) lines).

(** The lines yielded for one opcode. *)
Definition opcode_lines (a b : list str) (c : opcode) : list line :=
  let '(Op t i1 i2 j1 j2) := c in
  match t with
  | Equal => map (fun l => (Context, u" " ++ l)) (slice a i1 i2)
  | Replace =>
      map (fun l => (Removal, u"-" ++ l)) (slice a i1 i2)
      ++ map (fun l => (Addition, u"+" ++ l)) (slice b j1 j2)
  | Delete => map (fun l => (Removal, u"-" ++ l)) (slice a i1 i2)
  | Insert => map (fun l => (Addition, u"+" ++ l)) (slice b j1 j2)
  end.

(** The lines yielded for one group, after the file header: the hunk header,
    then the lines of the opcodes.  (A yielded group is never empty.) *)
Definition group_lines (a b : list str) (lineterm : str) (group : list opcode) : list line :=
  match head group, last group with
  | Some first, Some last =>
      let file1_range := format_range_unified (op_i1 first) (op_i2 last) in
      let file2_range := format_range_unified (op_j1 first) (op_j2 last) in
      (HunkHeader, u"@@ -" ++ file1_range ++ u" +" ++ file2_range ++ u" @@" ++ lineterm)
      :: concat (map (opcode_lines a b) group)
  | _, _ => []
  end.

(** Every line [unified_diff] yields, with its kind: the two file header
    lines before the first group ([started] is false only there), then the
    groups.  [fromfiledate] and [tofiledate] are empty, and the number [n]
    of context lines is not negative. *)
Definition unified_diff_lines (a b : list str) (fromfile tofile : str) (n : nat)
    (lineterm : str) : list line :=
  match get_grouped_opcodes (chain_b a b) n with
  | [] => []
  | groups =>
      (FileHeader, u"--- " ++ fromfile ++ lineterm)
      :: (FileHeader, u"+++ " ++ tofile ++ lineterm)
      :: concat (map (group_lines a b lineterm) groups)
  end.

(** [list(difflib.unified_diff(a, b, fromfile=..., tofile=..., n=n))] *)
Definition unified_diff (a b : list str) (fromfile tofile : str) (n : nat) : list str :=
  map snd (unified_diff_lines a b fromfile tofile n LF).

End Difflib.

(** ** os.path and os.walk *)

Module OsPath.

Import Py.
Local Open Scope nat_scope.

Definition SEP : char := 47%N.
Definition EXTSEP : char := 46%N.

(** [s.rfind(c)]; [None] stands for [-1]. *)
Fixpoint rfind_from (c : char) (s : str) (i : nat) (found : option nat) : option nat :=
  match s with
  | [] => found
  | d :: s' => rfind_from c s' (S i) (if char_eqb d c then Some i else found)
  end.

Definition rfind (c : char) (s : str) : option nat := rfind_from c s 0 None.

(** [os.path.splitext(p)]: the extension runs from the last dot of the last
    component to the end, unless only dots stand before it. *)
Definition splitext (p : str) : str * str :=
  match rfind EXTSEP p with
  | None => (p, [])
  | Some dotIndex =>
      let filenameIndex := match rfind SEP p with None => 0 | Some s => s + 1 end in
      if (filenameIndex <=? dotIndex)
         && existsb (fun c => negb (char_eqb c EXTSEP))
                    (take (dotIndex - filenameIndex) (drop filenameIndex p))
      then (take dotIndex p, drop dotIndex p)
      else (p, [])
  end.

(** What is on disk under a directory: the name of the directory, the names
    of its entries that are not directories, and its subdirectories. *)
#[local] Unset Elimination Schemes.
Inductive tree := Dir (name : str) (filenames : list str) (dirs : list tree).

#[local] Set Elimination Schemes.

Definition dirname (t : tree) : str := match t with Dir name _ _ => name end.

(** [os.walk(top)] (top-down): the triple of the directory itself, then the
    walks of its subdirectories. *)
Fixpoint walk (join : str -> str -> str) (top : str) (t : tree)
    : list (str * list str * list str) :=
  match t with
  | Dir _ filenames dirs =>
      (top, map dirname dirs, filenames)
      :: flat_map (fun d => walk join (join top (dirname d)) d) dirs
  end.

End OsPath.

(** ** The comparison engine *)

Module Engine.

Import Py.
Local Open Scope nat_scope.

Definition DEFAULT_EXTENSIONS : gset str :=
  list_to_set
    [u".h"; u".hpp"; u".hxx";
     u".c"; u".cpp"; u".cxx"; u".cc";
     u".inl"; u".inc";
     u".cs";
     u".usf"; u".ush";
     u".py";
     u".xml"; u".json";
     u".ini"; u".cfg";
     u".uproject"; u".uplugin"].

Definition COMPOUND_EXTENSIONS : list str := [u".build.cs"; u".target.cs"].

Record FileDiff := {
  relative_path : str;
  status : str;
  location_a : option str;
  location_b : option str;
  lines_added : nat;
  lines_removed : nat;
  diff : list str
}.

(** [1 << 16] *)
Definition CHUNK : nat := N.to_nat (N.shiftl 1 16).

(** The loop [for chunk in iter(lambda: f.read(1 << 16), b""): h.update(chunk)]
    over the data left in the file; the empty read ends it.  [fuel] bounds the
    number of reads. *)
Fixpoint feed_chunks (fuel : nat) (data : list byte) (h : MD5.t) : MD5.t :=
  match fuel with
  | O => h
  | S fuel' =>
      match take CHUNK data with
      | [] => h
      | chunk => feed_chunks fuel' (drop CHUNK data) (MD5.update h chunk)
      end
  end.

Definition fast_hash (filepath : str) : FS.IO str :=
  f ← FS.open_read filepath;
  match f with
  | None => FS.ret []
  | Some data =>
      FS.ret (MD5.hexdigest (feed_chunks (S (length data)) data MD5.new))
  end.

(** One round of the loop of [read_lines]: [open] with the encoding and
    [errors="replace"], then [readlines()]; [None] stands for an exception. *)
Definition try_read_lines (filepath : str) (enc : Codecs.encoding)
    : FS.IO (option (list str)) :=
  f ← FS.open_read filepath;
  FS.ret (match f with
          | None => None
          | Some data =>
              match Codecs.decode enc Codecs.Replace data with
              | None => None
              | Some text => Some (Codecs.readlines (Codecs.translate_newlines text))
              end
          end).

Fixpoint read_lines_with (encodings : list Codecs.encoding) (filepath : str)
    : FS.IO (list str) :=
  match encodings with
  | [] => FS.ret []
  | enc :: encodings' =>
      r ← try_read_lines filepath enc;
      match r with
      | Some lines => FS.ret lines
      | None => read_lines_with encodings' filepath
      end
  end.

Definition read_lines (filepath : str) : FS.IO (list str) :=
  read_lines_with [Codecs.Utf8; Codecs.Utf8Sig; Codecs.Latin1] filepath.

(** [sum(1 for l in lines if f(l))] *)
Definition count_if {A} (f : A -> bool) (lines : list A) : nat :=
  length (List.filter f lines).

(** [compare_file(rel_path, path_a, path_b, context_lines)] for a number of
    context lines that is not negative: [context_lines], an [int] in the
    source, is a natural number here.  The properties that depend on it are
    stated for an integer [n] with [0 <= n], passed as [Z.to_nat n]. *)
Definition compare_file (rel_path path_a path_b : str) (context_lines : nat)
    : FS.IO (option FileDiff) :=
  exists_a ← FS.isfile path_a;
  exists_b ← FS.isfile path_b;
  if exists_a && exists_b then
    hash_a ← fast_hash path_a;
    hash_b ← fast_hash path_b;
    if bool_decide (hash_a = hash_b) then FS.ret None
    else
      lines_a ← read_lines path_a;
      lines_b ← read_lines path_b;
      let diff_lines :=
        Difflib.unified_diff lines_a lines_b
          (u"A/" ++ rel_path) (u"B/" ++ rel_path) context_lines in
      match diff_lines with
      | [] => FS.ret None
      | _ =>
          let added :=
            count_if (fun l => startswith l u"+" && negb (startswith l u"+++"))
                     diff_lines in
          let removed :=
            count_if (fun l => startswith l u"-" && negb (startswith l u"---"))
                     diff_lines in
          FS.ret (Some {|
            relative_path := rel_path; status := u"modified";
            location_a := Some path_a; location_b := Some path_b;
            lines_added := added; lines_removed := removed;
            diff := map rstrip_nl diff_lines |})
      end
  else if exists_a && negb exists_b then
    FS.ret (Some {|
      relative_path := rel_path; status := u"removed";
      location_a := Some path_a; location_b := None;
      lines_added := 0; lines_removed := 0; diff := [] |})
  else if negb exists_a && exists_b then
    FS.ret (Some {|
      relative_path := rel_path; status := u"added";
      location_a := None; location_b := Some path_b;
      lines_added := 0; lines_removed := 0; diff := [] |})
  else FS.ret None.

Record Summary := {
  engine_a : str;
  engine_b : str;
  total_files_scanned : nat;
  files_modified : nat;
  files_added : nat;
  files_removed : nat;
  total_lines_added : nat;
  total_lines_removed : nat
}.

Record Report := { summary : Summary; differences : list FileDiff }.

(** The part of [_comparison_worker] after the pool has finished: the sort
    of the records and the summary. *)
Definition build_report (ea eb : str) (total : nat) (diffs : list FileDiff) : Report :=
  let diffs := sorted_by relative_path diffs in
  {| summary := {|
       engine_a := ea; engine_b := eb;
       total_files_scanned := total;
       files_modified := count_if (fun d => Difflib.str_eqb (status d) u"modified") diffs;
       files_added := count_if (fun d => Difflib.str_eqb (status d) u"added") diffs;
       files_removed := count_if (fun d => Difflib.str_eqb (status d) u"removed") diffs;
       total_lines_added := sum_list (map lines_added diffs);
       total_lines_removed := sum_list (map lines_removed diffs) |};
     differences := diffs |}.

Section Platform.

(** The functions of the platform's [os.path] the engine calls with their
    results left open, and [str.lower]. *)
Variable abspath : str -> str.
Variable join : str -> str -> str.
Variable relpath : str -> str -> str.
Variable lower : str -> str.

(** The test of [collect_source_files] on a file name. *)
Definition is_source_file (extensions : gset str) (fname : str) : bool :=
  let ext := lower (OsPath.splitext fname).2 in
  bool_decide (ext ∈ extensions)
  || existsb (fun ce => endswith (lower fname) ce) COMPOUND_EXTENSIONS.

(** [collect_source_files(root, extensions)], [tree] being what is on disk
    under [root]. *)
Definition collect_source_files (tree : OsPath.tree) (root : str) (extensions : gset str)
    : gmap str str :=
  let root := abspath root in
  fold_left
    (fun result '(dirpath, _, filenames) =>
       fold_left
         (fun result fname =>
            if is_source_file extensions fname then
              let abs_path := join dirpath fname in
              let rel_path := relpath abs_path root in
              <[rel_path := abs_path]> result
            else result)
         filenames result)
    (OsPath.walk join root tree) ∅.

(** [sorted(set(files_a.keys()) | set(files_b.keys()))] *)
Definition all_paths (files_a files_b : gmap str str) : list str :=
  sorted (elements (dom files_a ∪ dom files_b)).

(** The task [worker(rel_path)] of the pool.  [should_cancel] is the flag as
    the task reads it when it starts; [diffs] is the shared list of
    records. *)
Definition worker (files_a files_b : gmap str str) (ea eb : str) (ctx : nat)
    (should_cancel : bool) (rel_path : str) (diffs : list FileDiff)
    : FS.IO (list FileDiff) :=
  if should_cancel then FS.ret diffs
  else
    let path_a := default (join ea rel_path) (files_a !! rel_path) in
    let path_b := default (join eb rel_path) (files_b !! rel_path) in
    result ← compare_file rel_path path_a path_b ctx;
    FS.ret (match result with
            | Some r => diffs ++ [r]
            | None => diffs
            end).

(** The flag [should_cancel] once [started] tasks have started.  The user
    requests cancellation never ([None]) or at some point of the run, when
    [k] tasks have started ([Some k]); the flag stays set from then on. *)
Definition cancelled (cancel_at : option nat) (started : nat) : bool :=
  match cancel_at with
  | Some k => k <=? started
  | None => false
  end.

(** The tasks of the pool, in the order in which they start and take the
    lock [diffs_lock]. *)
Fixpoint run_pool (files_a files_b : gmap str str) (ea eb : str) (ctx : nat)
    (cancel_at : option nat) (started : nat) (order : list str) (diffs : list FileDiff)
    : FS.IO (list FileDiff) :=
  match order with
  | [] => FS.ret diffs
  | rel_path :: order' =>
      diffs ← worker files_a files_b ea eb ctx (cancelled cancel_at started)
                rel_path diffs;
      run_pool files_a files_b ea eb ctx cancel_at (S started) order' diffs
  end.

(** [_comparison_worker], up to the report.  [tree_a] and [tree_b] are what
    the scans find under the two roots.  [schedule] is the order in which
    the pool runs the tasks it was given.  A run without source files and a
    run in which cancellation was requested end without a report
    ([None]). *)
Definition comparison_worker (tree_a tree_b : OsPath.tree) (engine_a engine_b : str)
    (ctx : nat) (cancel_at : option nat) (schedule : list str -> list str)
    : FS.IO (option Report) :=
  let ea := abspath engine_a in
  let eb := abspath engine_b in
  let extensions := DEFAULT_EXTENSIONS in
  let files_a := collect_source_files tree_a ea extensions in
  let files_b := collect_source_files tree_b eb extensions in
  let paths := all_paths files_a files_b in
  let total := length paths in
  if total =? 0 then FS.ret None
  else
    diffs ← run_pool files_a files_b ea eb ctx cancel_at 0 (schedule paths) [];
    match cancel_at with
    | Some _ => FS.ret None
    | None => FS.ret (Some (build_report ea eb total diffs))
    end.

End Platform.

End Engine.

(** ** The platform functions on POSIX

    [os.path] for absolute, normalised paths, and [str.lower] for ASCII
    names: the instance the engine is run with on the example trees. *)

Module Posix.

Import Py.
Local Open Scope nat_scope.

Definition abspath (p : str) : str := p.

Definition join (a b : str) : str :=
  if startswith b u"/" then b
  else if bool_decide (a = []) || endswith a u"/" then a ++ b
  else a ++ u"/" ++ b.

Definition relpath (path start : str) : str :=
  if startswith path (start ++ u"/") then drop (length start + 1) path else path.

Definition lower (s : str) : str :=
  map (fun c => if (65 <=? c)%N && (c <=? 90)%N then (c + 32)%N else c) s.

End Posix.

(** ** html.escape and the escaping of the report *)

Module Html.

Import Py.

(** [s.replace(c, r)] for a pattern [c] of one character. *)
Definition replace_char (c : char) (r : str) (s : str) : str :=
  flat_map (fun d => if char_eqb d c then r else [d]) s.

(** [html.escape(s, quote)]: the ampersand first, then the two angle
    brackets, then, with [quote], the two quotation marks. *)
Definition escape (s : str) (quote : bool) : str :=
  let s := replace_char 38%N u"&amp;" s in
  let s := replace_char 60%N u"&lt;" s in
  let s := replace_char 62%N u"&gt;" s in
  if quote then
    let s := replace_char 34%N u"&quot;" s in
    replace_char 39%N u"&#x27;" s
  else s.

End Html.

Module HtmlReport.

(** The backslash. *)
Definition BACKSLASH : Py.char := 92%N.

(** [diff_json_escaped] in [build_html_report]: the JSON text of the diffs
    made ready for its place in the page, a template literal in a script
    element.  Backslashes are doubled, then a backslash is put before every
    backtick and before every dollar sign that a brace follows, and into
    the end tag of a script element. *)
Definition diff_json_escaped (diff_json_str : Py.str) : Py.str :=
  Py.replace
    (Py.replace
       (Py.replace
          (Py.replace diff_json_str [BACKSLASH] [BACKSLASH; BACKSLASH])
          u"`" (BACKSLASH :: u"`"))
       u"${" (BACKSLASH :: u"${"))
    u"</script>" (u"<" ++ BACKSLASH :: u"/script>").

(** [esc(text)] *)
Definition esc (text : Py.str) : Py.str := Html.escape text true.

End HtmlReport.

(** ** Example trees *)

Module Scenario.

Import Py.
Local Open Scope nat_scope.

Definition nl : string := String (ascii_of_nat 10) EmptyString.
Definition crlf : string := String (ascii_of_nat 13) nl.

Definition text (s : string) : list byte := list_byte_of_string s.

(** Root A holds [include/foo.h] and [src/bar.cpp]; root B holds a longer
    [include/foo.h] and [src/baz.cpp], and no [src/bar.cpp]. *)
Definition tree_a : OsPath.tree :=
  OsPath.Dir u"A" []
    [OsPath.Dir u"include" [u"foo.h"] []; OsPath.Dir u"src" [u"bar.cpp"] []].

Definition tree_b : OsPath.tree :=
  OsPath.Dir u"B" []
    [OsPath.Dir u"include" [u"foo.h"] []; OsPath.Dir u"src" [u"baz.cpp"] []].

Definition disk : FS.t :=
  FS.snapshot
    [(u"/A/include/foo.h", FS.file (text ("int x;" ++ nl)));
     (u"/A/src/bar.cpp", FS.file (text ("void f(){}" ++ nl)));
     (u"/B/include/foo.h", FS.file (text ("int x;" ++ nl ++ "int y;" ++ nl)));
     (u"/B/src/baz.cpp", FS.file (text ("void g(){}" ++ nl)))].

Definition run (schedule : list str -> list str) : option Engine.Report :=
  FS.value
    (Engine.comparison_worker Posix.abspath Posix.join Posix.relpath Posix.lower
       tree_a tree_b u"/A" u"/B" 3 None schedule)
    disk.

(** A file whose only line starts with two dashes, against an empty file. *)
Definition dashes : FS.t :=
  FS.snapshot
    [(u"/A/f", FS.file (text ("--x" ++ nl)));
     (u"/B/f", FS.file [])].

(** Two files that cannot be opened. *)
Definition locked : FS.t :=
  FS.snapshot [(u"/A/f", FS.unreadable); (u"/B/f", FS.unreadable)].

(** One file that cannot be opened, against a file of one line. *)
Definition half_locked : FS.t :=
  FS.snapshot [(u"/A/f", FS.unreadable); (u"/B/f", FS.file (text ("x" ++ nl)))].

(** A file that is no valid UTF-8: the single byte 0xFF. *)
Definition invalid_utf8 : FS.t :=
  FS.snapshot [(u"/A/f", FS.file [xff])].

(** Two files of one line each in a single-byte encoding: the byte 0xE9 on
    side A, the byte 0xE8 on side B, each before a line feed. *)
Definition latin1_pair : FS.t :=
  FS.snapshot [(u"/A/f", FS.file [xe9; x0a]); (u"/B/f", FS.file [xe8; x0a])].

(** The same line with two different line ends. *)
Definition line_ends : FS.t :=
  FS.snapshot
    [(u"/A/f", FS.file (text ("a" ++ crlf)));
     (u"/B/f", FS.file (text ("a" ++ nl)))].

(** The same content on both sides. *)
Definition same : FS.t :=
  FS.snapshot
    [(u"/A/f", FS.file (text ("a" ++ nl)));
     (u"/B/f", FS.file (text ("a" ++ nl)))].

(** A tree with build scripts next to other files. *)
Definition build_tree : OsPath.tree :=
  OsPath.Dir u"A" [u"notes.txt"]
    [OsPath.Dir u"Source" [u"Game.Build.cs"; u"Game.Target.cs"; u"readme.md"] []].

End Scenario.

(** ** Notions the properties are stated with *)

(** The text [read_lines] decodes a readable file to. *)
Definition utf8_text (data : list byte) : Py.str :=
  default [] (Codecs.decode Codecs.Utf8 Codecs.Replace data).

(** The record of a pair of files whose digests differ, given the lines of
    the diff. *)
Definition modified_record (rel_path path_a path_b : Py.str) (diff_lines : list Py.str)
    : Engine.FileDiff :=
  {| Engine.relative_path := rel_path; Engine.status := u"modified";
     Engine.location_a := Some path_a; Engine.location_b := Some path_b;
     Engine.lines_added :=
       Engine.count_if
         (fun l => Py.startswith l u"+" && negb (Py.startswith l u"+++")) diff_lines;
     Engine.lines_removed :=
       Engine.count_if
         (fun l => Py.startswith l u"-" && negb (Py.startswith l u"---")) diff_lines;
     Engine.diff := map Py.rstrip_nl diff_lines |}.

(** The diff [compare_file] computes for two files that exist. *)
Definition file_diff (fs : FS.t) (rel_path path_a path_b : Py.str) (n : nat) : list Py.str :=
  Difflib.unified_diff
    (FS.value (Engine.read_lines path_a) fs) (FS.value (Engine.read_lines path_b) fs)
    (u"A/" ++ rel_path) (u"B/" ++ rel_path) n.

(** The tests [compare_file] counts the lines with. *)
Definition counted_as_added (l : Py.str) : bool :=
  Py.startswith l u"+" && negb (Py.startswith l u"+++").

Definition counted_as_removed (l : Py.str) : bool :=
  Py.startswith l u"-" && negb (Py.startswith l u"---").

(** A line is counted as it should be. *)
Definition counted_right (l : Difflib.line) : Prop :=
  counted_as_removed l.2 = Difflib.kind_eqb l.1 Difflib.Removal
  /\ counted_as_added l.2 = Difflib.kind_eqb l.1 Difflib.Addition.

Definition str_le (s t : Py.str) : Prop := Py.str_leb s t = true.

(** Records in the order of their keys. *)
Definition key_le {A} (key : A -> Py.str) (x y : A) : Prop := str_le (key x) (key y).

(** The record the pool gets for a path of the plan: the result of
    [compare_file] on the two locations [worker] looks up. *)
Definition record_of (join : Py.str -> Py.str -> Py.str)
    (files_a files_b : gmap Py.str Py.str) (ea eb : Py.str) (ctx : nat) (fs : FS.t)
    (rel_path : Py.str) : option Engine.FileDiff :=
  FS.value
    (Engine.compare_file rel_path
       (default (join ea rel_path) (files_a !! rel_path))
       (default (join eb rel_path) (files_b !! rel_path)) ctx) fs.

(** A status a record can have. *)
Definition is_status (s : Py.str) : Prop :=
  s = u"modified" \/ s = u"added" \/ s = u"removed".

(** A best match lies inside the rows seen so far. *)
Definition best_inside (alo hi : nat) (bst : Difflib.best) : Prop :=
  alo <= bst.1.1 /\ bst.1.1 + bst.2 <= hi.

(** The lengths in [j2len] count rows seen so far. *)
Definition lengths_upto (n : nat) (j2len : gmap nat nat) : Prop :=
  forall j k, j2len !! j = Some k -> k <= n.

(** The work left in the queue of [get_matching_blocks]. *)
Definition queue_work (queue : list (nat * nat * nat * nat)) : nat :=
  sum_list (map (fun q => 2 * (q.1.1.2 - q.1.1.1) + 1) queue).

Definition queue_ranges (queue : list (nat * nat * nat * nat)) : Prop :=
  Forall (fun q => q.1.1.1 <= q.1.1.2) queue.

(** The block [(i, j, k)] is a match: [a[i:i+k] == b[j:j+k]]. *)
Definition is_match (a b : list Py.str) (blk : Difflib.best) : Prop :=
  forall t, t < blk.2 ->
    exists x, a !! (blk.1.1 + t) = Some x /\ b !! (blk.1.2 + t) = Some x.

(** Every length in [j2len] is the length of a match that ends in the row
    before [r] and in the column of its key. *)
Definition ends_match (a b : list Py.str) (r : nat) (j2len : gmap nat nat) : Prop :=
  forall j k, j2len !! j = Some k ->
    k <= r /\ k <= S j /\ is_match a b (r - k, S j - k, k).

(** A block of the list of matching blocks: a match of one element or
    more. *)
Definition real_block (a b : list Py.str) (blk : Difflib.best) : Prop :=
  is_match a b blk /\ blk.2 <> 0.

(** The index of a matcher lists positions of its second sequence. *)
Definition index_sound (m : Difflib.matcher) : Prop :=
  forall elt js j,
    Difflib.b2j m !! elt = Some js -> j ∈ js -> Difflib.seq_b m !! j = Some elt.

(** The index of a matcher lists, for every element it has an entry for,
    all the positions of the element in the second sequence, in ascending
    order. *)
Definition index_exact (m : Difflib.matcher) : Prop :=
  forall elt js,
    Difflib.b2j m !! elt = Some js ->
    StronglySorted lt js /\ forall j, j ∈ js <-> Difflib.seq_b m !! j = Some elt.

(** The element at position [r] of the first sequence has an entry in the
    index. *)
Definition indexed_at (m : Difflib.matcher) (r : nat) : bool :=
  match Difflib.seq_a m !! r with
  | Some x => bool_decide (is_Some (Difflib.b2j m !! x))
  | None => false
  end.

(** The number of indexed elements of the first sequence in a row just
    before position [r]. *)
Fixpoint run_before (m : Difflib.matcher) (r : nat) : nat :=
  match r with
  | O => 0
  | S r' => if indexed_at m r' then S (run_before m r') else 0
  end.

(** A best match that starts at the same position in both sequences. *)
Definition on_diagonal (bst : Difflib.best) : Prop := bst.1.1 = bst.1.2.

(** The lengths in [j2len] after the row [r]: none exceeds the run of
    indexed elements that ends in the row, nor the one that ends in its
    column. *)
Definition lengths_in_runs (m : Difflib.matcher) (r : nat) (j2len : gmap nat nat) : Prop :=
  forall j v, j2len !! j = Some v -> v <= run_before m r /\ v <= run_before m (S j).

(** The best match is as long as every run that ends before the row [r]. *)
Definition best_covers_runs (m : Difflib.matcher) (r : nat) (bst : Difflib.best) : Prop :=
  forall j, j <= r -> run_before m j <= bst.2.

(** What a line of the diff of [a] and [b] is made of, by its kind: a
    removal line is a line of [a] after a dash, an addition line a line of
    [b] after a plus sign, a context line a line of both after a space. *)
Definition line_from (a b : list Py.str) (l : Difflib.line) : Prop :=
  match l.1 with
  | Difflib.FileHeader =>
      Py.startswith l.2 u"--- " = true \/ Py.startswith l.2 u"+++ " = true
  | Difflib.HunkHeader => Py.startswith l.2 u"@@ -" = true
  | Difflib.Context => exists x, x ∈ a /\ x ∈ b /\ l.2 = u" " ++ x
  | Difflib.Removal => exists x, x ∈ a /\ l.2 = u"-" ++ x
  | Difflib.Addition => exists x, x ∈ b /\ l.2 = u"+" ++ x
  end.

(** An opcode with the tag [equal] spans a match. *)
Definition equal_ok (a b : list Py.str) (c : Difflib.opcode) : Prop :=
  Difflib.op_tag c = Difflib.Equal ->
  exists k,
    Difflib.op_i2 c = Difflib.op_i1 c + k /\ Difflib.op_j2 c = Difflib.op_j1 c + k
    /\ is_match a b (Difflib.op_i1 c, Difflib.op_j1 c, k).


(** A line as [readlines] cuts it: not empty, without a carriage return, and
    with no line feed before its last character. *)
Definition is_line (l : Py.str) : Prop :=
  l <> [] /\ (Py.CR ∉ l) /\ (Py.NL ∉ removelast l).

(** The file [fname] of a directory of the walk is a source file that is
    collected under the key [rel_path], with the location [abs_path]. *)
Definition collected_from (abspath : Py.str -> Py.str) (join relpath : Py.str -> Py.str -> Py.str)
    (lower : Py.str -> Py.str) (tree : OsPath.tree) (root : Py.str) (extensions : gset Py.str)
    (rel_path abs_path : Py.str) : Prop :=
  exists dirpath dirnames filenames fname,
    (dirpath, dirnames, filenames) ∈ OsPath.walk join (abspath root) tree
    /\ fname ∈ filenames
    /\ Engine.is_source_file lower extensions fname = true
    /\ abs_path = join dirpath fname
    /\ rel_path = relpath abs_path (abspath root).

(** What [esc] writes for one character. *)
Definition escaped_char (c : Py.char) : Py.str :=
  if (c =? 38)%N then u"&amp;"
  else if (c =? 60)%N then u"&lt;"
  else if (c =? 62)%N then u"&gt;"
  else if (c =? 34)%N then u"&quot;"
  else if (c =? 39)%N then u"&#x27;"
  else [c].

(** A character that is written as it is in HTML text and in an attribute
    value: no angle bracket and no quotation mark. *)
Definition is_inert (c : Py.char) : Prop :=
  c <> 60%N /\ c <> 62%N /\ c <> 34%N /\ c <> 39%N.

(** A line of a diff that shows a change: a removal or an addition. *)
Definition is_change (l : Difflib.line) : bool :=
  Difflib.kind_eqb l.1 Difflib.Removal || Difflib.kind_eqb l.1 Difflib.Addition.

(** The lines of an opcode that show a change. *)
Definition changes_of (a b : list Py.str) (c : Difflib.opcode) : list Difflib.line :=
  List.filter is_change (Difflib.opcode_lines a b c).

(** The decoding chain as the specification words it: UTF-8, strict; then
    UTF-8 that tolerates a byte order mark; then a single-byte encoding that
    decodes every byte sequence, a placeholder standing for what it cannot
    decode. *)
Definition spec_decode_chain (data : list byte) : Py.str :=
  match Codecs.decode Codecs.Utf8 Codecs.Strict data with
  | Some text => text
  | None =>
      match Codecs.decode Codecs.Utf8Sig Codecs.Strict data with
      | Some text => text
      | None => default [] (Codecs.decode Codecs.Latin1 Codecs.Replace data)
      end
  end.

(** The lines of a file under that chain. *)
Definition spec_read_lines (fs : FS.t) (path : Py.str) : list Py.str :=
  match fs path with
  | FS.Regular (Some data) =>
      Codecs.readlines (Codecs.translate_newlines (spec_decode_chain data))
  | _ => []
  end.

(** * Properties *)

(** ** MD5: the test vectors of RFC 1321 *)

Example md5_empty :
  MD5.hexdigest MD5.new = u"d41d8cd98f00b204e9800998ecf8427e".
Proof. vm_compute. reflexivity. Qed.

Example md5_abc :
  MD5.hexdigest (list_byte_of_string "abc") = u"900150983cd24fb0d6963f7d28e17f72".
Proof. vm_compute. reflexivity. Qed.

Example md5_two_blocks :
  MD5.hexdigest (list_byte_of_string
    "12345678901234567890123456789012345678901234567890123456789012345678901234567890")
  = u"57edf4a22be3c955ac49da2e2107b67a".
Proof. vm_compute. reflexivity. Qed.

(** ** The IO monad *)

Section io_laws.
Context {A B : Type}.
Implicit Types (m : FS.IO A) (k : A -> FS.IO B) (fs : FS.t).

Lemma value_ret (x : A) fs : FS.value (mret x) fs = x.
Proof. reflexivity. Qed.

Lemma calls_ret (x : A) fs : FS.calls (mret x : FS.IO A) fs = [].
Proof. reflexivity. Qed.

Lemma value_bind m k fs :
  FS.value (m ≫= k) fs = FS.value (k (FS.value m fs)) fs.
Proof.
  unfold FS.value, mbind, io_bind, FS.bind.
  destruct (m fs) as [x l1]; simpl. destruct (k x fs); reflexivity.
Qed.

Lemma calls_bind m k fs :
  FS.calls (m ≫= k) fs = FS.calls m fs ++ FS.calls (k (FS.value m fs)) fs.
Proof.
  unfold FS.calls, FS.value, mbind, io_bind, FS.bind.
  destruct (m fs) as [x l1]; simpl. destruct (k x fs); reflexivity.
Qed.

End io_laws.

Lemma value_isfile path fs :
  FS.value (FS.isfile path) fs
  = match fs path with FS.Regular _ => true | _ => false end.
Proof. reflexivity. Qed.

Lemma calls_isfile path fs : FS.calls (FS.isfile path) fs = [FS.Stat path].
Proof. reflexivity. Qed.

Lemma value_open_read path fs :
  FS.value (FS.open_read path) fs
  = match fs path with FS.Regular (Some data) => Some data | _ => None end.
Proof. reflexivity. Qed.

Lemma calls_open_read path fs : FS.calls (FS.open_read path) fs = [FS.Open path].
Proof. reflexivity. Qed.

(** ** fast_hash *)

Lemma take_nil_inv {A} (n : nat) (l : list A) : 0 < n -> take n l = [] -> l = [].
Proof. destruct n, l; simpl; intros; [lia | lia | reflexivity | discriminate]. Qed.

Lemma CHUNK_pos : 0 < Engine.CHUNK.
Proof. unfold Engine.CHUNK. apply Nat.ltb_lt. vm_compute. reflexivity. Qed.

(** The chunked reads feed the whole file to the hash object, whatever fuel
    is left once the file is exhausted. *)
Lemma feed_chunks_all fuel data h :
  length data < fuel -> Engine.feed_chunks fuel data h = h ++ data.
Proof.
  revert data h. induction fuel as [|fuel IH]; intros data h Hlen; [lia|].
  cbn [Engine.feed_chunks]. destruct (take Engine.CHUNK data) as [|c chunk] eqn:Htake.
  - apply take_nil_inv in Htake; [|apply CHUNK_pos]. subst. by rewrite app_nil_r.
  - rewrite IH.
    + unfold MD5.update. rewrite <- Htake, <- app_assoc. by rewrite take_drop.
    + rewrite length_drop. pose proof CHUNK_pos.
      destruct data; [by rewrite take_nil in Htake|]. cbn [length] in *. lia.
Qed.

(** [fast_hash] is the MD5 of the content, or the empty sentinel. *)
Lemma value_fast_hash path fs :
  FS.value (Engine.fast_hash path) fs
  = match fs path with
    | FS.Regular (Some data) => MD5.hexdigest data
    | _ => []
    end.
Proof.
  unfold Engine.fast_hash. rewrite value_bind, value_open_read.
  destruct (fs path) as [| |[data|]]; try reflexivity.
  rewrite value_ret, feed_chunks_all by lia. reflexivity.
Qed.

Lemma calls_fast_hash path fs :
  FS.calls (Engine.fast_hash path) fs = [FS.Open path].
Proof.
  unfold Engine.fast_hash. rewrite calls_bind, calls_open_read.
  destruct (FS.value _ fs); reflexivity.
Qed.

Lemma hexdigest_length data : length (MD5.hexdigest data) = 32.
Proof.
  unfold MD5.hexdigest, MD5.digest. cbv zeta.
  generalize (fold_left MD5.compress
    (MD5.blocks (length (map to_N data ++ MD5.padding (N.of_nat (length (map to_N data)))))
       (map to_N data ++ MD5.padding (N.of_nat (length (map to_N data))))) MD5.init).
  intros w. reflexivity.
Qed.

(** A digest is never the sentinel of an unreadable file. *)
Lemma hexdigest_not_sentinel data : MD5.hexdigest data <> [].
Proof. intros H. pose proof (hexdigest_length data) as Hl. rewrite H in Hl. discriminate. Qed.

(** ** read_lines *)

Lemma on_error_replace_is_Some (rest : option Py.str) :
  is_Some rest -> is_Some (Codecs.on_error Codecs.Replace rest).
Proof. intros [text ->]. by eexists. Qed.

(** With [errors="replace"] the UTF-8 decoder accepts every byte sequence. *)
Lemma utf8_decode_replace_total_upto n bs :
  length bs <= n -> is_Some (Codecs.utf8_decode Codecs.Replace bs).
Proof.
  revert bs. induction n as [|n IH]; intros bs Hn.
  - destruct bs; [by eexists | simpl in Hn; lia].
  - destruct bs as [|c r]; [by eexists|].
    assert (Hr : forall l, length l <= length r ->
                 is_Some (Codecs.utf8_decode Codecs.Replace l)).
    { intros l Hl. apply IH. simpl in Hn. lia. }
    cbn [Codecs.utf8_decode].
    repeat match goal with
    | |- is_Some (if ?b then _ else _) => destruct b
    | |- is_Some (match ?l with [] => _ | _ :: _ => _ end) =>
        let c := fresh "c" in let r := fresh "r" in
        destruct l as [|c r]; cbn [length] in Hr
    | |- is_Some (_ <$> _) => apply fmap_is_Some
    | |- is_Some (Codecs.on_error Codecs.Replace _) => apply on_error_replace_is_Some
    | |- is_Some (Some _) => by eexists
    | |- is_Some (Codecs.utf8_decode Codecs.Replace _) => apply Hr; cbn [length]; lia
    end.
Qed.

Lemma utf8_decode_replace_total bs : is_Some (Codecs.utf8_decode Codecs.Replace bs).
Proof. by apply (utf8_decode_replace_total_upto (length bs)). Qed.

Lemma decode_replace_total enc data : is_Some (Codecs.decode enc Codecs.Replace data).
Proof.
  destruct enc; simpl; [apply utf8_decode_replace_total.. | by eexists].
Qed.

Lemma value_try_read_lines path enc fs :
  FS.value (Engine.try_read_lines path enc) fs
  = match fs path with
    | FS.Regular (Some data) =>
        (fun text => Codecs.readlines (Codecs.translate_newlines text))
          <$> Codecs.decode enc Codecs.Replace data
    | _ => None
    end.
Proof.
  unfold Engine.try_read_lines. rewrite value_bind, value_open_read, value_ret.
  destruct (fs path) as [| |[data|]]; reflexivity.
Qed.

Lemma calls_try_read_lines path enc fs :
  FS.calls (Engine.try_read_lines path enc) fs = [FS.Open path].
Proof. unfold Engine.try_read_lines. by rewrite calls_bind, calls_open_read, calls_ret. Qed.

Lemma value_read_lines path fs :
  FS.value (Engine.read_lines path) fs
  = match fs path with
    | FS.Regular (Some data) =>
        Codecs.readlines (Codecs.translate_newlines (utf8_text data))
    | _ => []
    end.
Proof.
  unfold Engine.read_lines, utf8_text. cbn [Engine.read_lines_with].
  rewrite !value_bind, !value_try_read_lines.
  destruct (fs path) as [| |[data|]] eqn:Hp.
  - cbn. rewrite !value_bind, !value_try_read_lines, Hp. cbn.
    rewrite !value_bind, !value_try_read_lines, Hp. reflexivity.
  - cbn. rewrite !value_bind, !value_try_read_lines, Hp. cbn.
    rewrite !value_bind, !value_try_read_lines, Hp. reflexivity.
  - destruct (decode_replace_total Codecs.Utf8 data) as [text ->]. reflexivity.
  - cbn. rewrite !value_bind, !value_try_read_lines, Hp. cbn.
    rewrite !value_bind, !value_try_read_lines, Hp. reflexivity.
Qed.

Lemma calls_read_lines path fs :
  FS.calls (Engine.read_lines path) fs
  = match fs path with
    | FS.Regular (Some _) => [FS.Open path]
    | _ => [FS.Open path; FS.Open path; FS.Open path]
    end.
Proof.
  unfold Engine.read_lines. cbn [Engine.read_lines_with].
  rewrite calls_bind, calls_try_read_lines, value_try_read_lines.
  destruct (fs path) as [| |[data|]] eqn:Hp.
  - rewrite calls_bind, calls_try_read_lines, value_try_read_lines, Hp.
    by rewrite calls_bind, calls_try_read_lines, value_try_read_lines, Hp.
  - rewrite calls_bind, calls_try_read_lines, value_try_read_lines, Hp.
    by rewrite calls_bind, calls_try_read_lines, value_try_read_lines, Hp.
  - by destruct (decode_replace_total Codecs.Utf8 data) as [text ->].
  - rewrite calls_bind, calls_try_read_lines, value_try_read_lines, Hp.
    by rewrite calls_bind, calls_try_read_lines, value_try_read_lines, Hp.
Qed.

(** ** compare_file *)

(** [compare_file] without the monad. *)
Lemma value_compare_file rel pa pb n fs :
  FS.value (Engine.compare_file rel pa pb n) fs
  = match FS.value (FS.isfile pa) fs, FS.value (FS.isfile pb) fs with
    | true, true =>
        if bool_decide (FS.value (Engine.fast_hash pa) fs
                        = FS.value (Engine.fast_hash pb) fs)
        then None
        else match file_diff fs rel pa pb n with
             | [] => None
             | diff_lines => Some (modified_record rel pa pb diff_lines)
             end
    | true, false =>
        Some {| Engine.relative_path := rel; Engine.status := u"removed";
                Engine.location_a := Some pa; Engine.location_b := None;
                Engine.lines_added := 0; Engine.lines_removed := 0;
                Engine.diff := [] |}
    | false, true =>
        Some {| Engine.relative_path := rel; Engine.status := u"added";
                Engine.location_a := None; Engine.location_b := Some pb;
                Engine.lines_added := 0; Engine.lines_removed := 0;
                Engine.diff := [] |}
    | false, false => None
    end.
Proof.
  unfold Engine.compare_file, file_diff. rewrite !value_bind.
  destruct (FS.value (FS.isfile pa) fs), (FS.value (FS.isfile pb) fs);
    cbn [andb negb]; try reflexivity.
  rewrite !value_bind. case_bool_decide; [reflexivity|].
  rewrite !value_bind.
  by destruct (Difflib.unified_diff _ _ _ _ _).
Qed.

(** The calls [compare_file] makes when a file is missing on a side: the two
    existence tests. *)
Lemma calls_compare_file_not_both rel pa pb n fs :
  FS.value (FS.isfile pa) fs && FS.value (FS.isfile pb) fs = false ->
  FS.calls (Engine.compare_file rel pa pb n) fs = [FS.Stat pa; FS.Stat pb].
Proof.
  intros H. unfold Engine.compare_file.
  rewrite !calls_bind, !calls_isfile.
  destruct (FS.value (FS.isfile pa) fs), (FS.value (FS.isfile pb) fs);
    try discriminate; reflexivity.
Qed.

Lemma value_worker join files_a files_b ea eb n rel diffs fs :
  FS.value (Engine.worker join files_a files_b ea eb n false rel diffs) fs
  = match FS.value
            (Engine.compare_file rel
               (default (join ea rel) (files_a !! rel))
               (default (join eb rel) (files_b !! rel)) n) fs with
    | Some r => diffs ++ [r]
    | None => diffs
    end.
Proof. unfold Engine.worker. by rewrite value_bind, value_ret. Qed.

(** C9: when the file exists on neither side at comparison time,
    [compare_file] returns [None]; the task of the pool that compared the
    path leaves the list of records as it was, and nothing is raised. *)
Theorem compare_file_missing_on_both_sides fs rel pa pb n :
  FS.value (FS.isfile pa) fs = false ->
  FS.value (FS.isfile pb) fs = false ->
  FS.value (Engine.compare_file rel pa pb n) fs = None
  /\ forall join files_a files_b ea eb diffs,
       default (join ea rel) (files_a !! rel) = pa ->
       default (join eb rel) (files_b !! rel) = pb ->
       FS.value (Engine.worker join files_a files_b ea eb n false rel diffs) fs = diffs.
Proof.
  intros Ha Hb.
  assert (Hnone : FS.value (Engine.compare_file rel pa pb n) fs = None).
  { by rewrite value_compare_file, Ha, Hb. }
  split; [exact Hnone|].
  intros join files_a files_b ea eb diffs <- <-.
  by rewrite value_worker, Hnone.
Qed.

(** A path of neither example tree. *)
Lemma compare_file_missing_on_both_sides_witness :
  FS.value (FS.isfile u"/A/gone.h") Scenario.disk = false
  /\ FS.value (FS.isfile u"/B/gone.h") Scenario.disk = false
  /\ FS.value (Engine.compare_file u"gone.h" u"/A/gone.h" u"/B/gone.h" 3) Scenario.disk
     = None.
Proof.
  split; [vm_compute; reflexivity|]. split; [vm_compute; reflexivity|].
  apply (compare_file_missing_on_both_sides
           Scenario.disk u"gone.h" u"/A/gone.h" u"/B/gone.h" 3);
    vm_compute; reflexivity.
Defined.

(** C4: a file that exists on exactly one side yields a record with status
    removed (only under root A, no location on side B) or added (only under
    root B, no location on side A), with no counted lines and an empty diff;
    the only calls made are the two existence tests, so no file is opened. *)
Theorem compare_file_one_side fs rel pa pb n :
  FS.value (FS.isfile pa) fs <> FS.value (FS.isfile pb) fs ->
  FS.value (Engine.compare_file rel pa pb n) fs
  = Some {| Engine.relative_path := rel;
            Engine.status :=
              if FS.value (FS.isfile pa) fs then u"removed" else u"added";
            Engine.location_a :=
              if FS.value (FS.isfile pa) fs then Some pa else None;
            Engine.location_b :=
              if FS.value (FS.isfile pb) fs then Some pb else None;
            Engine.lines_added := 0; Engine.lines_removed := 0;
            Engine.diff := [] |}
  /\ FS.calls (Engine.compare_file rel pa pb n) fs = [FS.Stat pa; FS.Stat pb]
  /\ Forall (fun c => FS.is_open c = false)
            (FS.calls (Engine.compare_file rel pa pb n) fs).
Proof.
  intros Hne.
  assert (Hcalls : FS.calls (Engine.compare_file rel pa pb n) fs
                   = [FS.Stat pa; FS.Stat pb]).
  { apply calls_compare_file_not_both.
    destruct (FS.value (FS.isfile pa) fs), (FS.value (FS.isfile pb) fs);
      try reflexivity; congruence. }
  split; [|split; [exact Hcalls|]].
  - rewrite value_compare_file.
    destruct (FS.value (FS.isfile pa) fs), (FS.value (FS.isfile pb) fs);
      try reflexivity; congruence.
  - rewrite Hcalls. repeat constructor.
Qed.

(** [src/bar.cpp] is only under root A, [src/baz.cpp] only under root B. *)
Lemma compare_file_one_side_witness :
  (FS.value (Engine.compare_file u"src/bar.cpp" u"/A/src/bar.cpp" u"/B/src/bar.cpp" 3)
            Scenario.disk
   = Some {| Engine.relative_path := u"src/bar.cpp"; Engine.status := u"removed";
             Engine.location_a := Some u"/A/src/bar.cpp"; Engine.location_b := None;
             Engine.lines_added := 0; Engine.lines_removed := 0; Engine.diff := [] |})
  /\ (FS.value (Engine.compare_file u"src/baz.cpp" u"/A/src/baz.cpp" u"/B/src/baz.cpp" 3)
               Scenario.disk
      = Some {| Engine.relative_path := u"src/baz.cpp"; Engine.status := u"added";
                Engine.location_a := None; Engine.location_b := Some u"/B/src/baz.cpp";
                Engine.lines_added := 0; Engine.lines_removed := 0; Engine.diff := [] |}).
Proof.
  split.
  - refine (proj1 (compare_file_one_side
             Scenario.disk u"src/bar.cpp" u"/A/src/bar.cpp" u"/B/src/bar.cpp" 3 _)).
    vm_compute. discriminate.
  - refine (proj1 (compare_file_one_side
             Scenario.disk u"src/baz.cpp" u"/A/src/baz.cpp" u"/B/src/baz.cpp" 3 _)).
    vm_compute. discriminate.
Defined.

(** C3: for a path whose file exists on both sides, [compare_file] returns
    [None] when the two contents are identical, that is when the digests
    match, and also when the digests differ and the diff of the two line
    lists is empty; the task of the pool then appends nothing to the list of
    records. *)
Theorem compare_file_unchanged fs rel pa pb n :
  FS.value (FS.isfile pa) fs = true ->
  FS.value (FS.isfile pb) fs = true ->
  (exists data, fs pa = FS.file data /\ fs pb = FS.file data)
  \/ FS.value (Engine.fast_hash pa) fs = FS.value (Engine.fast_hash pb) fs
  \/ file_diff fs rel pa pb n = [] ->
  FS.value (Engine.compare_file rel pa pb n) fs = None
  /\ forall join files_a files_b ea eb diffs,
       default (join ea rel) (files_a !! rel) = pa ->
       default (join eb rel) (files_b !! rel) = pb ->
       FS.value (Engine.worker join files_a files_b ea eb n false rel diffs) fs = diffs.
Proof.
  intros Ha Hb Hsame.
  assert (Hnone : FS.value (Engine.compare_file rel pa pb n) fs = None).
  { rewrite value_compare_file, Ha, Hb.
    destruct Hsame as [(data & Hpa & Hpb)|[Hhash|Hdiff]].
    - rewrite !value_fast_hash, Hpa, Hpb. by rewrite bool_decide_eq_true_2.
    - by rewrite bool_decide_eq_true_2.
    - rewrite Hdiff. by case_bool_decide. }
  split; [exact Hnone|].
  intros join files_a files_b ea eb diffs <- <-.
  by rewrite value_worker, Hnone.
Qed.

(** The same content on both sides; and two files that differ only in their
    line ends, whose digests differ and whose lines are the same. *)
Lemma compare_file_unchanged_witness :
  (FS.value (Engine.compare_file u"f" u"/A/f" u"/B/f" 3) Scenario.same = None)
  /\ (FS.value (Engine.fast_hash u"/A/f") Scenario.line_ends
      = u"933222b19ff3e7ea5f65517ea1f7d57e"
      /\ FS.value (Engine.fast_hash u"/B/f") Scenario.line_ends
         = u"60b725f10c9c85c70d97880dfe8191b3"
      /\ FS.value (Engine.compare_file u"f" u"/A/f" u"/B/f" 3) Scenario.line_ends = None).
Proof.
  split; [|split; [vm_compute; reflexivity|split; [vm_compute; reflexivity|]]].
  - refine (proj1 (compare_file_unchanged Scenario.same u"f" u"/A/f" u"/B/f" 3 _ _ _)).
    + vm_compute; reflexivity.
    + vm_compute; reflexivity.
    + left. eexists. split; vm_compute; reflexivity.
  - refine (proj1 (compare_file_unchanged Scenario.line_ends u"f" u"/A/f" u"/B/f" 3 _ _ _)).
    + vm_compute; reflexivity.
    + vm_compute; reflexivity.
    + right; right. vm_compute; reflexivity.
Defined.

(** ** Strings *)

Lemma rstrip_nl_cons c s :
  c <> Py.NL -> Py.rstrip_nl (c :: s) = c :: Py.rstrip_nl s.
Proof.
  intros Hc. cbn [Py.rstrip_nl]. destruct (Py.rstrip_nl s); [|reflexivity].
  unfold Py.char_eqb. by rewrite (proj2 (N.eqb_neq c Py.NL)).
Qed.

(** What [rstrip] leaves is empty or ends in another character than the line
    feed. *)
Lemma rstrip_nl_last s :
  Py.rstrip_nl s = []
  \/ exists s' c, Py.rstrip_nl s = s' ++ [c] /\ c <> Py.NL.
Proof.
  induction s as [|c s IH]; [by left|].
  cbn [Py.rstrip_nl]. destruct IH as [->|(s' & d & -> & Hd)].
  - unfold Py.char_eqb. destruct (N.eqb_spec c Py.NL) as [->|Hc]; [by left|].
    right. by exists [], c.
  - right. destruct (s' ++ [d]) as [|x r] eqn:Heq; [by destruct s'|].
    rewrite <- Heq. by exists (c :: s'), d.
Qed.

Lemma endswith_snoc s c : Py.endswith (s ++ [c]) Py.LF = Py.char_eqb Py.NL c.
Proof.
  unfold Py.endswith, Py.LF. rewrite rev_unit. cbn [rev app Py.startswith].
  destruct (rev s); apply andb_true_r.
Qed.

Lemma rstrip_nl_not_endswith s : Py.endswith (Py.rstrip_nl s) Py.LF = false.
Proof.
  destruct (rstrip_nl_last s) as [->|(s' & c & -> & Hc)]; [reflexivity|].
  rewrite endswith_snoc. unfold Py.char_eqb. apply N.eqb_neq. congruence.
Qed.

Lemma startswith_app p s : Py.startswith (p ++ s) p = true.
Proof.
  induction p as [|c p IH]; [by destruct s|].
  cbn. unfold Py.char_eqb. by rewrite N.eqb_refl.
Qed.

(** ** The lines of a unified diff *)

(** A diff is empty, or it starts with the two file header lines. *)
Lemma unified_diff_lines_shape a b fromfile tofile n lineterm :
  Difflib.unified_diff_lines a b fromfile tofile n lineterm = []
  \/ Difflib.unified_diff_lines a b fromfile tofile n lineterm
     = (Difflib.FileHeader, u"--- " ++ fromfile ++ lineterm)
       :: (Difflib.FileHeader, u"+++ " ++ tofile ++ lineterm)
       :: concat (map (Difflib.group_lines a b lineterm)
                      (Difflib.get_grouped_opcodes (Difflib.chain_b a b) n)).
Proof.
  unfold Difflib.unified_diff_lines.
  destruct (Difflib.get_grouped_opcodes _ _); [by left | by right].
Qed.

Lemma rstrip_nl_header (marker : Py.str) (name : Py.str) :
  Forall (fun c => c <> Py.NL) marker ->
  Py.rstrip_nl (marker ++ name ++ Py.LF) = marker ++ Py.rstrip_nl (name ++ Py.LF).
Proof.
  induction 1 as [|c marker Hc _ IH]; [reflexivity|].
  cbn [app]. by rewrite rstrip_nl_cons, IH.
Qed.

Lemma header_marker_no_nl (marker : Py.str) :
  forallb (fun c => negb (N.eqb c Py.NL)) marker = true ->
  Forall (fun c => c <> Py.NL) marker.
Proof.
  intros H. apply Forall_forall. intros c Hc.
  rewrite forallb_forall in H. apply list_elem_of_In, H in Hc.
  apply negb_true_iff, N.eqb_neq in Hc. exact Hc.
Qed.

(** The diff of two files is empty or starts with the two file header lines;
    the lines after them come from the groups of opcodes. *)
Lemma file_diff_shape fs rel pa pb n :
  file_diff fs rel pa pb n = []
  \/ exists rest,
       file_diff fs rel pa pb n
       = (u"--- " ++ (u"A/" ++ rel) ++ Py.LF)
         :: (u"+++ " ++ (u"B/" ++ rel) ++ Py.LF) :: rest.
Proof.
  unfold file_diff, Difflib.unified_diff.
  destruct (unified_diff_lines_shape
              (FS.value (Engine.read_lines pa) fs) (FS.value (Engine.read_lines pb) fs)
              (u"A/" ++ rel) (u"B/" ++ rel) n Py.LF) as [-> | ->]; [by left|].
  right. eexists. reflexivity.
Qed.

(** The record [compare_file] returns with status modified. *)
Lemma compare_file_modified_inv fs rel pa pb n r :
  FS.value (Engine.compare_file rel pa pb n) fs = Some r ->
  Engine.status r = u"modified" ->
  file_diff fs rel pa pb n <> []
  /\ r = modified_record rel pa pb (file_diff fs rel pa pb n).
Proof.
  intros Hr Hstatus. rewrite value_compare_file in Hr.
  destruct (FS.value (FS.isfile pa) fs), (FS.value (FS.isfile pb) fs);
    [| | |discriminate].
  2, 3: injection Hr as <-; vm_compute in Hstatus; discriminate.
  case_bool_decide; [discriminate|].
  destruct (file_diff fs rel pa pb n) as [|l0 ls]; [discriminate|].
  split; [discriminate|congruence].
Qed.

(** C10: a record with status modified has a diff that starts with the
    file header line of side A (beginning with three dashes) and the file
    header line of side B (beginning with three plus signs); its diff is the
    output of [unified_diff] with the trailing line feeds removed from every
    line, so no stored line ends in a line feed. *)
Theorem modified_record_diff_shape fs rel pa pb n r :
  FS.value (Engine.compare_file rel pa pb n) fs = Some r ->
  Engine.status r = u"modified" ->
  exists rest,
    Engine.diff r
    = (u"--- A/" ++ Py.rstrip_nl (rel ++ Py.LF))
      :: (u"+++ B/" ++ Py.rstrip_nl (rel ++ Py.LF))
      :: rest
    /\ Engine.diff r = map Py.rstrip_nl (file_diff fs rel pa pb n)
    /\ Forall (fun l => Py.startswith l u"---" = true) (take 1 (Engine.diff r))
    /\ Forall (fun l => Py.startswith l u"+++" = true) (take 1 (drop 1 (Engine.diff r)))
    /\ Forall (fun l => Py.endswith l Py.LF = false) (Engine.diff r).
Proof.
  intros Hr Hstatus.
  destruct (compare_file_modified_inv _ _ _ _ _ _ Hr Hstatus) as [Hne ->].
  cbn [modified_record Engine.diff].
  destruct (file_diff_shape fs rel pa pb n) as [Hnil|(rest & Hd)]; [done|].
  assert (Hends : Forall (fun l => Py.endswith l Py.LF = false)
                         (map Py.rstrip_nl (file_diff fs rel pa pb n))).
  { apply Forall_forall. intros l Hl. apply list_elem_of_fmap in Hl as (l' & -> & _).
    apply rstrip_nl_not_endswith. }
  revert Hends. rewrite Hd. cbn [map].
  rewrite <- !(app_assoc _ rel Py.LF), !(app_assoc _ _ (rel ++ Py.LF)).
  rewrite !rstrip_nl_header by (apply header_marker_no_nl; reflexivity).
  intros Hends.
  eexists. split; [reflexivity|]. split; [reflexivity|].
  split; [|split; [|exact Hends]].
  - cbn [take]. constructor; [|constructor].
    change (u"--- " ++ u"A/") with (u"---" ++ u" A/").
    rewrite <- app_assoc. apply startswith_app.
  - cbn [take drop]. constructor; [|constructor].
    change (u"+++ " ++ u"B/") with (u"+++" ++ u" B/").
    rewrite <- app_assoc. apply startswith_app.
Qed.

(** ** Diffs against an empty sequence *)

Lemma scan_row_empty_range i j2len js newj2len bst :
  Difflib.scan_row i 0 0 j2len js newj2len bst = (newj2len, bst).
Proof. by destruct js. Qed.

Lemma scan_fold_empty_range m l bst :
  fold_left (Difflib.scan_step m 0 0) l (∅, bst) = (∅, bst).
Proof.
  induction l as [|i l IH]; [reflexivity|].
  cbn [fold_left]. unfold Difflib.scan_step at 2. cbn [fst snd].
  by rewrite scan_row_empty_range.
Qed.

Lemma extend_right_empty_range m junk ahi besti bestj room bestsize :
  Difflib.extend_right m junk ahi 0 besti bestj room bestsize = bestsize.
Proof.
  destruct room; [reflexivity|]. cbn [Difflib.extend_right].
  replace (bestj + bestsize <? 0) with false by (symmetry; apply Nat.ltb_ge; lia).
  by rewrite andb_false_r.
Qed.

(** No block matches when [b] is empty. *)
Lemma find_longest_match_empty_b m ahi :
  Difflib.find_longest_match m 0 ahi 0 0 = (0, 0, 0).
Proof.
  unfold Difflib.find_longest_match.
  rewrite scan_fold_empty_range. cbn [Difflib.extend_left].
  by rewrite !extend_right_empty_range.
Qed.

(** No block matches when [a] is empty. *)
Lemma find_longest_match_empty_a m bhi :
  Difflib.find_longest_match m 0 0 0 bhi = (0, 0, 0).
Proof. reflexivity. Qed.

Lemma get_matching_blocks_one_empty m :
  length (Difflib.seq_a m) = 0 \/ length (Difflib.seq_b m) = 0 ->
  Difflib.get_matching_blocks m
  = [(length (Difflib.seq_a m), length (Difflib.seq_b m), 0)].
Proof.
  intros H. unfold Difflib.get_matching_blocks.
  assert (Hloop : Difflib.match_loop m (2 * length (Difflib.seq_a m) + 1)
            [(0, length (Difflib.seq_a m), 0, length (Difflib.seq_b m))] [] = []).
  { rewrite Nat.add_1_r. cbn [Difflib.match_loop].
    destruct H as [-> | ->].
    - rewrite find_longest_match_empty_a. reflexivity.
    - rewrite find_longest_match_empty_b. cbn.
      by destruct (length (Difflib.seq_a m) + _). }
  rewrite Hloop. reflexivity.
Qed.

Lemma seq_a_chain_b a b : Difflib.seq_a (Difflib.chain_b a b) = a.
Proof. unfold Difflib.chain_b. by destruct (200 <=? length b). Qed.

Lemma seq_b_chain_b a b : Difflib.seq_b (Difflib.chain_b a b) = b.
Proof. unfold Difflib.chain_b. by destruct (200 <=? length b). Qed.

Lemma get_grouped_opcodes_empty_b a n :
  a <> [] ->
  Difflib.get_grouped_opcodes (Difflib.chain_b a []) n
  = [[Difflib.Op Difflib.Delete 0 (length a) 0 0]].
Proof.
  intros Ha. unfold Difflib.get_grouped_opcodes, Difflib.get_opcodes.
  rewrite get_matching_blocks_one_empty by (right; by rewrite seq_b_chain_b).
  rewrite seq_a_chain_b, seq_b_chain_b.
  destruct a as [|x a]; [done|]. reflexivity.
Qed.

Lemma get_grouped_opcodes_empty_a b n :
  b <> [] ->
  Difflib.get_grouped_opcodes (Difflib.chain_b [] b) n
  = [[Difflib.Op Difflib.Insert 0 0 0 (length b)]].
Proof.
  intros Hb. unfold Difflib.get_grouped_opcodes, Difflib.get_opcodes.
  rewrite get_matching_blocks_one_empty by (left; by rewrite seq_a_chain_b).
  rewrite seq_a_chain_b, seq_b_chain_b.
  destruct b as [|x b]; [done|]. reflexivity.
Qed.

Lemma get_grouped_opcodes_both_empty n :
  Difflib.get_grouped_opcodes (Difflib.chain_b [] []) n = [].
Proof. destruct n as [|[|n]]; reflexivity. Qed.

Lemma unified_diff_empty_b a fromfile tofile n :
  Difflib.unified_diff a [] fromfile tofile n = [] <-> a = [].
Proof.
  unfold Difflib.unified_diff, Difflib.unified_diff_lines. split.
  - intros H. destruct a as [|x a]; [reflexivity|].
    rewrite get_grouped_opcodes_empty_b in H by done. discriminate.
  - intros ->. by rewrite get_grouped_opcodes_both_empty.
Qed.

Lemma unified_diff_empty_a b fromfile tofile n :
  Difflib.unified_diff [] b fromfile tofile n = [] <-> b = [].
Proof.
  unfold Difflib.unified_diff, Difflib.unified_diff_lines. split.
  - intros H. destruct b as [|x b]; [reflexivity|].
    rewrite get_grouped_opcodes_empty_a in H by done. discriminate.
  - intros ->. by rewrite get_grouped_opcodes_both_empty.
Qed.

(** ** The loops of the matcher end before their fuel does *)

Lemma j2len_get_prev_upto n j2len j :
  lengths_upto n j2len -> Difflib.j2len_get_prev j2len j <= n.
Proof.
  intros H. destruct j as [|j]; cbn; [lia|].
  destruct (j2len !! j) as [k|] eqn:Hk; cbn; [by eapply H | lia].
Qed.

Lemma scan_row_inside i alo blo bhi j2len js newj2len bst :
  alo <= i ->
  lengths_upto (i - alo) j2len ->
  lengths_upto (i + 1 - alo) newj2len ->
  best_inside alo (i + 1) bst ->
  lengths_upto (i + 1 - alo) (Difflib.scan_row i blo bhi j2len js newj2len bst).1
  /\ best_inside alo (i + 1) (Difflib.scan_row i blo bhi j2len js newj2len bst).2.
Proof.
  intros Hi Hold. revert newj2len bst.
  induction js as [|j js IH]; intros newj2len bst Hnew Hbst; [done|].
  cbn [Difflib.scan_row].
  destruct (j <? blo); [by apply IH|].
  destruct (bhi <=? j); [done|].
  pose proof (j2len_get_prev_upto _ _ j Hold) as Hk.
  apply IH.
  - intros j' k'. rewrite lookup_insert. case_decide.
    + intros [= <-]. lia.
    + apply Hnew.
  - destruct (bst.2 <? _); [|done].
    unfold best_inside. cbn. lia.
Qed.

Lemma scan_fold_inside m alo blo bhi n i j2len bst :
  alo <= i ->
  lengths_upto (i - alo) j2len ->
  best_inside alo i bst ->
  best_inside alo (i + n)
    (fold_left (Difflib.scan_step m blo bhi) (seq i n) (j2len, bst)).2.
Proof.
  revert i j2len bst. induction n as [|n IH]; intros i j2len bst Hi Hlen Hbst.
  - cbn. by rewrite Nat.add_0_r.
  - cbn [seq fold_left]. unfold Difflib.scan_step at 2. cbn [fst snd].
    match goal with |- context [Difflib.scan_row i blo bhi j2len ?js ∅ bst] =>
      pose proof (scan_row_inside i alo blo bhi j2len js ∅ bst Hi Hlen) as Hrow;
      destruct (Difflib.scan_row i blo bhi j2len js ∅ bst) as [nj bst'] end.
    destruct Hrow as [Hnj Hbst'].
    + intros j k. by rewrite lookup_empty.
    + destruct Hbst. split; [done|lia].
    + replace (i + S n) with (S i + n) by lia. apply IH; [lia| |].
      * by replace (S i - alo) with (i + 1 - alo) by lia.
      * by replace (S i) with (i + 1) by lia.
Qed.

Lemma extend_left_inside m junk alo blo hi besti bestj bestsize :
  best_inside alo hi (besti, bestj, bestsize) ->
  best_inside alo hi (Difflib.extend_left m junk alo blo besti bestj bestsize).
Proof.
  revert bestj bestsize. induction besti as [|i IH]; intros bestj bestsize Hb; [done|].
  cbn [Difflib.extend_left]. destruct bestj as [|j]; [done|].
  destruct (_ && _) eqn:Hcond; [|done].
  apply IH. rewrite !andb_true_iff, Nat.ltb_lt in Hcond.
  destruct Hb as [? ?]. unfold best_inside in *. cbn in *. lia.
Qed.

Lemma extend_right_inside m junk ahi bhi besti bestj room bestsize :
  besti + bestsize <= ahi ->
  besti + Difflib.extend_right m junk ahi bhi besti bestj room bestsize <= ahi.
Proof.
  revert bestsize. induction room as [|room IH]; intros bestsize Hb; [done|].
  cbn [Difflib.extend_right]. destruct (_ && _) eqn:Hcond; [|done].
  apply IH. rewrite !andb_true_iff, !Nat.ltb_lt in Hcond. lia.
Qed.

(** The block [find_longest_match] returns lies in [a[alo:ahi]]. *)
Lemma find_longest_match_inside m alo ahi blo bhi :
  alo <= ahi ->
  best_inside alo ahi (Difflib.find_longest_match m alo ahi blo bhi).
Proof.
  intros Hlo. unfold Difflib.find_longest_match.
  pose proof (scan_fold_inside m alo blo bhi (ahi - alo) alo ∅ (alo, blo, 0)) as H.
  replace (alo + (ahi - alo)) with ahi in H by lia.
  destruct (fold_left _ _ _) as [j2len [[bi bj] bs]].
  assert (H1 : best_inside alo ahi (bi, bj, bs)).
  { apply H; [done| |split; cbn; lia]. intros j k. by rewrite lookup_empty. }
  apply (extend_left_inside m false alo blo) in H1.
  destruct (Difflib.extend_left m false alo blo bi bj bs) as [[bi1 bj1] bs1].
  assert (H2 : best_inside alo ahi
            (bi1, bj1, Difflib.extend_right m false ahi bhi bi1 bj1
                         (ahi - (bi1 + bs1)) bs1)).
  { destruct H1 as [? ?]. split; [done|]. by apply extend_right_inside. }
  apply (extend_left_inside m true alo blo) in H2.
  destruct (Difflib.extend_left m true alo blo bi1 bj1 _) as [[bi2 bj2] bs2].
  destruct H2 as [? ?]. split; [done|]. by apply extend_right_inside.
Qed.

(** Every round of the loop lowers the work left, so fuel beyond the work
    left is never used: the loop has emptied its queue when it stops. *)
Lemma match_loop_fuel m fuel extra queue matching_blocks :
  queue_ranges queue ->
  queue_work queue <= fuel ->
  Difflib.match_loop m (fuel + extra) queue matching_blocks
  = Difflib.match_loop m fuel queue matching_blocks.
Proof.
  revert queue matching_blocks.
  induction fuel as [|fuel IH]; intros queue mb Hok Hwork.
  - destruct queue as [|[[[alo ahi] blo] bhi] queue].
    + by destruct extra.
    + unfold queue_work in Hwork. cbn in Hwork. unfold id in Hwork. lia.
  - destruct queue as [|[[[alo ahi] blo] bhi] queue]; [reflexivity|].
    cbn [Nat.add Difflib.match_loop].
    apply Forall_cons in Hok as [Hlo Hok]. cbn in Hlo.
    unfold queue_work in Hwork. cbn [map sum_list fst snd] in Hwork.
    fold (queue_work queue) in Hwork. unfold id in Hwork.
    pose proof (find_longest_match_inside m alo ahi blo bhi Hlo) as Hin.
    destruct (Difflib.find_longest_match m alo ahi blo bhi) as [[i j] k].
    destruct Hin as [Hi Hik]. cbn in Hi, Hik.
    destruct (Nat.eqb_spec k 0) as [->|Hk].
    + apply IH; [done|lia].
    + destruct ((alo <? i) && (blo <? j)) eqn:H1;
        destruct ((i + k <? ahi) && (j + k <? bhi)) eqn:H2;
        rewrite ?andb_true_iff, ?Nat.ltb_lt in H1, H2;
        (apply IH;
         [ repeat (apply Forall_cons; split); cbn [fst snd]; try done; lia
         | unfold queue_work; cbn [map sum_list sum_list_with fst snd];
           fold (queue_work queue); unfold id; lia ]).
Qed.

(** [get_matching_blocks] gives the same blocks with any larger fuel. *)
Lemma get_matching_blocks_fuel m fuel :
  2 * length (Difflib.seq_a m) + 1 <= fuel ->
  Difflib.match_loop m fuel
    [(0, length (Difflib.seq_a m), 0, length (Difflib.seq_b m))] []
  = Difflib.match_loop m (2 * length (Difflib.seq_a m) + 1)
      [(0, length (Difflib.seq_a m), 0, length (Difflib.seq_b m))] [].
Proof.
  intros Hfuel.
  replace fuel with (2 * length (Difflib.seq_a m) + 1
                     + (fuel - (2 * length (Difflib.seq_a m) + 1))) by lia.
  apply match_loop_fuel.
  - repeat constructor. cbn. lia.
  - unfold queue_work. cbn. unfold id. lia.
Qed.

(** ** Unreadable files *)

Lemma unreadable_hash_and_lines fs path :
  fs path = FS.unreadable ->
  FS.value (Engine.fast_hash path) fs = []
  /\ FS.value (Engine.read_lines path) fs = [].
Proof. intros H. by rewrite value_fast_hash, value_read_lines, H. Qed.

(** C2, counterexample: two different files that both exist and cannot be
    read get the same sentinel digest and are reported as unchanged. *)
Lemma two_unreadable_files_pass_as_unchanged :
  Scenario.locked u"/A/f" = FS.unreadable
  /\ Scenario.locked u"/B/f" = FS.unreadable
  /\ u"/A/f" <> u"/B/f"
  /\ FS.value (FS.isfile u"/A/f") Scenario.locked = true
  /\ FS.value (FS.isfile u"/B/f") Scenario.locked = true
  /\ FS.value (Engine.fast_hash u"/A/f") Scenario.locked
     = FS.value (Engine.fast_hash u"/B/f") Scenario.locked
  /\ FS.value (Engine.compare_file u"f" u"/A/f" u"/B/f" 3) Scenario.locked = None.
Proof.
  do 2 (split; [vm_compute; reflexivity|]).
  split; [vm_compute; discriminate|].
  do 3 (split; [vm_compute; reflexivity|]). vm_compute; reflexivity.
Qed.

(** C2, as the code has it, for a number of context lines that is not
    negative: of two files that exist and of which at least one cannot be
    read, the unreadable one has the empty sentinel as digest and the empty
    list as lines.  A readable file never has the sentinel as digest, so the
    digests match only when both files are unreadable, and then there is no
    record.  There is no record exactly when neither file yields a line;
    otherwise the record is a modified one whose diff is taken against the
    empty line list of the unreadable file. *)
Theorem compare_file_unreadable fs rel pa pb (context_lines : Z) :
  (0 <= context_lines)%Z ->
  FS.value (FS.isfile pa) fs = true ->
  FS.value (FS.isfile pb) fs = true ->
  fs pa = FS.unreadable \/ fs pb = FS.unreadable ->
  let n := Z.to_nat context_lines in
  (fs pa = FS.unreadable ->
   FS.value (Engine.fast_hash pa) fs = []
   /\ FS.value (Engine.read_lines pa) fs = [])
  /\ (fs pb = FS.unreadable ->
      FS.value (Engine.fast_hash pb) fs = []
      /\ FS.value (Engine.read_lines pb) fs = [])
  /\ (fs pa <> FS.unreadable -> FS.value (Engine.fast_hash pa) fs <> [])
  /\ (fs pb <> FS.unreadable -> FS.value (Engine.fast_hash pb) fs <> [])
  /\ (FS.value (Engine.fast_hash pa) fs = FS.value (Engine.fast_hash pb) fs
      <-> fs pa = FS.unreadable /\ fs pb = FS.unreadable)
  /\ (fs pa = FS.unreadable -> fs pb = FS.unreadable ->
      FS.value (Engine.compare_file rel pa pb n) fs = None)
  /\ (FS.value (Engine.compare_file rel pa pb n) fs = None
      <-> FS.value (Engine.read_lines pa) fs = []
          /\ FS.value (Engine.read_lines pb) fs = [])
  /\ (forall r, FS.value (Engine.compare_file rel pa pb n) fs = Some r ->
      r = modified_record rel pa pb (file_diff fs rel pa pb n)
      /\ (fs pa = FS.unreadable ->
          file_diff fs rel pa pb n
          = Difflib.unified_diff [] (FS.value (Engine.read_lines pb) fs)
              (u"A/" ++ rel) (u"B/" ++ rel) n)
      /\ (fs pb = FS.unreadable ->
          file_diff fs rel pa pb n
          = Difflib.unified_diff (FS.value (Engine.read_lines pa) fs) []
              (u"A/" ++ rel) (u"B/" ++ rel) n)).
Proof.
  intros _ Ha Hb Hun. cbv zeta.
  generalize (Z.to_nat context_lines). clear context_lines. intros n.
  assert (Hreadable : forall path,
            FS.value (FS.isfile path) fs = true -> fs path <> FS.unreadable ->
            FS.value (Engine.fast_hash path) fs <> []).
  { intros path Hfile Hpath. rewrite value_fast_hash. rewrite value_isfile in Hfile.
    unfold FS.unreadable in Hpath.
    destruct (fs path) as [| |[data|]]; try done. }
  split; [apply unreadable_hash_and_lines|].
  split; [apply unreadable_hash_and_lines|].
  split; [by apply Hreadable|]. split; [by apply Hreadable|].
  clear Hreadable.
  assert (Hhash : FS.value (Engine.fast_hash pa) fs = FS.value (Engine.fast_hash pb) fs
                  <-> fs pa = FS.unreadable /\ fs pb = FS.unreadable).
  { rewrite !value_fast_hash. rewrite !value_isfile in Ha, Hb. unfold FS.unreadable in *.
    destruct (fs pa) as [| |[da|]], (fs pb) as [| |[db|]]; try discriminate.
    - destruct Hun; discriminate.
    - split; [|intros [? _]; discriminate].
      intros H. by apply hexdigest_not_sentinel in H.
    - split; [|intros [_ ?]; discriminate].
      intros H. symmetry in H. by apply hexdigest_not_sentinel in H.
    - by split. }
  assert (Hnone : FS.value (Engine.compare_file rel pa pb n) fs = None
      <-> FS.value (Engine.read_lines pa) fs = []
          /\ FS.value (Engine.read_lines pb) fs = []).
  { rewrite value_compare_file, Ha, Hb. case_bool_decide as Heq.
    - apply Hhash in Heq as [Hpa Hpb].
      split; [intros _|done].
      split; by apply unreadable_hash_and_lines.
    - unfold file_diff. destruct Hun as [Hpa|Hpb].
      + rewrite (proj2 (unreadable_hash_and_lines fs pa Hpa)).
        destruct (Difflib.unified_diff [] _ _ _ _) eqn:Hd.
        * apply unified_diff_empty_a in Hd. done.
        * split; [done|]. intros [_ Hl]. rewrite Hl in Hd.
          by rewrite (proj2 (unified_diff_empty_a [] _ _ _)) in Hd.
      + rewrite (proj2 (unreadable_hash_and_lines fs pb Hpb)).
        destruct (Difflib.unified_diff _ [] _ _ _) eqn:Hd.
        * apply unified_diff_empty_b in Hd. done.
        * split; [done|]. intros [Hl _]. rewrite Hl in Hd.
          by rewrite (proj2 (unified_diff_empty_b [] _ _ _)) in Hd. }
  split; [exact Hhash|]. split; [|split; [exact Hnone|]].
  - intros Hpa Hpb. apply Hnone. split; by apply unreadable_hash_and_lines.
  - intros r Hr. split; [|split].
    + rewrite value_compare_file, Ha, Hb in Hr.
      case_bool_decide; [discriminate|].
      destruct (file_diff fs rel pa pb n); [discriminate|congruence].
    + intros Hpa. unfold file_diff.
      by rewrite (proj2 (unreadable_hash_and_lines fs pa Hpa)).
    + intros Hpb. unfold file_diff.
      by rewrite (proj2 (unreadable_hash_and_lines fs pb Hpb)).
Qed.

(** An unreadable file against a file of one line: the digests differ and
    there is a record. *)
Lemma compare_file_unreadable_witness :
  (0 <= 3)%Z
  /\ Scenario.half_locked u"/A/f" = FS.unreadable
  /\ FS.value (FS.isfile u"/A/f") Scenario.half_locked = true
  /\ FS.value (FS.isfile u"/B/f") Scenario.half_locked = true
  /\ FS.value (Engine.fast_hash u"/A/f") Scenario.half_locked = []
  /\ FS.value (Engine.read_lines u"/A/f") Scenario.half_locked = []
  /\ FS.value (Engine.read_lines u"/B/f") Scenario.half_locked = [u"x" ++ Py.LF]
  /\ FS.value (Engine.fast_hash u"/A/f") Scenario.half_locked
     <> FS.value (Engine.fast_hash u"/B/f") Scenario.half_locked
  /\ FS.value (Engine.compare_file u"f" u"/A/f" u"/B/f" (Z.to_nat 3))
       Scenario.half_locked <> None.
Proof.
  assert (Hn : (0 <= 3)%Z) by lia.
  assert (Hpa : Scenario.half_locked u"/A/f" = FS.unreadable)
    by (vm_compute; reflexivity).
  assert (Ha : FS.value (FS.isfile u"/A/f") Scenario.half_locked = true)
    by (vm_compute; reflexivity).
  assert (Hb : FS.value (FS.isfile u"/B/f") Scenario.half_locked = true)
    by (vm_compute; reflexivity).
  destruct (compare_file_unreadable Scenario.half_locked u"f" u"/A/f" u"/B/f" 3
              Hn Ha Hb (or_introl Hpa))
    as (Hsentinel & _ & _ & _ & Hhash & _ & Hnone & _).
  split; [exact Hn|]. split; [exact Hpa|]. split; [exact Ha|]. split; [exact Hb|].
  split; [exact (proj1 (Hsentinel Hpa))|]. split; [exact (proj2 (Hsentinel Hpa))|].
  split; [vm_compute; reflexivity|].
  split.
  - intros H. apply Hhash in H as [_ H]. vm_compute in H. discriminate.
  - intros H. apply Hnone in H as [_ H]. vm_compute in H. discriminate.
Defined.

(** The record of [include/foo.h] in the example trees. *)
Lemma modified_record_diff_shape_witness :
  exists r,
    FS.value (Engine.compare_file u"include/foo.h"
                u"/A/include/foo.h" u"/B/include/foo.h" 3) Scenario.disk = Some r
    /\ Engine.status r = u"modified"
    /\ take 2 (Engine.diff r) = [u"--- A/include/foo.h"; u"+++ B/include/foo.h"].
Proof.
  assert (H : exists r,
    FS.value (Engine.compare_file u"include/foo.h"
                u"/A/include/foo.h" u"/B/include/foo.h" 3) Scenario.disk = Some r
    /\ Engine.status r = u"modified")
    by (eexists; split; vm_compute; reflexivity).
  destruct H as (r & Hr & Hs). exists r. split; [exact Hr|]. split; [exact Hs|].
  destruct (modified_record_diff_shape _ _ _ _ _ _ Hr Hs) as (rest & Hd & _).
  rewrite Hd. vm_compute. reflexivity.
Defined.

(** ** The counted lines *)

(** C1: the file on side A holds the single line [--x], the file on side B
    is empty.  The diff is the two file header lines, a hunk header and one
    removal line; the removal line reads [---x], and no line is counted as
    removed. *)
Theorem compare_file_misses_dashed_removal :
  exists r,
    FS.value (Engine.compare_file u"f" u"/A/f" u"/B/f" 3) Scenario.dashes = Some r
    /\ FS.value (Engine.read_lines u"/A/f") Scenario.dashes = [u"--x" ++ Py.LF]
    /\ FS.value (Engine.read_lines u"/B/f") Scenario.dashes = []
    /\ Engine.diff r = [u"--- A/f"; u"+++ B/f"; u"@@ -1 +0,0 @@"; u"---x"]
    /\ map fst (Difflib.unified_diff_lines [u"--x" ++ Py.LF] [] u"A/f" u"B/f" 3 Py.LF)
       = [Difflib.FileHeader; Difflib.FileHeader; Difflib.HunkHeader; Difflib.Removal]
    /\ Difflib.count_kind Difflib.Removal
         (Difflib.unified_diff_lines [u"--x" ++ Py.LF] [] u"A/f" u"B/f" 3 Py.LF) = 1
    /\ Engine.lines_removed r = 0.
Proof.
  eexists. split; [vm_compute; reflexivity|].
  do 5 (split; [vm_compute; reflexivity|]). vm_compute; reflexivity.
Qed.

(** Outside such lines the counts are right: when no line of the file on
    side A starts with two dashes, [lines_removed] is the number of removal
    lines of the diff, and when no line of the file on side B starts with two
    plus signs, [lines_added] is the number of addition lines. *)
Lemma count_if_map {A B} (f : B -> bool) (g : A -> bool) (h : A -> B) (l : list A) :
  Forall (fun x => f (h x) = g x) l ->
  Engine.count_if f (map h l) = Engine.count_if g l.
Proof.
  unfold Engine.count_if. induction 1 as [|x l Hx _ IH]; [reflexivity|].
  cbn [map List.filter]. rewrite Hx. destruct (g x); cbn [length]; by rewrite IH.
Qed.

Lemma slice_Forall {A} (P : A -> Prop) (l : list A) i1 i2 :
  Forall P l -> Forall P (Difflib.slice l i1 i2).
Proof. intros H. unfold Difflib.slice. by apply Forall_take, Forall_drop. Qed.

Section counted_lines.

Variables a b : list Py.str.
Hypothesis Ha : Forall (fun l => Py.startswith l u"--" = false) a.
Hypothesis Hb : Forall (fun l => Py.startswith l u"++" = false) b.

Lemma removal_counted_right l :
  Py.startswith l u"--" = false -> counted_right (Difflib.Removal, u"-" ++ l).
Proof.
  intros Hl. split; unfold counted_as_removed, counted_as_added; cbn; [|reflexivity].
  cbn in Hl. rewrite Hl. by destruct l.
Qed.

Lemma addition_counted_right l :
  Py.startswith l u"++" = false -> counted_right (Difflib.Addition, u"+" ++ l).
Proof.
  intros Hl. split; unfold counted_as_removed, counted_as_added; cbn; [reflexivity|].
  cbn in Hl. rewrite Hl. by destruct l.
Qed.

Lemma opcode_lines_counted_right c :
  Forall counted_right (Difflib.opcode_lines a b c).
Proof.
  destruct c as [t i1 i2 j1 j2]. unfold Difflib.opcode_lines.
  assert (Hsa : Forall (fun l => counted_right (Difflib.Removal, u"-" ++ l))
                       (Difflib.slice a i1 i2)).
  { eapply Forall_impl; [exact (slice_Forall _ _ i1 i2 Ha)|].
    apply removal_counted_right. }
  assert (Hsb : Forall (fun l => counted_right (Difflib.Addition, u"+" ++ l))
                       (Difflib.slice b j1 j2)).
  { eapply Forall_impl; [exact (slice_Forall _ _ j1 j2 Hb)|].
    apply addition_counted_right. }
  destruct t; rewrite ?Forall_app, !Forall_fmap; try done.
  apply Forall_true. intros l. by split.
Qed.

Lemma group_lines_counted_right lineterm group :
  Forall counted_right (Difflib.group_lines a b lineterm group).
Proof.
  unfold Difflib.group_lines. destruct (head group), (last group); try constructor.
  - by split.
  - apply Forall_concat, Forall_fmap, Forall_true. apply opcode_lines_counted_right.
Qed.

Lemma unified_diff_lines_counted_right fromfile tofile n lineterm :
  Forall counted_right (Difflib.unified_diff_lines a b fromfile tofile n lineterm).
Proof.
  destruct (unified_diff_lines_shape a b fromfile tofile n lineterm) as [-> | ->].
  - constructor.
  - repeat constructor.
    apply Forall_concat, Forall_fmap, Forall_true. apply group_lines_counted_right.
Qed.

Lemma counts_match_kinds fromfile tofile n :
  Engine.count_if counted_as_removed (Difflib.unified_diff a b fromfile tofile n)
  = Difflib.count_kind Difflib.Removal
      (Difflib.unified_diff_lines a b fromfile tofile n Py.LF)
  /\ Engine.count_if counted_as_added (Difflib.unified_diff a b fromfile tofile n)
     = Difflib.count_kind Difflib.Addition
         (Difflib.unified_diff_lines a b fromfile tofile n Py.LF).
Proof.
  unfold Difflib.unified_diff, Difflib.count_kind.
  pose proof (unified_diff_lines_counted_right fromfile tofile n Py.LF) as H.
  split; apply count_if_map; (eapply Forall_impl; [exact H|]); by intros l [? ?].
Qed.

End counted_lines.

(** X5: in the record of two files, when no line of the file on side A
    starts with two dashes and no line of the file on side B starts with two
    plus signs, the two counts are the numbers of removal and addition lines
    of the diff. *)
Lemma compare_file_counts fs rel pa pb n r :
  FS.value (Engine.compare_file rel pa pb n) fs = Some r ->
  Engine.status r = u"modified" ->
  Forall (fun l => Py.startswith l u"--" = false) (FS.value (Engine.read_lines pa) fs) ->
  Forall (fun l => Py.startswith l u"++" = false) (FS.value (Engine.read_lines pb) fs) ->
  Engine.lines_removed r
  = Difflib.count_kind Difflib.Removal
      (Difflib.unified_diff_lines
         (FS.value (Engine.read_lines pa) fs) (FS.value (Engine.read_lines pb) fs)
         (u"A/" ++ rel) (u"B/" ++ rel) n Py.LF)
  /\ Engine.lines_added r
     = Difflib.count_kind Difflib.Addition
         (Difflib.unified_diff_lines
            (FS.value (Engine.read_lines pa) fs) (FS.value (Engine.read_lines pb) fs)
            (u"A/" ++ rel) (u"B/" ++ rel) n Py.LF).
Proof.
  intros Hr Hs Ha Hb.
  destruct (compare_file_modified_inv _ _ _ _ _ _ Hr Hs) as [_ ->].
  cbn [modified_record Engine.lines_removed Engine.lines_added].
  apply (counts_match_kinds _ _ Ha Hb).
Qed.

(** ** The decoding chain *)

(** C7: the fallback chain is never walked.  On a readable file that holds
    the single byte 0xFF the two UTF-8 stages of the chain fail when they
    are strict, and the chain ends in the single-byte encoding, which reads
    the character U+00FF; [read_lines] passes [errors="replace"] to the
    first stage already, makes one [open], and reads the placeholder U+FFFD.
    So two files that hold different lines in a single-byte encoding, the
    byte 0xE9 against the byte 0xE8, are both read as the same line, and
    [compare_file] gives no record for them although their digests
    differ. *)
Theorem read_lines_never_reaches_the_fallback :
  Scenario.invalid_utf8 u"/A/f" = FS.file [xff]
  /\ Codecs.decode Codecs.Utf8 Codecs.Strict [xff] = None
  /\ Codecs.decode Codecs.Utf8Sig Codecs.Strict [xff] = None
  /\ Codecs.decode Codecs.Latin1 Codecs.Replace [xff] = Some [255%N]
  /\ spec_read_lines Scenario.invalid_utf8 u"/A/f" = [[255%N]]
  /\ FS.value (Engine.read_lines u"/A/f") Scenario.invalid_utf8 = [[Codecs.REPLACEMENT]]
  /\ FS.calls (Engine.read_lines u"/A/f") Scenario.invalid_utf8 = [FS.Open u"/A/f"]
  /\ Scenario.latin1_pair u"/A/f" = FS.file [xe9; x0a]
  /\ Scenario.latin1_pair u"/B/f" = FS.file [xe8; x0a]
  /\ spec_read_lines Scenario.latin1_pair u"/A/f" = [[233%N; Py.NL]]
  /\ spec_read_lines Scenario.latin1_pair u"/B/f" = [[232%N; Py.NL]]
  /\ FS.value (Engine.read_lines u"/A/f") Scenario.latin1_pair
     = [[Codecs.REPLACEMENT; Py.NL]]
  /\ FS.value (Engine.read_lines u"/B/f") Scenario.latin1_pair
     = [[Codecs.REPLACEMENT; Py.NL]]
  /\ FS.value (Engine.fast_hash u"/A/f") Scenario.latin1_pair
     = u"cee0f29fa7a2b1ac5af489d9691e307f"
  /\ FS.value (Engine.fast_hash u"/B/f") Scenario.latin1_pair
     = u"b65f6d5f493bece5c185e2638c595cbf"
  /\ FS.value (Engine.compare_file u"f" u"/A/f" u"/B/f" 3) Scenario.latin1_pair = None.
Proof.
  do 15 (split; [vm_compute; reflexivity|]). vm_compute. reflexivity.
Qed.

(** A byte order mark stays in the text: the first attempt, plain UTF-8,
    reads it as the character U+FEFF. *)
Example read_lines_keeps_byte_order_mark :
  FS.value (Engine.read_lines u"/A/f")
    (FS.snapshot [(u"/A/f", FS.file [xef; xbb; xbf; "a"%byte])])
  = [[0xFEFF%N; 97%N]].
Proof. vm_compute. reflexivity. Qed.

(** What [read_lines] does for every file: it tries utf-8, utf-8-sig and
    latin-1 in this order, each with [errors="replace"].  UTF-8 with
    replacement decodes every byte sequence, so a file that can be opened is
    read by the first attempt, with U+FFFD for what is no UTF-8, and one
    [open] is made; a file that cannot be opened is tried three times and
    yields the empty list.  In both cases [read_lines] returns a list of
    lines. *)
Lemma read_lines_decodes_utf8_with_replacement fs path :
  match fs path with
  | FS.Regular (Some data) =>
      exists text,
        Codecs.utf8_decode Codecs.Replace (map Byte.to_N data) = Some text
        /\ FS.value (Engine.read_lines path) fs
           = Codecs.readlines (Codecs.translate_newlines text)
        /\ FS.calls (Engine.read_lines path) fs = [FS.Open path]
  | _ =>
      FS.value (Engine.read_lines path) fs = []
      /\ FS.calls (Engine.read_lines path) fs
         = [FS.Open path; FS.Open path; FS.Open path]
  end.
Proof.
  pose proof (value_read_lines path fs) as Hv.
  pose proof (calls_read_lines path fs) as Hc.
  destruct (fs path) as [| |[data|]]; try by split.
  destruct (utf8_decode_replace_total (map Byte.to_N data)) as [text Htext].
  exists text. split; [exact Htext|]. split; [|exact Hc].
  rewrite Hv. unfold utf8_text. cbn [Codecs.decode]. by rewrite Htext.
Qed.

(** ** The order of strings and the sort *)

Ltac case_ltb :=
  repeat match goal with
  | |- context [N.ltb ?x ?y] => destruct (N.ltb_spec x y)
  | H : context [N.ltb ?x ?y] |- _ => destruct (N.ltb_spec x y)
  end.

Lemma str_leb_refl s : Py.str_leb s s = true.
Proof. induction s as [|c s IH]; [reflexivity|]. cbn. by rewrite N.ltb_irrefl. Qed.

Lemma str_leb_total s t : Py.str_leb s t = false -> Py.str_leb t s = true.
Proof.
  revert t. induction s as [|c s IH]; intros [|d t]; cbn; try done.
  case_ltb; try done; try lia. apply IH.
Qed.

Lemma str_leb_trans s t v :
  Py.str_leb s t = true -> Py.str_leb t v = true -> Py.str_leb s v = true.
Proof.
  revert t v. induction s as [|c s IH]; intros [|d t] [|e v]; cbn; try done.
  case_ltb; try done; try lia. apply IH.
Qed.

Lemma str_leb_antisym s t :
  Py.str_leb s t = true -> Py.str_leb t s = true -> s = t.
Proof.
  revert t. induction s as [|c s IH]; intros [|d t]; cbn; try done.
  case_ltb; try done; try lia. intros Hst Hts.
  f_equal; [lia | by apply IH].
Qed.

#[local] Instance str_le_trans : Transitive str_le.
Proof. intros s t v. apply str_leb_trans. Qed.

#[local] Instance str_le_antisym : AntiSymm (=) str_le.
Proof. intros s t. apply str_leb_antisym. Qed.

Section sort_with.

Context {A : Type} (leb : A -> A -> bool).
Hypothesis leb_total : forall x y, leb x y = false -> leb y x = true.

Local Abbreviation R := (fun x y : A => leb x y = true).

Lemma insert_sorted_Permutation x l : Py.insert_sorted leb x l ≡ₚ x :: l.
Proof.
  induction l as [|y l IH]; [reflexivity|].
  cbn. destruct (leb x y); [reflexivity|]. rewrite IH. apply Permutation_swap.
Qed.

Lemma sort_with_Permutation l : Py.sort_with leb l ≡ₚ l.
Proof.
  induction l as [|x l IH]; [reflexivity|].
  cbn. by rewrite insert_sorted_Permutation, IH.
Qed.

Lemma insert_sorted_Sorted x l : Sorted R l -> Sorted R (Py.insert_sorted leb x l).
Proof.
  induction 1 as [|y l Hl IH Hhd]; cbn.
  - repeat constructor.
  - destruct (leb x y) eqn:Hxy.
    + constructor; [by constructor|]. by constructor.
    + constructor; [exact IH|].
      destruct l as [|z l]; cbn.
      * constructor. by apply leb_total.
      * destruct (leb x z); constructor; [by apply leb_total|].
        by inversion Hhd.
Qed.

Lemma sort_with_Sorted l : Sorted R (Py.sort_with leb l).
Proof.
  induction l as [|x l IH]; [constructor|]. cbn. by apply insert_sorted_Sorted.
Qed.

End sort_with.

Lemma sorted_Permutation l : Py.sorted l ≡ₚ l.
Proof. apply sort_with_Permutation. Qed.

Lemma sorted_Sorted l : Sorted str_le (Py.sorted l).
Proof. apply sort_with_Sorted, str_leb_total. Qed.

(** The sorted list of a set of strings does not depend on the order in
    which the set is enumerated. *)
Lemma sorted_enumeration l1 l2 : l1 ≡ₚ l2 -> Py.sorted l1 = Py.sorted l2.
Proof.
  intros H. apply (Sorted_unique str_le); try apply sorted_Sorted.
  by rewrite !sorted_Permutation.
Qed.

Lemma sorted_by_Permutation {A} (key : A -> Py.str) l : Py.sorted_by key l ≡ₚ l.
Proof. apply sort_with_Permutation. Qed.

Lemma sorted_by_Sorted {A} (key : A -> Py.str) l :
  Sorted (key_le key) (Py.sorted_by key l).
Proof. apply sort_with_Sorted. intros x y. apply str_leb_total. Qed.

Lemma NoDup_fmap_inj_on {A B} (f : A -> B) (l : list A) x y :
  NoDup (map f l) -> x ∈ l -> y ∈ l -> f x = f y -> x = y.
Proof.
  induction l as [|z l IH]; [by inversion 2|].
  cbn. rewrite NoDup_cons. intros [Hz Hl] Hx Hy Hxy.
  apply elem_of_cons in Hx as [-> | Hx], Hy as [-> | Hy]; try done.
  - destruct Hz. rewrite Hxy. by apply list_elem_of_fmap_2.
  - destruct Hz. rewrite <- Hxy. by apply list_elem_of_fmap_2.
  - by apply IH.
Qed.

(** With keys that are all different, the sort by key gives one list for
    all the orders in which the records arrive. *)
Lemma sorted_by_arrival_order {A} (key : A -> Py.str) l1 l2 :
  NoDup (map key l1) -> l1 ≡ₚ l2 -> Py.sorted_by key l1 = Py.sorted_by key l2.
Proof.
  intros Hnd Hperm.
  assert (Transitive (key_le key)) by (intros x y z; apply str_leb_trans).
  apply (Sorted_unique_strong (key_le key)); try apply sorted_by_Sorted.
  - intros x1 x2 Hx1 Hx2 H12 H21.
    rewrite sorted_by_Permutation in Hx1, Hx2. rewrite <- Hperm in Hx2.
    apply (NoDup_fmap_inj_on key l1); try done.
    by apply str_leb_antisym.
  - by rewrite !sorted_by_Permutation.
Qed.

(** ** The pool and the report *)

Lemma value_run_pool join files_a files_b ea eb ctx fs started order diffs :
  FS.value (Engine.run_pool join files_a files_b ea eb ctx None started order diffs) fs
  = diffs ++ omap (record_of join files_a files_b ea eb ctx fs) order.
Proof.
  revert started diffs. induction order as [|rel order IH]; intros started diffs.
  - cbn [Engine.run_pool omap list_omap]. by rewrite value_ret, app_nil_r.
  - cbn [Engine.run_pool Engine.cancelled]. rewrite value_bind, IH, value_worker.
    cbn [omap list_omap]. fold (record_of join files_a files_b ea eb ctx fs rel).
    destruct (record_of _ _ _ _ _ _ _ rel); [|reflexivity].
    by rewrite <- app_assoc.
Qed.

(** A record [compare_file] returns carries the path it was asked about and
    one of the three statuses. *)
Lemma compare_file_record rel pa pb n fs r :
  FS.value (Engine.compare_file rel pa pb n) fs = Some r ->
  Engine.relative_path r = rel /\ is_status (Engine.status r).
Proof.
  rewrite value_compare_file. unfold is_status.
  destruct (FS.value (FS.isfile pa) fs), (FS.value (FS.isfile pb) fs);
    [| | |discriminate].
  - case_bool_decide; [discriminate|].
    destruct (file_diff fs rel pa pb n); [discriminate|].
    intros [= <-]. cbn. auto.
  - intros [= <-]. cbn. auto.
  - intros [= <-]. cbn. auto.
Qed.

Lemma records_of_plan join files_a files_b ea eb ctx fs order :
  Forall (fun r => is_status (Engine.status r))
         (omap (record_of join files_a files_b ea eb ctx fs) order)
  /\ map Engine.relative_path (omap (record_of join files_a files_b ea eb ctx fs) order)
     `sublist_of` order.
Proof.
  induction order as [|rel order [IH1 IH2]]; [by split|].
  cbn [omap list_omap].
  destruct (record_of _ _ _ _ _ _ _ rel) as [r|] eqn:Hr.
  - apply compare_file_record in Hr as [<- Hs]. split; [by constructor|].
    cbn. by apply sublist_skip.
  - split; [done|]. by apply sublist_cons.
Qed.

Lemma all_paths_Permutation (files_a files_b : gmap Py.str Py.str) :
  Engine.all_paths files_a files_b ≡ₚ elements (dom files_a ∪ dom files_b).
Proof. apply sorted_Permutation. Qed.

Lemma all_paths_NoDup (files_a files_b : gmap Py.str Py.str) :
  NoDup (Engine.all_paths files_a files_b).
Proof. rewrite all_paths_Permutation. apply NoDup_elements. Qed.

Lemma all_paths_length (files_a files_b : gmap Py.str Py.str) :
  length (Engine.all_paths files_a files_b) = size (dom files_a ∪ dom files_b).
Proof. by rewrite all_paths_Permutation. Qed.

(** [_comparison_worker] without the monad. *)
Lemma value_comparison_worker abspath join relpath lower tree_a tree_b engine_a engine_b
    ctx cancel_at schedule fs :
  let ea := abspath engine_a in
  let eb := abspath engine_b in
  let files_a :=
    Engine.collect_source_files abspath join relpath lower tree_a ea
      Engine.DEFAULT_EXTENSIONS in
  let files_b :=
    Engine.collect_source_files abspath join relpath lower tree_b eb
      Engine.DEFAULT_EXTENSIONS in
  let paths := Engine.all_paths files_a files_b in
  FS.value
    (Engine.comparison_worker abspath join relpath lower tree_a tree_b
       engine_a engine_b ctx cancel_at schedule) fs
  = if (length paths =? 0) || bool_decide (is_Some cancel_at) then None
    else Some (Engine.build_report ea eb (length paths)
                 (omap (record_of join files_a files_b ea eb ctx fs) (schedule paths))).
Proof.
  intros ea eb files_a files_b paths. unfold Engine.comparison_worker.
  fold ea eb. fold files_a files_b. fold paths.
  destruct (length paths =? 0); [reflexivity|].
  rewrite value_bind. destruct cancel_at as [k|]; [reflexivity|].
  by rewrite value_run_pool, value_ret.
Qed.

(** C5: two runs over the same trees and the same files give the same
    report, whatever the order in which the pool completes its tasks.  The
    plan is the sorted union of the two key sets, the same list for every
    order in which the union is enumerated, and the records of a report are
    in the order of their relative paths. *)
Theorem report_is_deterministic abspath join relpath lower tree_a tree_b
    engine_a engine_b ctx cancel_at schedule1 schedule2 fs :
  (forall l, schedule1 l ≡ₚ l) ->
  (forall l, schedule2 l ≡ₚ l) ->
  let files_a :=
    Engine.collect_source_files abspath join relpath lower tree_a (abspath engine_a)
      Engine.DEFAULT_EXTENSIONS in
  let files_b :=
    Engine.collect_source_files abspath join relpath lower tree_b (abspath engine_b)
      Engine.DEFAULT_EXTENSIONS in
  FS.value
    (Engine.comparison_worker abspath join relpath lower tree_a tree_b
       engine_a engine_b ctx cancel_at schedule1) fs
  = FS.value
      (Engine.comparison_worker abspath join relpath lower tree_a tree_b
         engine_a engine_b ctx cancel_at schedule2) fs
  /\ Sorted str_le (Engine.all_paths files_a files_b)
  /\ NoDup (Engine.all_paths files_a files_b)
  /\ (forall rel_path,
        rel_path ∈ Engine.all_paths files_a files_b
        <-> rel_path ∈ dom files_a \/ rel_path ∈ dom files_b)
  /\ (forall enumeration,
        enumeration ≡ₚ elements (dom files_a ∪ dom files_b) ->
        Py.sorted enumeration = Engine.all_paths files_a files_b)
  /\ (forall report,
        FS.value
          (Engine.comparison_worker abspath join relpath lower tree_a tree_b
             engine_a engine_b ctx cancel_at schedule1) fs = Some report ->
        Sorted (key_le Engine.relative_path) (Engine.differences report)).
Proof.
  intros Hs1 Hs2 files_a files_b.
  rewrite !value_comparison_worker. fold files_a files_b.
  split; [|split; [apply sorted_Sorted|split; [apply all_paths_NoDup|split; [|split]]]].
  - destruct (_ || _); [reflexivity|].
    f_equal. unfold Engine.build_report.
    set (paths := Engine.all_paths files_a files_b).
    set (f := record_of join files_a files_b (abspath engine_a) (abspath engine_b) ctx fs).
    assert (Heq : Py.sorted_by Engine.relative_path (omap f (schedule1 paths))
                  = Py.sorted_by Engine.relative_path (omap f (schedule2 paths))).
    { apply sorted_by_arrival_order.
      - eapply sublist_NoDup; [|apply (proj2 (records_of_plan _ _ _ _ _ _ _ _))].
        rewrite Hs1. apply all_paths_NoDup.
      - by rewrite Hs1, Hs2. }
    by rewrite Heq.
  - intros rel_path. rewrite all_paths_Permutation, elem_of_elements.
    apply elem_of_union.
  - intros enumeration Henum. by apply sorted_enumeration.
  - intros report. destruct (_ || _); [discriminate|].
    intros [= <-]. cbn [Engine.build_report Engine.differences].
    apply sorted_by_Sorted.
Qed.

(** The example trees, with the tasks completed in the order of the plan and
    in the reverse order. *)
Lemma report_is_deterministic_witness :
  Scenario.run (fun l => l) = Scenario.run (@rev Py.str)
  /\ Engine.all_paths
       (Engine.collect_source_files Posix.abspath Posix.join Posix.relpath Posix.lower
          Scenario.tree_a u"/A" Engine.DEFAULT_EXTENSIONS)
       (Engine.collect_source_files Posix.abspath Posix.join Posix.relpath Posix.lower
          Scenario.tree_b u"/B" Engine.DEFAULT_EXTENSIONS)
     = [u"include/foo.h"; u"src/bar.cpp"; u"src/baz.cpp"].
Proof.
  split; [|vm_compute; reflexivity].
  refine (proj1 (report_is_deterministic
            Posix.abspath Posix.join Posix.relpath Posix.lower
            Scenario.tree_a Scenario.tree_b u"/A" u"/B" 3 None
            (fun l => l) (@rev Py.str) Scenario.disk _ _)).
  - intros l. reflexivity.
  - intros l. symmetry. apply Permutation_rev.
Defined.

Lemma count_if_cons {A} (f : A -> bool) x l :
  Engine.count_if f (x :: l) = (if f x then 1 else 0) + Engine.count_if f l.
Proof. unfold Engine.count_if. cbn. by destruct (f x). Qed.

(** A status counts for exactly one of the three numbers of the summary. *)
Lemma one_status s :
  is_status s ->
  (if Difflib.str_eqb s u"modified" then 1 else 0)
  + (if Difflib.str_eqb s u"added" then 1 else 0)
  + (if Difflib.str_eqb s u"removed" then 1 else 0) = 1.
Proof. intros [-> | [-> | ->]]; vm_compute; reflexivity. Qed.

Lemma count_statuses diffs :
  Forall (fun r => is_status (Engine.status r)) diffs ->
  Engine.count_if (fun d => Difflib.str_eqb (Engine.status d) u"modified") diffs
  + Engine.count_if (fun d => Difflib.str_eqb (Engine.status d) u"added") diffs
  + Engine.count_if (fun d => Difflib.str_eqb (Engine.status d) u"removed") diffs
  = length diffs.
Proof.
  induction 1 as [|d diffs Hd _ IH]; [reflexivity|].
  rewrite !count_if_cons. cbn [length].
  pose proof (one_status _ Hd). lia.
Qed.

(** C6: in every report the numbers of modified, added and removed files
    add up to the number of records, and [total_files_scanned] is the length
    of the plan, which is the number of elements of the union of the two key
    sets. *)
Theorem report_summary_counts abspath join relpath lower tree_a tree_b
    engine_a engine_b ctx cancel_at schedule fs report :
  FS.value
    (Engine.comparison_worker abspath join relpath lower tree_a tree_b
       engine_a engine_b ctx cancel_at schedule) fs = Some report ->
  let files_a :=
    Engine.collect_source_files abspath join relpath lower tree_a (abspath engine_a)
      Engine.DEFAULT_EXTENSIONS in
  let files_b :=
    Engine.collect_source_files abspath join relpath lower tree_b (abspath engine_b)
      Engine.DEFAULT_EXTENSIONS in
  let s := Engine.summary report in
  Engine.files_modified s + Engine.files_added s + Engine.files_removed s
  = length (Engine.differences report)
  /\ Engine.total_files_scanned s = length (Engine.all_paths files_a files_b)
  /\ Engine.total_files_scanned s = size (dom files_a ∪ dom files_b).
Proof.
  intros Hr files_a files_b. rewrite value_comparison_worker in Hr.
  fold files_a files_b in Hr.
  destruct (_ || _); [discriminate|]. injection Hr as <-.
  cbn [Engine.build_report Engine.summary Engine.differences
       Engine.files_modified Engine.files_added Engine.files_removed
       Engine.total_files_scanned].
  split; [|split; [reflexivity|apply all_paths_length]].
  apply count_statuses.
  rewrite sorted_by_Permutation. apply (proj1 (records_of_plan _ _ _ _ _ _ _ _)).
Qed.

(** The report of the example trees: three paths, three records. *)
Lemma report_summary_counts_witness :
  match Scenario.run (fun l => l) with
  | Some report =>
      let s := Engine.summary report in
      Engine.files_modified s + Engine.files_added s + Engine.files_removed s
      = length (Engine.differences report)
      /\ Engine.total_files_scanned s = 3
  | None => False
  end.
Proof.
  destruct (Scenario.run (fun l => l)) as [report|] eqn:Hr.
  - destruct (report_summary_counts _ _ _ _ _ _ _ _ _ _ _ _ _ Hr) as (H1 & _ & H3).
    split; [exact H1|]. rewrite H3. vm_compute. reflexivity.
  - vm_compute in Hr. discriminate.
Defined.

(** ** The scan *)

Section fold_dom.

Context {A : Type} (f : gmap Py.str Py.str -> A -> gmap Py.str Py.str).
Hypothesis f_mono : forall m x, dom m ⊆ dom (f m x).

(** A loop that only adds keys keeps the keys it has. *)
Lemma fold_left_dom_mono l m : dom m ⊆ dom (fold_left f l m).
Proof.
  revert m. induction l as [|x l IH]; intros m; [done|].
  cbn [fold_left]. etrans; [apply (f_mono m x)|apply IH].
Qed.

Lemma fold_left_dom_elem l m x k :
  x ∈ l -> (forall m, k ∈ dom (f m x)) -> k ∈ dom (fold_left f l m).
Proof.
  revert m. induction l as [|y l IH]; intros m Hx Hk; [by inversion Hx|].
  cbn [fold_left]. apply elem_of_cons in Hx as [-> | Hx].
  - by apply fold_left_dom_mono.
  - by apply IH.
Qed.

End fold_dom.

(** C8: a file found by the walk whose name in lower case ends with
    [.build.cs] or [.target.cs] passes the test of [collect_source_files]
    and has its relative path among the keys of the result, whatever the set
    of extensions that was passed: the compound suffixes are the constant
    [COMPOUND_EXTENSIONS], no part of the argument. *)
Theorem collect_source_files_keeps_compound_suffixes
    abspath join relpath lower tree root extensions dirpath dirnames filenames fname :
  (dirpath, dirnames, filenames) ∈ OsPath.walk join (abspath root) tree ->
  fname ∈ filenames ->
  Py.endswith (lower fname) u".build.cs" = true
  \/ Py.endswith (lower fname) u".target.cs" = true ->
  Engine.COMPOUND_EXTENSIONS = [u".build.cs"; u".target.cs"]
  /\ Engine.is_source_file lower extensions fname = true
  /\ relpath (join dirpath fname) (abspath root)
     ∈ dom (Engine.collect_source_files abspath join relpath lower tree root extensions).
Proof.
  intros Hwalk Hfname Hsuffix.
  assert (Htest : Engine.is_source_file lower extensions fname = true).
  { unfold Engine.is_source_file, Engine.COMPOUND_EXTENSIONS. cbn [existsb].
    destruct Hsuffix as [-> | ->]; by rewrite ?orb_true_r. }
  split; [reflexivity|]. split; [exact Htest|].
  unfold Engine.collect_source_files.
  assert (Hinner : forall dp (m : gmap Py.str Py.str) x,
            dom m ⊆ dom (if Engine.is_source_file lower extensions x
                          then <[relpath (join dp x) (abspath root) := join dp x]> m
                          else m)).
  { intros dp m x. destruct (Engine.is_source_file lower extensions x); [|done].
    rewrite dom_insert_L. apply union_subseteq_r. }
  apply fold_left_dom_elem with (x := (dirpath, dirnames, filenames)); [|exact Hwalk|].
  - intros m [[dp dn] fns]. apply fold_left_dom_mono, Hinner.
  - intros m. apply fold_left_dom_elem with (x := fname); [apply Hinner|exact Hfname|].
    intros m'. rewrite Htest, dom_insert_L. by apply elem_of_union_l, elem_of_singleton.
Qed.

(** [Game.Build.cs] is kept by a scan with the empty set of extensions. *)
Lemma collect_source_files_keeps_compound_suffixes_witness :
  Py.endswith (Posix.lower u"Game.Build.cs") u".build.cs" = true
  /\ u"Source/Game.Build.cs"
     ∈ dom (Engine.collect_source_files Posix.abspath Posix.join Posix.relpath Posix.lower
              Scenario.build_tree u"/A" ∅).
Proof.
  split; [vm_compute; reflexivity|].
  refine (proj2 (proj2 (collect_source_files_keeps_compound_suffixes
            Posix.abspath Posix.join Posix.relpath Posix.lower
            Scenario.build_tree u"/A" ∅ u"/A/Source" []
            [u"Game.Build.cs"; u"Game.Target.cs"; u"readme.md"] u"Game.Build.cs" _ _ _))).
  - apply list_elem_of_In. vm_compute. auto.
  - apply list_elem_of_In. vm_compute. auto.
  - left. vm_compute. reflexivity.
Defined.

(** ** The index of the matcher *)

Lemma index_elements_snoc b x :
  Difflib.index_elements (b ++ [x])
  = <[x := default [] (Difflib.index_elements b !! x) ++ [length b]]>
      (Difflib.index_elements b).
Proof.
  unfold Difflib.index_elements.
  rewrite length_app, Nat.add_1_r, seq_S, Nat.add_0_l.
  rewrite zip_with_app by apply length_seq.
  by rewrite fold_left_app.
Qed.

(** The positions listed for an element are the places where it stands in
    [b], in ascending order. *)
Lemma index_elements_spec b elt :
  StronglySorted lt (default [] (Difflib.index_elements b !! elt))
  /\ forall j, j ∈ default [] (Difflib.index_elements b !! elt) <-> b !! j = Some elt.
Proof.
  revert elt. induction b as [|x b IH] using rev_ind; intros elt.
  - split; [constructor|]. intros j. cbn. split; [by inversion 1|done].
  - rewrite index_elements_snoc.
    destruct (IH elt) as [Hsorted Hmem].
    destruct (decide (x = elt)) as [->|Hne].
    + rewrite lookup_insert_eq. simpl. split.
      * apply StronglySorted_app_2; [|done|repeat constructor].
        intros j1 j2 Hj1 Hj2. apply list_elem_of_singleton in Hj2 as ->.
        apply Hmem in Hj1. by apply lookup_lt_Some in Hj1.
      * intros j. rewrite elem_of_app, list_elem_of_singleton, Hmem.
        destruct (decide (j < length b)) as [Hlt|Hge].
        -- rewrite lookup_app_l by done. split; [|by left].
           intros [?| ->]; [done|lia].
        -- rewrite lookup_app_r by lia. split.
           ++ intros [Hj| ->].
              ** apply lookup_lt_Some in Hj. lia.
              ** by rewrite Nat.sub_diag.
           ++ intros Hj. right.
              destruct (j - length b) as [|d] eqn:Hd; [lia|done].
    + rewrite lookup_insert_ne by done. split; [done|].
      intros j. rewrite Hmem.
      destruct (decide (j < length b)) as [Hlt|Hge].
      * by rewrite lookup_app_l.
      * rewrite lookup_app_r by lia. split.
        -- intros Hj. apply lookup_lt_Some in Hj. lia.
        -- destruct (j - length b) as [|d]; cbn; [congruence|done].
Qed.

Lemma set_fold_delete_lookup (m : gmap Py.str (list nat)) (X : gset Py.str) elt js :
  set_fold (fun e m' => delete e m') m X !! elt = Some js -> m !! elt = Some js.
Proof.
  revert elt js.
  apply (set_fold_ind_L (fun m' _ => forall elt js, m' !! elt = Some js -> m !! elt = Some js)).
  - done.
  - intros e X' m' _ IH elt js Hl. apply IH.
    destruct (decide (e = elt)) as [->|Hne].
    + by rewrite lookup_delete_eq in Hl.
    + by rewrite lookup_delete_ne in Hl.
Qed.

(** The index of the matcher lists positions of [b] only: popular elements
    lose their entry, the other entries are those of [index_elements]. *)
Lemma b2j_chain_b a b elt js :
  Difflib.b2j (Difflib.chain_b a b) !! elt = Some js ->
  Difflib.index_elements b !! elt = Some js.
Proof.
  unfold Difflib.chain_b. destruct (200 <=? length b); cbn [Difflib.b2j]; [|done].
  apply set_fold_delete_lookup.
Qed.

Lemma bjunk_chain_b a b : Difflib.bjunk (Difflib.chain_b a b) = ∅.
Proof. unfold Difflib.chain_b. by destruct (200 <=? length b). Qed.

(** ** The blocks of the matcher are matches *)

Section matcher_sound.

Variable m : Difflib.matcher.
Hypothesis Hindex : index_sound m.

Local Abbreviation a := (Difflib.seq_a m).
Local Abbreviation b := (Difflib.seq_b m).

Lemma is_match_empty i j : is_match a b (i, j, 0).
Proof. intros t Ht. cbn in Ht. lia. Qed.

Lemma same_at_true i j :
  Difflib.same_at m i j = true -> exists x, a !! i = Some x /\ b !! j = Some x.
Proof.
  unfold Difflib.same_at, Difflib.str_eqb.
  destruct (a !! i) as [x|], (b !! j) as [y|]; try done.
  intros ->%bool_decide_eq_true. by exists y.
Qed.

Lemma is_match_cons i j k :
  (exists x, a !! i = Some x /\ b !! j = Some x) ->
  is_match a b (S i, S j, k) -> is_match a b (i, j, S k).
Proof.
  intros Hx Hm [|t] Ht; cbn in *.
  - by rewrite !Nat.add_0_r.
  - destruct (Hm t) as (x & ? & ?); [cbn; lia|]. exists x. cbn in *.
    by rewrite <- !Nat.add_succ_comm.
Qed.

Lemma is_match_snoc i j k :
  is_match a b (i, j, k) ->
  (exists x, a !! (i + k) = Some x /\ b !! (j + k) = Some x) ->
  is_match a b (i, j, S k).
Proof.
  intros Hm Hx t Ht. cbn in *.
  destruct (decide (t = k)) as [->|Hne]; [done|]. apply Hm. cbn. lia.
Qed.

Lemma scan_row_sound i elt blo bhi j2len js newj2len bst :
  a !! i = Some elt ->
  (forall j, j ∈ js -> b !! j = Some elt) ->
  ends_match a b i j2len ->
  ends_match a b (S i) newj2len ->
  is_match a b bst ->
  ends_match a b (S i) (Difflib.scan_row i blo bhi j2len js newj2len bst).1
  /\ is_match a b (Difflib.scan_row i blo bhi j2len js newj2len bst).2.
Proof.
  intros Hi Hjs Hold. revert newj2len bst.
  induction js as [|j js IH]; intros newj2len bst Hnew Hbst; [done|].
  cbn [Difflib.scan_row].
  assert (Hjs' : forall j', j' ∈ js -> b !! j' = Some elt).
  { intros j' Hj'. apply Hjs. by right. }
  specialize (IH Hjs').
  destruct (j <? blo); [by apply IH|].
  destruct (bhi <=? j); [done|].
  set (k := Difflib.j2len_get_prev j2len j + 1).
  assert (Hk : k <= S i /\ k <= S j /\ is_match a b (S i - k, S j - k, k)).
  { assert (Hlast : exists x, a !! i = Some x /\ b !! j = Some x).
    { exists elt. split; [done|]. apply Hjs. by left. }
    unfold k. destruct j as [|j']; cbn [Difflib.j2len_get_prev].
    - split; [lia|]. split; [lia|]. intros t Ht. cbn in Ht.
      replace t with 0 by lia. cbn.
      by replace (i - 0 + 0) with i by lia.
    - destruct (j2len !! j') as [k'|] eqn:Hk'; cbn [from_option id].
      + destruct (Hold _ _ Hk') as (H1 & H2 & H3).
        split; [lia|]. split; [lia|].
        replace (k' + 1) with (S k') by lia.
        apply is_match_snoc.
        * exact H3.
        * cbn [Nat.sub]. replace (i - k' + k') with i by lia.
          by replace (S j' - k' + k') with (S j') by lia.
      + split; [lia|]. split; [lia|]. intros t Ht. cbn in Ht.
        replace t with 0 by lia. cbn.
        replace (i - 0 + 0) with i by lia.
        by replace (j' + 0) with j' by lia. }
  apply IH.
  - intros j0 k0. rewrite lookup_insert. case_decide.
    + intros [= <-]. subst j0. exact Hk.
    + apply Hnew.
  - destruct (bst.2 <? k); [|done].
    destruct Hk as (_ & _ & Hk).
    replace (i + 1 - k) with (S i - k) by lia.
    by replace (j + 1 - k) with (S j - k) by lia.
Qed.

Lemma scan_fold_sound blo bhi n i j2len bst :
  ends_match a b i j2len ->
  is_match a b bst ->
  is_match a b (fold_left (Difflib.scan_step m blo bhi) (seq i n) (j2len, bst)).2.
Proof.
  revert i j2len bst. induction n as [|n IH]; intros i j2len bst Hlen Hbst; [done|].
  cbn [seq fold_left]. unfold Difflib.scan_step at 2. cbn [fst snd].
  destruct (a !! i) as [elt|] eqn:Hi.
  - assert (Hjs : forall j, j ∈ default [] (Difflib.b2j m !! elt) -> b !! j = Some elt).
    { intros j Hj. destruct (Difflib.b2j m !! elt) as [js|] eqn:Hjs; [|by inversion Hj].
      by eapply Hindex. }
    assert (Hnew : ends_match a b (S i) ∅).
    { intros j k. by rewrite lookup_empty. }
    pose proof (scan_row_sound i elt blo bhi j2len
                  (default [] (Difflib.b2j m !! elt)) ∅ bst Hi Hjs Hlen Hnew Hbst)
      as [Hnj Hbst'].
    destruct (Difflib.scan_row _ _ _ _ _ _ _) as [nj bst'].
    by apply IH.
  - cbn [Difflib.scan_row]. apply IH; [|done].
    intros j k. by rewrite lookup_empty.
Qed.

Lemma extend_left_sound junk alo blo besti bestj bestsize :
  is_match a b (besti, bestj, bestsize) ->
  is_match a b (Difflib.extend_left m junk alo blo besti bestj bestsize).
Proof.
  revert bestj bestsize. induction besti as [|i IH]; intros bestj bestsize Hb; [done|].
  cbn [Difflib.extend_left]. destruct bestj as [|j]; [done|].
  destruct (_ && _) eqn:Hcond; [|done].
  apply IH. rewrite !andb_true_iff in Hcond. destruct Hcond as [_ Hsame].
  apply is_match_cons; [|done]. by apply same_at_true.
Qed.

Lemma extend_right_sound junk ahi bhi besti bestj room bestsize :
  is_match a b (besti, bestj, bestsize) ->
  is_match a b (besti, bestj,
                Difflib.extend_right m junk ahi bhi besti bestj room bestsize).
Proof.
  revert bestsize. induction room as [|room IH]; intros bestsize Hb; [done|].
  cbn [Difflib.extend_right]. destruct (_ && _) eqn:Hcond; [|done].
  apply IH. rewrite !andb_true_iff in Hcond. destruct Hcond as [_ Hsame].
  apply is_match_snoc; [done|]. by apply same_at_true.
Qed.

(** What [find_longest_match] returns is a match. *)
Lemma find_longest_match_sound alo ahi blo bhi :
  is_match a b (Difflib.find_longest_match m alo ahi blo bhi).
Proof.
  unfold Difflib.find_longest_match.
  pose proof (scan_fold_sound blo bhi (ahi - alo) alo ∅ (alo, blo, 0)) as H.
  destruct (fold_left _ _ _) as [j2len [[bi bj] bs]].
  assert (H1 : is_match a b (bi, bj, bs)).
  { apply H; [|apply is_match_empty]. intros j k. by rewrite lookup_empty. }
  apply (extend_left_sound false alo blo) in H1.
  destruct (Difflib.extend_left m false alo blo bi bj bs) as [[bi1 bj1] bs1].
  apply (extend_right_sound false ahi bhi _ _ (ahi - (bi1 + bs1))) in H1.
  apply (extend_left_sound true alo blo) in H1.
  destruct (Difflib.extend_left m true alo blo bi1 bj1 _) as [[bi2 bj2] bs2].
  by apply extend_right_sound.
Qed.

Lemma match_loop_sound fuel queue matching_blocks :
  Forall (real_block a b) matching_blocks ->
  Forall (real_block a b) (Difflib.match_loop m fuel queue matching_blocks).
Proof.
  revert queue matching_blocks.
  induction fuel as [|fuel IH]; intros queue mb Hmb; [done|].
  destruct queue as [|[[[alo ahi] blo] bhi] queue]; [done|].
  cbn [Difflib.match_loop].
  pose proof (find_longest_match_sound alo ahi blo bhi) as Hflm.
  destruct (Difflib.find_longest_match m alo ahi blo bhi) as [[i j] k].
  destruct (Nat.eqb_spec k 0) as [->|Hk]; [by apply IH|].
  apply IH. apply Forall_app. split; [done|]. by repeat constructor.
Qed.

Lemma collapse_sound blocks cur out :
  Forall (real_block a b) blocks ->
  is_match a b cur -> Forall (real_block a b) out ->
  is_match a b (fold_left Difflib.collapse_step blocks (cur, out)).1
  /\ Forall (real_block a b) (fold_left Difflib.collapse_step blocks (cur, out)).2.
Proof.
  intros Hblocks. revert cur out.
  induction Hblocks as [|[[i2 j2] k2] blocks [Hm2 Hk2] _ IH];
    intros [[i1 j1] k1] out Hcur Hout; [done|].
  cbn [fold_left Difflib.collapse_step].
  destruct (_ && _) eqn:Hadj.
  - apply IH; [|done].
    rewrite andb_true_iff, !Nat.eqb_eq in Hadj. destruct Hadj as [<- <-].
    intros t Ht. cbn in *.
    destruct (decide (t < k1)) as [Hlt|Hge]; [by apply Hcur|].
    destruct (Hm2 (t - k1)) as (x & Hx1 & Hx2); [cbn; lia|].
    exists x. cbn in *.
    replace (i1 + t) with (i1 + k1 + (t - k1)) by lia.
    by replace (j1 + t) with (j1 + k1 + (t - k1)) by lia.
  - apply IH; [done|].
    destruct (Nat.eqb_spec k1 0); [done|].
    apply Forall_app. split; [done|]. by repeat constructor.
Qed.

(** [get_matching_blocks] returns matches of one element or more, and after
    them the dummy block [(len(a), len(b), 0)]. *)
Lemma get_matching_blocks_sound :
  exists non_adjacent,
    Difflib.get_matching_blocks m = non_adjacent ++ [(length a, length b, 0)]
    /\ Forall (real_block a b) non_adjacent.
Proof.
  unfold Difflib.get_matching_blocks.
  set (blocks := Py.sort_with Difflib.best_leb _).
  assert (Hblocks : Forall (real_block a b) blocks).
  { unfold blocks. rewrite sort_with_Permutation. by apply match_loop_sound. }
  pose proof (collapse_sound blocks (0, 0, 0) [] Hblocks (is_match_empty 0 0)
                (Forall_nil_2 _)) as [Hcur Hout].
  destruct (fold_left Difflib.collapse_step blocks _) as [[[i1 j1] k1] out].
  cbn [fst snd] in Hcur, Hout.
  eexists. split; [reflexivity|].
  destruct (Nat.eqb_spec k1 0); [done|].
  apply Forall_app. split; [done|]. by repeat constructor.
Qed.

End matcher_sound.


(** ** An empty diff *)

Lemma index_sound_chain_b a b : index_sound (Difflib.chain_b a b).
Proof.
  intros elt js j Hjs Hj. rewrite seq_b_chain_b.
  apply b2j_chain_b in Hjs.
  apply (proj2 (index_elements_spec b elt)). by rewrite Hjs.
Qed.

Lemma group_fold_out n codes group out :
  (fold_left (Difflib.group_step n) codes (group, out)).2 = [] ->
  out = [] /\ (fold_left (Difflib.group_step n) codes (group, out)).1 = group ++ codes.
Proof.
  revert group out. induction codes as [|c codes IH]; intros group out Hout.
  - split; [done|]. by rewrite app_nil_r.
  - cbn [fold_left] in *.
    destruct (Difflib.group_step n (group, out) c) as [g1 o1] eqn:Hstep.
    apply IH in Hout as [-> Hg]. rewrite Hg.
    unfold Difflib.group_step in Hstep. destruct c as [t i1 i2 j1 j2].
    destruct (Difflib.is_equal t && (n + n <? i2 - i1)); injection Hstep as <- Ho.
    + by destruct out.
    + subst out. by rewrite <- app_assoc.
Qed.

(** The opcodes behind an empty list of groups: none, or a single one with
    the tag [equal]. *)
Lemma get_grouped_opcodes_nil m n :
  Difflib.get_grouped_opcodes m n = [] ->
  Difflib.get_opcodes m = []
  \/ exists i1 i2 j1 j2, Difflib.get_opcodes m = [Difflib.Op Difflib.Equal i1 i2 j1 j2].
Proof.
  unfold Difflib.get_grouped_opcodes.
  destruct (Difflib.get_opcodes m) as [|c1 codes] eqn:Hcodes; [by left|].
  intros H. right.
  set (codes1 := c1 :: codes) in H.
  set (codes2 := match codes1 !! 0 with
                 | Some (Difflib.Op Difflib.Equal i1 i2 j1 j2) =>
                     <[0 := Difflib.Op Difflib.Equal (i1 `max` (i2 - n)) i2
                             (j1 `max` (j2 - n)) j2]> codes1
                 | _ => codes1
                 end) in H.
  set (codes3 := match codes2 !! (length codes2 - 1) with
                 | Some (Difflib.Op Difflib.Equal i1 i2 j1 j2) =>
                     <[length codes2 - 1 :=
                         Difflib.Op Difflib.Equal i1 (i2 `min` (i1 + n))
                           j1 (j2 `min` (j1 + n))]> codes2
                 | _ => codes2
                 end) in H.
  assert (Hlen : length codes3 = S (length codes)).
  { unfold codes3, codes2, codes1.
    repeat (case_match; rewrite ?length_insert); reflexivity. }
  destruct (fold_left (Difflib.group_step n) codes3 ([], [])) as [group out] eqn:Hfold.
  assert (Hout : out = []).
  { destruct group as [|[[] ? ? ? ?] [|? ?]]; try done; by destruct out. }
  subst out.
  pose proof (group_fold_out n codes3 [] []) as Hg.
  rewrite Hfold in Hg. destruct (Hg eq_refl) as [_ Hgroup].
  cbn [fst app] in Hgroup.
  destruct group as [|[[] i1' i2' j1' j2'] [|? ?]]; try done.
  - rewrite <- Hgroup in Hlen. done.
  - rewrite <- Hgroup in Hlen. cbn in Hlen.
    destruct codes as [|c2 codes']; [|done].
    unfold codes3, codes2, codes1 in Hgroup.
    destruct c1 as [[] i1 i2 j1 j2]; try done.
    by exists i1, i2, j1, j2.
Qed.

Lemma opcode_step_length st blk :
  length st.2 <= length (Difflib.opcode_step st blk).2.
Proof.
  destruct st as [[i j] answer], blk as [[ai bj] size]. cbn.
  repeat case_match; rewrite ?length_app; cbn; lia.
Qed.

Lemma opcode_fold_length blocks st :
  length st.2 <= length (fold_left Difflib.opcode_step blocks st).2.
Proof.
  revert st. induction blocks as [|blk blocks IH]; intros st; [done|].
  cbn [fold_left]. etrans; [apply opcode_step_length|apply IH].
Qed.

Lemma opcode_step_real a b st blk :
  real_block a b blk ->
  S (length st.2) <= length (Difflib.opcode_step st blk).2.
Proof.
  destruct st as [[i j] answer], blk as [[ai bj] size]. intros [_ Hsize].
  cbn in *. destruct (Nat.eqb_spec size 0); [done|].
  repeat case_match; rewrite ?length_app; cbn; lia.
Qed.

(** When the opcodes are none, or a single [equal], the two sequences are
    the same. *)
Lemma get_opcodes_equal_only m :
  index_sound m ->
  Difflib.get_opcodes m = []
  \/ (exists i1 i2 j1 j2,
        Difflib.get_opcodes m = [Difflib.Op Difflib.Equal i1 i2 j1 j2]) ->
  Difflib.seq_a m = Difflib.seq_b m.
Proof.
  intros Hindex Hcodes.
  destruct (get_matching_blocks_sound m Hindex) as (na & Hblocks & Hreal).
  unfold Difflib.get_opcodes in Hcodes. rewrite Hblocks in Hcodes. clear Hindex.
  remember (Difflib.seq_a m) as a eqn:Ea. remember (Difflib.seq_b m) as b eqn:Eb.
  clear Ea Eb Hblocks.
  assert (Hshort : length (fold_left Difflib.opcode_step
                             (na ++ [(length a, length b, 0)]) (0, 0, [])).2 <= 1).
  { destruct Hcodes as [-> | (? & ? & ? & ? & ->)]; cbn; lia. }
  destruct na as [|[[ai bj] size] [|blk2 na]].
  - (* no block: both sequences are empty *)
    destruct a, b; cbn in Hcodes; [done|..];
      destruct Hcodes as [?|(? & ? & ? & ? & ?)]; discriminate.
  - (* one block: it covers both sequences *)
    apply Forall_cons in Hreal as [[Hm Hsize] _]. cbn in Hsize.
    cbn [app fold_left Difflib.opcode_step] in Hcodes.
    destruct (Nat.eqb_spec size 0); [done|].
    assert (Hlook : forall t, t < size -> a !! (ai + t) = b !! (bj + t)
                                         /\ ai + t < length a /\ bj + t < length b).
    { intros t Ht. destruct (Hm t Ht) as (x & Ha & Hb). cbn in Ha, Hb.
      rewrite Ha, Hb. split; [done|].
      split; by eapply lookup_lt_Some. }
    destruct (Nat.ltb_spec 0 ai), (Nat.ltb_spec 0 bj);
      cbn [andb] in Hcodes;
      destruct (Nat.ltb_spec (ai + size) (length a)),
               (Nat.ltb_spec (bj + size) (length b));
      cbn [andb Nat.eqb app fst snd] in Hcodes;
      try (destruct Hcodes as [?|(? & ? & ? & ? & ?)]; done).
    assert (ai = 0) as -> by lia. assert (bj = 0) as -> by lia.
    assert (Hla : length a = size).
    { destruct (Hlook (size - 1)) as (_ & ? & _); lia. }
    assert (Hlb : length b = size).
    { destruct (Hlook (size - 1)) as (_ & _ & ?); lia. }
    apply list_eq. intros t. destruct (decide (t < size)) as [Hlt|Hge].
    + by destruct (Hlook t Hlt) as [? _].
    + rewrite !lookup_ge_None_2 by lia. done.
  - (* two blocks or more give two opcodes or more *)
    apply Forall_cons in Hreal as [Hr1 Hreal].
    apply Forall_cons in Hreal as [Hr2 _].
    cbn [app fold_left] in Hshort.
    pose proof (opcode_step_real a b (0, 0, []) _ Hr1) as H1.
    pose proof (opcode_step_real a b
                  (Difflib.opcode_step (0, 0, []) (ai, bj, size)) _ Hr2) as H2.
    pose proof (opcode_fold_length (na ++ [(length a, length b, 0)])
                  (Difflib.opcode_step
                     (Difflib.opcode_step (0, 0, []) (ai, bj, size)) blk2)) as H3.
    cbn [snd length] in H1. lia.
Qed.

(** The diff of two sequences is empty only when they are the same. *)
Lemma unified_diff_nil_same a b fromfile tofile n :
  Difflib.unified_diff a b fromfile tofile n = [] -> a = b.
Proof.
  unfold Difflib.unified_diff, Difflib.unified_diff_lines. intros H.
  destruct (Difflib.get_grouped_opcodes (Difflib.chain_b a b) n) eqn:Hg; [|done].
  apply get_grouped_opcodes_nil in Hg.
  apply get_opcodes_equal_only in Hg; [|apply index_sound_chain_b].
  by rewrite seq_a_chain_b, seq_b_chain_b in Hg.
Qed.

(** ** The diff of a sequence with itself *)

Lemma index_exact_chain_b a b : index_exact (Difflib.chain_b a b).
Proof.
  intros elt js Hjs. rewrite seq_b_chain_b.
  apply b2j_chain_b in Hjs.
  pose proof (index_elements_spec b elt) as H. by rewrite Hjs in H.
Qed.

Section same_sequence.

Variable m : Difflib.matcher.
Hypothesis Hsame : Difflib.seq_a m = Difflib.seq_b m.
Hypothesis Hexact : index_exact m.
Hypothesis Hjunk : Difflib.bjunk m = ∅.

Local Abbreviation a := (Difflib.seq_a m).
Local Abbreviation n := (length (Difflib.seq_a m)).

Lemma run_before_indexed x js j :
  Difflib.b2j m !! x = Some js -> a !! j = Some x ->
  run_before m (S j) = S (run_before m j).
Proof.
  intros Hjs Hj. cbn [run_before]. unfold indexed_at. rewrite Hj.
  by rewrite bool_decide_eq_true_2.
Qed.

Lemma j2len_get_prev_in_runs r j2len j :
  lengths_in_runs m r j2len ->
  Difflib.j2len_get_prev j2len j <= run_before m r
  /\ Difflib.j2len_get_prev j2len j <= run_before m j.
Proof.
  intros H. destruct j as [|j]; cbn [Difflib.j2len_get_prev]; [split; lia|].
  destruct (j2len !! j) as [v|] eqn:Hv; cbn; [by apply H|split; lia].
Qed.

(** One row of the scan.  Before the cell on the diagonal, no cell holds a
    length above the best one; the cell on the diagonal may raise the best
    length, and no cell after it does. *)
Lemma scan_row_diagonal r x j2len js newj2len bst :
  a !! r = Some x ->
  is_Some (Difflib.b2j m !! x) ->
  lengths_in_runs m r j2len ->
  Difflib.j2len_get_prev j2len r = run_before m r ->
  StronglySorted lt js ->
  (forall j, j ∈ js -> a !! j = Some x) ->
  on_diagonal bst ->
  lengths_in_runs m (S r) newj2len ->
  (r ∈ js /\ best_covers_runs m r bst)
  \/ ((forall j, j ∈ js -> r < j)
      /\ newj2len !! r = Some (run_before m (S r))
      /\ best_covers_runs m (S r) bst) ->
  lengths_in_runs m (S r) (Difflib.scan_row r 0 n j2len js newj2len bst).1
  /\ (Difflib.scan_row r 0 n j2len js newj2len bst).1 !! r = Some (run_before m (S r))
  /\ best_covers_runs m (S r) (Difflib.scan_row r 0 n j2len js newj2len bst).2
  /\ on_diagonal (Difflib.scan_row r 0 n j2len js newj2len bst).2.
Proof.
  intros Hr [js0 Hjs0] Hold Hprev. revert newj2len bst.
  induction js as [|j js IH]; intros newj2len bst Hsorted Hmem Hdiag Hnew Hphase.
  - cbn [Difflib.scan_row fst snd].
    destruct Hphase as [[Hin _]|(_ & Hnewr & Hbest)]; [by inversion Hin|done].
  - cbn [Difflib.scan_row].
    assert (Hj : a !! j = Some x) by (apply Hmem; left).
    pose proof (lookup_lt_Some _ _ _ Hj) as Hjn.
    replace (n <=? j) with false by (symmetry; apply Nat.leb_gt; lia).
    change (j <? 0) with false. cbv iota.
    apply StronglySorted_inv in Hsorted as [Hsorted Hlt].
    rewrite Forall_forall in Hlt.
    pose proof (j2len_get_prev_in_runs r j2len j Hold) as [Hk1 Hk2].
    pose proof (run_before_indexed x js0 j Hjs0 Hj) as Hrunj.
    pose proof (run_before_indexed x js0 r Hjs0 Hr) as Hrunr.
    set (k := Difflib.j2len_get_prev j2len j + 1) in *.
    assert (Hnew' : lengths_in_runs m (S r) (<[j := k]> newj2len)).
    { intros j' v. rewrite lookup_insert. case_decide as Hjj.
      - intros [= <-]. subst j'. unfold k. lia.
      - apply Hnew. }
    assert (Hmem' : forall j', j' ∈ js -> a !! j' = Some x).
    { intros j' Hj'. apply Hmem. by right. }
    destruct Hphase as [[Hin Hbest]|(Hafter & Hnewr & Hbest)].
    + apply elem_of_cons in Hin as [<-|Hin].
      * (* the cell on the diagonal *)
        assert (Hk : k = run_before m (S r)) by (unfold k; lia).
        apply IH; try done.
        -- destruct (bst.2 <? k); [|done]. unfold on_diagonal. cbn. done.
        -- right. split; [by apply Hlt|]. split.
           ++ by rewrite lookup_insert_eq, Hk.
           ++ intros j' Hj'. destruct (Nat.ltb_spec bst.2 k); cbn [snd].
              ** destruct (decide (j' = S r)) as [->|]; [lia|].
                 etrans; [apply Hbest; lia|lia].
              ** destruct (decide (j' = S r)) as [->|]; [lia|].
                 apply Hbest; lia.
      * (* a cell before the diagonal *)
        pose proof (Hlt _ Hin) as Hjr.
        assert (Hle : k <= bst.2).
        { etrans; [|apply (Hbest (S j)); lia]. unfold k. lia. }
        replace (bst.2 <? k) with false by (symmetry; apply Nat.ltb_ge; lia).
        apply IH; try done. by left.
    + (* a cell after the diagonal *)
      assert (Hjr : r < j) by (apply Hafter; left).
      assert (Hle : k <= bst.2).
      { etrans; [|apply (Hbest (S r)); lia]. unfold k. lia. }
      replace (bst.2 <? k) with false by (symmetry; apply Nat.ltb_ge; lia).
      apply IH; try done. right. split; [|split; [|done]].
      * intros j' Hj'. apply Hafter. by right.
      * rewrite lookup_insert_ne by lia. done.
Qed.

(** The rows of the scan: the best match stays on the diagonal. *)
Lemma scan_fold_diagonal cnt r j2len bst :
  r + cnt <= n ->
  lengths_in_runs m r j2len ->
  Difflib.j2len_get_prev j2len r = run_before m r ->
  best_covers_runs m r bst ->
  on_diagonal bst ->
  on_diagonal (fold_left (Difflib.scan_step m 0 n) (seq r cnt) (j2len, bst)).2.
Proof.
  revert r j2len bst.
  induction cnt as [|cnt IH]; intros r j2len bst Hr Hold Hprev Hbest Hdiag; [done|].
  cbn [seq fold_left]. unfold Difflib.scan_step at 2. cbn [fst snd].
  destruct (lookup_lt_is_Some_2 a r) as [x Hx]; [lia|]. rewrite Hx.
  destruct (Difflib.b2j m !! x) as [js|] eqn:Hjs; cbn [default from_option id].
  - destruct (Hexact x js Hjs) as [Hsorted Hmem].
    assert (Hmem' : forall j, j ∈ js -> a !! j = Some x).
    { intros j Hj. rewrite Hsame. by apply Hmem. }
    assert (Hempty : lengths_in_runs m (S r) ∅).
    { intros j v. by rewrite lookup_empty. }
    assert (Hin : r ∈ js) by (apply Hmem; by rewrite <- Hsame).
    destruct (scan_row_diagonal r x j2len js ∅ bst Hx (mk_is_Some _ _ Hjs) Hold Hprev
                Hsorted Hmem' Hdiag Hempty (or_introl (conj Hin Hbest)))
      as (Hnew & Hnewr & Hbest' & Hdiag').
    destruct (Difflib.scan_row r 0 n j2len js ∅ bst) as [newj2len bst'].
    apply IH; try done; [lia|]. cbn [Difflib.j2len_get_prev].
    cbn [fst] in Hnewr. by rewrite Hnewr.
  - cbn [Difflib.scan_row].
    assert (Hrun : run_before m (S r) = 0).
    { cbn [run_before]. unfold indexed_at. rewrite Hx, Hjs.
      rewrite bool_decide_eq_false_2; [done|]. by intros [? ?]. }
    apply IH; [lia| | |..].
    + intros j v. by rewrite lookup_empty.
    + cbn [Difflib.j2len_get_prev]. by rewrite lookup_empty.
    + intros j Hj. destruct (decide (j = S r)) as [->|]; [lia|]. apply Hbest. lia.
    + done.
Qed.

Lemma same_at_diagonal i : i < n -> Difflib.same_at m i i = true.
Proof.
  intros Hi. unfold Difflib.same_at. rewrite <- Hsame.
  destruct (lookup_lt_is_Some_2 a i Hi) as [x ->].
  unfold Difflib.str_eqb. by apply bool_decide_eq_true_2.
Qed.

Lemma isbjunk_at_false j : Difflib.isbjunk_at m j = false.
Proof.
  unfold Difflib.isbjunk_at. destruct (Difflib.seq_b m !! j); [|done].
  rewrite Hjunk. by apply bool_decide_eq_false_2.
Qed.

Lemma extend_left_diagonal i k :
  i <= n -> Difflib.extend_left m false 0 0 i i k = (0, 0, i + k).
Proof.
  revert k. induction i as [|i IH]; intros k Hi; [done|].
  cbn [Difflib.extend_left]. rewrite isbjunk_at_false, same_at_diagonal by lia.
  cbn. rewrite IH by lia. f_equal. lia.
Qed.

Lemma extend_right_diagonal junk room k :
  k <= n -> n - k <= room ->
  Difflib.extend_right m junk n n 0 0 room k = if junk then k else n.
Proof.
  revert k. induction room as [|room IH]; intros k Hk Hroom.
  - cbn. destruct junk; [done|lia].
  - cbn [Difflib.extend_right]. rewrite isbjunk_at_false. cbn [Nat.add].
    destruct (Nat.ltb_spec k n); cbn [andb].
    + destruct junk; cbn [eqb andb]; [done|].
      rewrite same_at_diagonal by done. apply IH; lia.
    + destruct junk; [done|lia].
Qed.

(** The longest match of a sequence with itself is the whole sequence. *)
Lemma find_longest_match_same :
  Difflib.find_longest_match m 0 n 0 n = (0, 0, n).
Proof.
  unfold Difflib.find_longest_match. rewrite Nat.sub_0_r.
  assert (Hdiag : on_diagonal
            (fold_left (Difflib.scan_step m 0 n) (seq 0 n) (∅, (0, 0, 0))).2).
  { apply scan_fold_diagonal; [done| |done| |done].
    - intros j k. by rewrite lookup_empty.
    - intros j Hj. by replace j with 0 by lia. }
  assert (Hin : best_inside 0 (0 + n)
            (fold_left (Difflib.scan_step m 0 n) (seq 0 n) (∅, (0, 0, 0))).2).
  { apply scan_fold_inside; [done| |done].
    intros j k. by rewrite lookup_empty. }
  destruct (fold_left _ _ _) as [j2len [[bi bj] bs]].
  destruct Hin as [_ Hin]. unfold on_diagonal in Hdiag. cbn in Hin, Hdiag.
  subst bj.
  rewrite extend_left_diagonal by lia.
  rewrite (extend_right_diagonal false) by lia.
  cbn [Difflib.extend_left].
  by rewrite (extend_right_diagonal true) by lia.
Qed.

Lemma get_opcodes_same :
  Difflib.get_opcodes m
  = if n =? 0 then [] else [Difflib.Op Difflib.Equal 0 n 0 n].
Proof.
  unfold Difflib.get_opcodes, Difflib.get_matching_blocks.
  rewrite <- Hsame.
  replace (2 * n + 1) with (S (2 * n)) by lia.
  cbn [Difflib.match_loop]. rewrite find_longest_match_same.
  generalize (length (Difflib.seq_a m)). intros len.
  destruct len as [|len].
  - destruct (2 * 0); reflexivity.
  - cbn [Nat.eqb Nat.add]. rewrite !Nat.ltb_irrefl. cbn [andb app].
    replace (Difflib.match_loop m (2 * S len) [] [(0, 0, S len)])
      with [(0, 0, S len)] by (by destruct (2 * S len)).
    cbn -[Nat.ltb]. rewrite !Nat.ltb_irrefl. done.
Qed.

Lemma get_grouped_opcodes_same ctx : Difflib.get_grouped_opcodes m ctx = [].
Proof.
  unfold Difflib.get_grouped_opcodes. rewrite get_opcodes_same.
  destruct (Nat.eqb_spec n 0) as [Hn|Hn].
  - cbn [lookup list_lookup length Nat.sub insert list_insert].
    cbn [fold_left Difflib.group_step Difflib.is_equal andb app].
    destruct (Nat.ltb_spec (ctx + ctx)
                (1 `min` (0 `max` (1 - ctx) + ctx) - 0 `max` (1 - ctx))); [lia|done].
  - cbn [lookup list_lookup length Nat.sub insert list_insert].
    cbn [fold_left Difflib.group_step Difflib.is_equal andb app].
    destruct (Nat.ltb_spec (ctx + ctx)
                (n `min` (0 `max` (n - ctx) + ctx) - 0 `max` (n - ctx))); [lia|done].
Qed.

End same_sequence.

(** The diff of a sequence with itself is empty. *)
Lemma unified_diff_same a fromfile tofile n :
  Difflib.unified_diff a a fromfile tofile n = [].
Proof.
  unfold Difflib.unified_diff, Difflib.unified_diff_lines.
  rewrite get_grouped_opcodes_same; [done| | |].
  - by rewrite seq_a_chain_b, seq_b_chain_b.
  - apply index_exact_chain_b.
  - apply bjunk_chain_b.
Qed.

(** ** When two files give a record *)

(** The diff of two sequences is empty exactly when they are the same. *)
Lemma unified_diff_nil_iff a b fromfile tofile n :
  Difflib.unified_diff a b fromfile tofile n = [] <-> a = b.
Proof.
  split; [apply unified_diff_nil_same|].
  intros ->. apply unified_diff_same.
Qed.

(** X1: for two files that exist and a number of context lines that is not
    negative, [compare_file] returns no record exactly when the digests
    agree or the two files have the same list of lines.  Files whose lists
    of lines differ and whose digests differ always give a record, for every
    such number of context lines. *)
Theorem compare_file_silent_iff fs rel pa pb (n : Z) :
  (0 <= n)%Z ->
  FS.value (FS.isfile pa) fs = true ->
  FS.value (FS.isfile pb) fs = true ->
  FS.value (Engine.compare_file rel pa pb (Z.to_nat n)) fs = None
  <-> FS.value (Engine.fast_hash pa) fs = FS.value (Engine.fast_hash pb) fs
      \/ FS.value (Engine.read_lines pa) fs = FS.value (Engine.read_lines pb) fs.
Proof.
  intros _ Ha Hb. generalize (Z.to_nat n). clear n. intros n.
  rewrite value_compare_file, Ha, Hb.
  case_bool_decide as Hhash; [by split; [left|]|].
  unfold file_diff.
  destruct (Difflib.unified_diff _ _ _ _ _) as [|l diff] eqn:Hdiff.
  - apply unified_diff_nil_iff in Hdiff. split; [by right|done].
  - split; [done|]. intros [?|Hlines]; [done|].
    apply (unified_diff_nil_iff _ _ (u"A/" ++ rel) (u"B/" ++ rel) n) in Hlines.
    congruence.
Qed.

(** Two files that differ in their line ends only: the digests differ, the
    lines are the same, and there is no record. *)
Lemma compare_file_silent_iff_witness :
  (0 <= 3)%Z
  /\ FS.value (FS.isfile u"/A/f") Scenario.line_ends = true
  /\ FS.value (FS.isfile u"/B/f") Scenario.line_ends = true
  /\ (FS.value (Engine.compare_file u"f" u"/A/f" u"/B/f" (Z.to_nat 3))
        Scenario.line_ends = None
      <-> FS.value (Engine.fast_hash u"/A/f") Scenario.line_ends
          = FS.value (Engine.fast_hash u"/B/f") Scenario.line_ends
          \/ FS.value (Engine.read_lines u"/A/f") Scenario.line_ends
             = FS.value (Engine.read_lines u"/B/f") Scenario.line_ends).
Proof.
  split; [lia|]. split; [vm_compute; reflexivity|]. split; [vm_compute; reflexivity|].
  apply (compare_file_silent_iff Scenario.line_ends u"f" u"/A/f" u"/B/f" 3);
    [lia|vm_compute; reflexivity|vm_compute; reflexivity].
Defined.

(** X2: with a number of context lines that is not negative, two readable
    files whose decoded texts are the same once every line end is translated
    give no record, whatever their bytes: a file saved with other line ends
    is not reported as modified. *)
Theorem compare_file_ignores_line_ends fs rel pa pb (n : Z) data_a data_b :
  (0 <= n)%Z ->
  fs pa = FS.file data_a ->
  fs pb = FS.file data_b ->
  Codecs.translate_newlines (utf8_text data_a)
  = Codecs.translate_newlines (utf8_text data_b) ->
  FS.value (FS.isfile pa) fs = true
  /\ FS.value (FS.isfile pb) fs = true
  /\ FS.value (Engine.compare_file rel pa pb (Z.to_nat n)) fs = None.
Proof.
  intros _ Ha Hb Htext. generalize (Z.to_nat n). clear n. intros n.
  assert (Hea : FS.value (FS.isfile pa) fs = true) by (by rewrite value_isfile, Ha).
  assert (Heb : FS.value (FS.isfile pb) fs = true) by (by rewrite value_isfile, Hb).
  split; [done|]. split; [done|].
  rewrite value_compare_file, Hea, Heb.
  case_bool_decide; [done|].
  unfold file_diff. rewrite !value_read_lines, Ha, Hb. unfold FS.file.
  rewrite Htext. by rewrite unified_diff_same.
Qed.

Lemma compare_file_ignores_line_ends_witness :
  (0 <= 0)%Z
  /\ Scenario.line_ends u"/A/f" = FS.file (Scenario.text ("a" ++ Scenario.crlf))
  /\ Scenario.line_ends u"/B/f" = FS.file (Scenario.text ("a" ++ Scenario.nl))
  /\ FS.value (FS.isfile u"/A/f") Scenario.line_ends = true
  /\ FS.value (FS.isfile u"/B/f") Scenario.line_ends = true
  /\ FS.value (Engine.compare_file u"f" u"/A/f" u"/B/f" (Z.to_nat 0))
       Scenario.line_ends = None.
Proof.
  split; [lia|]. split; [vm_compute; reflexivity|]. split; [vm_compute; reflexivity|].
  apply (compare_file_ignores_line_ends Scenario.line_ends u"f" u"/A/f" u"/B/f" 0
           (Scenario.text ("a" ++ Scenario.crlf)) (Scenario.text ("a" ++ Scenario.nl)));
    [lia|vm_compute; reflexivity|vm_compute; reflexivity|vm_compute; reflexivity].
Defined.

(** ** Where the lines of a diff come from *)

Lemma is_match_shift a b i j k d :
  is_match a b (i, j, k) -> d <= k -> is_match a b (i + d, j + d, k - d).
Proof.
  intros Hm Hd t Ht. cbn in *. destruct (Hm (d + t)) as (x & Ha & Hb); [cbn; lia|].
  exists x. cbn in *. by rewrite <- !Nat.add_assoc.
Qed.

Lemma is_match_prefix a b i j k k' :
  is_match a b (i, j, k) -> k' <= k -> is_match a b (i, j, k').
Proof. intros Hm Hk t Ht. cbn in *. apply Hm. cbn. lia. Qed.

Lemma opcode_step_equal_ok a b st blk :
  is_match a b blk ->
  Forall (equal_ok a b) st.2 -> Forall (equal_ok a b) (Difflib.opcode_step st blk).2.
Proof.
  destruct st as [[i j] answer], blk as [[ai bj] size]. intros Hm Hans.
  cbn [Difflib.opcode_step snd] in *.
  assert (Hfirst : Forall (equal_ok a b)
            (if (i <? ai) && (j <? bj) then answer ++ [Difflib.Op Difflib.Replace i ai j bj]
             else if i <? ai then answer ++ [Difflib.Op Difflib.Delete i ai j bj]
             else if j <? bj then answer ++ [Difflib.Op Difflib.Insert i ai j bj]
             else answer)).
  { repeat case_match; try done;
      (apply Forall_app_2; [done|]); apply Forall_singleton; by intros ?. }
  destruct (size =? 0); [done|].
  apply Forall_app_2; [done|]. apply Forall_singleton.
  intros _. exists size. by cbn.
Qed.

Lemma opcode_fold_equal_ok a b blocks st :
  Forall (is_match a b) blocks ->
  Forall (equal_ok a b) st.2 ->
  Forall (equal_ok a b) (fold_left Difflib.opcode_step blocks st).2.
Proof.
  intros Hblocks. revert st. induction Hblocks as [|blk blocks Hblk _ IH]; intros st Hst.
  - done.
  - cbn [fold_left]. apply IH. by apply opcode_step_equal_ok.
Qed.

Lemma get_opcodes_equal_ok m :
  index_sound m ->
  Forall (equal_ok (Difflib.seq_a m) (Difflib.seq_b m)) (Difflib.get_opcodes m).
Proof.
  intros Hindex. unfold Difflib.get_opcodes.
  destruct (get_matching_blocks_sound m Hindex) as (na & -> & Hreal).
  apply opcode_fold_equal_ok; [|constructor].
  apply Forall_app. split.
  - eapply Forall_impl; [exact Hreal|]. by intros blk [? _].
  - constructor; [|constructor]. intros t Ht. cbn in Ht. lia.
Qed.

Lemma group_step_equal_ok a b n st c :
  equal_ok a b c ->
  Forall (equal_ok a b) st.1 -> Forall (Forall (equal_ok a b)) st.2 ->
  Forall (equal_ok a b) (Difflib.group_step n st c).1
  /\ Forall (Forall (equal_ok a b)) (Difflib.group_step n st c).2.
Proof.
  destruct st as [group out], c as [t i1 i2 j1 j2]. intros Hc Hgroup Hout.
  cbn [Difflib.group_step fst snd] in *.
  destruct (Difflib.is_equal t && (n + n <? i2 - i1)) eqn:Hcond.
  - apply andb_true_iff in Hcond as [Ht _]. destruct t; try done.
    destruct (Hc eq_refl) as (k & Hi & Hj & Hm). cbn in Hi, Hj, Hm. subst i2 j2.
    cbn [fst snd]. split.
    + constructor; [|constructor]. intros _. exists (k `min` n). cbn.
      split; [lia|]. split; [lia|].
      replace (i1 `max` (i1 + k - n)) with (i1 + (k - k `min` n)) by lia.
      replace (j1 `max` (j1 + k - n)) with (j1 + (k - k `min` n)) by lia.
      replace (k `min` n) with (k - (k - k `min` n)) at 3 by lia.
      apply is_match_shift; [done|lia].
    + apply Forall_app. split; [done|]. constructor; [|constructor].
      apply Forall_app. split; [done|]. constructor; [|constructor].
      intros _. exists (k `min` n). cbn.
      split; [lia|]. split; [lia|]. eapply is_match_prefix; [done|lia].
  - cbn [fst snd]. split; [|done]. apply Forall_app. split; [done|].
    by constructor.
Qed.

Lemma group_fold_equal_ok a b n codes st :
  Forall (equal_ok a b) codes ->
  Forall (equal_ok a b) st.1 -> Forall (Forall (equal_ok a b)) st.2 ->
  Forall (equal_ok a b) (fold_left (Difflib.group_step n) codes st).1
  /\ Forall (Forall (equal_ok a b)) (fold_left (Difflib.group_step n) codes st).2.
Proof.
  intros Hcodes. revert st. induction Hcodes as [|c codes Hc _ IH]; intros st Hg Ho.
  - done.
  - cbn [fold_left].
    destruct (group_step_equal_ok a b n st c Hc Hg Ho) as [? ?]. by apply IH.
Qed.

(** The opcodes of every group span matches where their tag is [equal]. *)
Lemma get_grouped_opcodes_equal_ok m n :
  index_sound m ->
  Forall (Forall (equal_ok (Difflib.seq_a m) (Difflib.seq_b m)))
         (Difflib.get_grouped_opcodes m n).
Proof.
  intros Hindex. pose proof (get_opcodes_equal_ok m Hindex) as Hcodes.
  unfold Difflib.get_grouped_opcodes.
  destruct (Difflib.get_opcodes m) as [|c1 codes] eqn:Hops.
  { destruct n as [|[|n]]; cbn; constructor. }
  set (a := Difflib.seq_a m) in *. set (b := Difflib.seq_b m) in *.
  set (codes1 := c1 :: codes) in *.
  assert (Hcodes2 : Forall (equal_ok a b)
            match codes1 !! 0 with
            | Some (Difflib.Op Difflib.Equal i1 i2 j1 j2) =>
                <[0 := Difflib.Op Difflib.Equal (i1 `max` (i2 - n)) i2
                        (j1 `max` (j2 - n)) j2]> codes1
            | _ => codes1
            end).
  { destruct (codes1 !! 0) as [[[] i1 i2 j1 j2]|] eqn:Hl; try done.
    apply Forall_insert; [done|].
    eapply Forall_lookup_1 in Hl; [|exact Hcodes].
    destruct (Hl eq_refl) as (k & Hi & Hj & Hm). cbn in Hi, Hj, Hm. subst i2 j2.
    intros _. exists (k `min` n). cbn.
    split; [lia|]. split; [lia|].
    replace (i1 `max` (i1 + k - n)) with (i1 + (k - k `min` n)) by lia.
    replace (j1 `max` (j1 + k - n)) with (j1 + (k - k `min` n)) by lia.
    replace (k `min` n) with (k - (k - k `min` n)) at 3 by lia.
    apply is_match_shift; [done|lia]. }
  match type of Hcodes2 with Forall _ ?c => set (codes2 := c) in * end.
  assert (Hcodes3 : Forall (equal_ok a b)
            match codes2 !! (length codes2 - 1) with
            | Some (Difflib.Op Difflib.Equal i1 i2 j1 j2) =>
                <[length codes2 - 1 :=
                    Difflib.Op Difflib.Equal i1 (i2 `min` (i1 + n))
                      j1 (j2 `min` (j1 + n))]> codes2
            | _ => codes2
            end).
  { destruct (codes2 !! (length codes2 - 1)) as [[[] i1 i2 j1 j2]|] eqn:Hl; try done.
    apply Forall_insert; [done|].
    eapply Forall_lookup_1 in Hl; [|exact Hcodes2].
    destruct (Hl eq_refl) as (k & Hi & Hj & Hm). cbn in Hi, Hj, Hm. subst i2 j2.
    intros _. exists (k `min` n). cbn.
    split; [lia|]. split; [lia|]. eapply is_match_prefix; [done|lia]. }
  match type of Hcodes3 with Forall _ ?c => set (codes3 := c) in * end.
  destruct (group_fold_equal_ok a b n codes3 ([], []) Hcodes3) as [Hg Ho];
    [constructor|constructor|].
  destruct (fold_left (Difflib.group_step n) codes3 ([], [])) as [group out].
  cbn [fst snd] in Hg, Ho.
  destruct group as [|[[] ? ? ? ?] [|? ?]]; try done;
    (apply Forall_app_2; [done|]); by apply Forall_singleton.
Qed.

Lemma slice_elem_of {A} (l : list A) i1 i2 x : x ∈ Difflib.slice l i1 i2 -> x ∈ l.
Proof.
  unfold Difflib.slice. intros H.
  apply elem_of_take in H as (t & Ht & _). rewrite lookup_drop in Ht.
  by eapply list_elem_of_lookup_2.
Qed.

Lemma slice_is_match a b i1 j1 k x :
  is_match a b (i1, j1, k) -> x ∈ Difflib.slice a i1 (i1 + k) -> x ∈ b.
Proof.
  unfold Difflib.slice. intros Hm Hx.
  apply list_elem_of_lookup in Hx as [t Ht].
  apply lookup_take_Some in Ht as [Ht Hlt].
  rewrite lookup_drop in Ht.
  destruct (Hm t) as (y & Ha & Hb); [cbn; lia|]. cbn in Ha, Hb.
  rewrite Ha in Ht. injection Ht as ->.
  by eapply list_elem_of_lookup_2.
Qed.

Lemma opcode_lines_from a b c :
  equal_ok a b c -> Forall (line_from a b) (Difflib.opcode_lines a b c).
Proof.
  destruct c as [t i1 i2 j1 j2]. intros Hc. unfold Difflib.opcode_lines.
  assert (Hra : Forall (line_from a b)
            (map (fun l => (Difflib.Removal, u"-" ++ l)) (Difflib.slice a i1 i2))).
  { apply Forall_fmap, Forall_forall. intros x Hx. exists x.
    split; [by eapply slice_elem_of|done]. }
  assert (Hrb : Forall (line_from a b)
            (map (fun l => (Difflib.Addition, u"+" ++ l)) (Difflib.slice b j1 j2))).
  { apply Forall_fmap, Forall_forall. intros x Hx. exists x.
    split; [by eapply slice_elem_of|done]. }
  destruct t; rewrite ?Forall_app; try done.
  destruct (Hc eq_refl) as (k & Hi & Hj & Hm). cbn in Hi, Hj, Hm. subst i2 j2.
  apply Forall_fmap, Forall_forall. intros x Hx. exists x.
  split; [by eapply slice_elem_of|]. split; [by eapply slice_is_match|done].
Qed.

Lemma group_lines_from a b lineterm group :
  Forall (equal_ok a b) group ->
  Forall (line_from a b) (Difflib.group_lines a b lineterm group).
Proof.
  intros Hgroup. unfold Difflib.group_lines.
  destruct (head group), (last group); try constructor.
  - apply startswith_app.
  - apply Forall_concat, Forall_fmap.
    eapply Forall_impl; [exact Hgroup|]. apply opcode_lines_from.
Qed.

(** In the diff of two sequences every removal line is a line of the first
    sequence after a dash, every addition line a line of the second after a
    plus sign, and every context line a line of both after a space; the
    other lines are the two file header lines and the hunk headers. *)
Lemma unified_diff_lines_from a b fromfile tofile n lineterm :
  Forall (line_from a b) (Difflib.unified_diff_lines a b fromfile tofile n lineterm).
Proof.
  destruct (unified_diff_lines_shape a b fromfile tofile n lineterm) as [-> | ->];
    [constructor|].
  constructor; [left; apply startswith_app|].
  constructor; [right; apply startswith_app|].
  apply Forall_concat, Forall_fmap.
  pose proof (get_grouped_opcodes_equal_ok (Difflib.chain_b a b) n
                (index_sound_chain_b a b)) as H.
  rewrite seq_a_chain_b, seq_b_chain_b in H.
  eapply Forall_impl; [exact H|]. intros group. apply group_lines_from.
Qed.

(** X3: with a number of context lines that is not negative, the lines of
    the diff [compare_file] computes for two files come from the files:
    every removal line is a line of the file on side A after a dash, every
    addition line a line of the file on side B after a plus sign, and every
    context line a line of both files after a space; the other lines are the
    two file header lines and the hunk headers. *)
Theorem compare_file_diff_lines_from fs rel pa pb (n : Z) :
  (0 <= n)%Z ->
  Forall (line_from (FS.value (Engine.read_lines pa) fs)
                    (FS.value (Engine.read_lines pb) fs))
         (Difflib.unified_diff_lines
            (FS.value (Engine.read_lines pa) fs) (FS.value (Engine.read_lines pb) fs)
            (u"A/" ++ rel) (u"B/" ++ rel) (Z.to_nat n) Py.LF).
Proof.
  intros _. generalize (Z.to_nat n). clear n. intros n.
  set (a := FS.value (Engine.read_lines pa) fs).
  set (b := FS.value (Engine.read_lines pb) fs).
  destruct (unified_diff_lines_shape a b (u"A/" ++ rel) (u"B/" ++ rel) n Py.LF)
    as [-> | ->]; [constructor|].
  constructor; [left; apply startswith_app|].
  constructor; [right; apply startswith_app|].
  apply Forall_concat, Forall_fmap.
  pose proof (get_grouped_opcodes_equal_ok (Difflib.chain_b a b) n
                (index_sound_chain_b a b)) as H.
  rewrite seq_a_chain_b, seq_b_chain_b in H.
  eapply Forall_impl; [exact H|]. intros group. apply group_lines_from.
Qed.

(** The diff of [include/foo.h] in the example trees, with three context
    lines. *)
Lemma compare_file_diff_lines_from_witness :
  (0 <= 3)%Z
  /\ Forall (line_from (FS.value (Engine.read_lines u"/A/include/foo.h") Scenario.disk)
                       (FS.value (Engine.read_lines u"/B/include/foo.h") Scenario.disk))
       (Difflib.unified_diff_lines
          (FS.value (Engine.read_lines u"/A/include/foo.h") Scenario.disk)
          (FS.value (Engine.read_lines u"/B/include/foo.h") Scenario.disk)
          (u"A/" ++ u"include/foo.h") (u"B/" ++ u"include/foo.h") (Z.to_nat 3) Py.LF).
Proof.
  split; [lia|].
  apply (compare_file_diff_lines_from Scenario.disk u"include/foo.h"
           u"/A/include/foo.h" u"/B/include/foo.h" 3).
  lia.
Defined.

(** ** The counts never exceed the lines of the diff *)

Lemma startswith_true s p :
  Py.startswith s p = true <-> exists rest, s = p ++ rest.
Proof.
  revert s. induction p as [|c p IH]; intros s.
  - split; [by exists s|by destruct s].
  - destruct s as [|d s]; cbn [Py.startswith].
    + split; [done|]. by intros [rest ?].
    + rewrite andb_true_iff, IH. unfold Py.char_eqb. rewrite N.eqb_eq. split.
      * intros [-> [rest ->]]. by exists rest.
      * intros [rest [= -> ->]]. split; [done|by exists rest].
Qed.

(** A line that is counted as removed is a removal line, and a line that is
    counted as added is an addition line. *)
Lemma line_from_counted a b l :
  line_from a b l ->
  (counted_as_removed l.2 = true -> Difflib.kind_eqb l.1 Difflib.Removal = true)
  /\ (counted_as_added l.2 = true -> Difflib.kind_eqb l.1 Difflib.Addition = true).
Proof.
  destruct l as [k s]. unfold line_from, counted_as_removed, counted_as_added.
  cbn [fst snd]. destruct k.
  - intros [H|H]; apply startswith_true in H as [rest ->]; by split.
  - intros H. apply startswith_true in H as [rest ->]. by split.
  - intros (x & _ & _ & ->). by split.
  - intros (x & _ & ->). by split.
  - intros (x & _ & ->). by split.
Qed.

Lemma count_if_map_le {A B} (f : B -> bool) (g : A -> bool) (h : A -> B) (l : list A) :
  Forall (fun x => f (h x) = true -> g x = true) l ->
  Engine.count_if f (map h l) <= Engine.count_if g l.
Proof.
  unfold Engine.count_if. induction 1 as [|x l Hx _ IH]; [done|].
  cbn [map List.filter]. destruct (f (h x)).
  - rewrite Hx by done. cbn [length]. lia.
  - destruct (g x); cbn [length]; lia.
Qed.

(** X4: in a record with status modified, [lines_removed] is at most the
    number of removal lines of the diff and [lines_added] at most the number
    of addition lines, whatever the files hold: a header line or a context
    line is never counted. *)
Theorem compare_file_counts_at_most fs rel pa pb n r :
  FS.value (Engine.compare_file rel pa pb n) fs = Some r ->
  Engine.status r = u"modified" ->
  Engine.lines_removed r
  <= Difflib.count_kind Difflib.Removal
       (Difflib.unified_diff_lines
          (FS.value (Engine.read_lines pa) fs) (FS.value (Engine.read_lines pb) fs)
          (u"A/" ++ rel) (u"B/" ++ rel) n Py.LF)
  /\ Engine.lines_added r
     <= Difflib.count_kind Difflib.Addition
          (Difflib.unified_diff_lines
             (FS.value (Engine.read_lines pa) fs) (FS.value (Engine.read_lines pb) fs)
             (u"A/" ++ rel) (u"B/" ++ rel) n Py.LF).
Proof.
  intros Hr Hs.
  destruct (compare_file_modified_inv _ _ _ _ _ _ Hr Hs) as [_ ->].
  cbn [modified_record Engine.lines_removed Engine.lines_added].
  unfold file_diff, Difflib.unified_diff, Difflib.count_kind.
  pose proof (unified_diff_lines_from
                (FS.value (Engine.read_lines pa) fs) (FS.value (Engine.read_lines pb) fs)
                (u"A/" ++ rel) (u"B/" ++ rel) n Py.LF) as H.
  split; apply count_if_map_le; (eapply Forall_impl; [exact H|]);
    intros l Hl; by destruct (line_from_counted _ _ l Hl).
Qed.

(** The file whose only line starts with two dashes: no line is counted as
    removed, and the diff has one removal line. *)
Lemma compare_file_counts_at_most_witness :
  exists r,
    FS.value (Engine.compare_file u"f" u"/A/f" u"/B/f" 3) Scenario.dashes = Some r
    /\ Engine.status r = u"modified"
    /\ Engine.lines_removed r
       <= Difflib.count_kind Difflib.Removal
            (Difflib.unified_diff_lines
               (FS.value (Engine.read_lines u"/A/f") Scenario.dashes)
               (FS.value (Engine.read_lines u"/B/f") Scenario.dashes)
               (u"A/" ++ u"f") (u"B/" ++ u"f") 3 Py.LF)
    /\ Engine.lines_added r
       <= Difflib.count_kind Difflib.Addition
            (Difflib.unified_diff_lines
               (FS.value (Engine.read_lines u"/A/f") Scenario.dashes)
               (FS.value (Engine.read_lines u"/B/f") Scenario.dashes)
               (u"A/" ++ u"f") (u"B/" ++ u"f") 3 Py.LF).
Proof.
  assert (H : exists r,
    FS.value (Engine.compare_file u"f" u"/A/f" u"/B/f" 3) Scenario.dashes = Some r
    /\ Engine.status r = u"modified")
    by (eexists; split; vm_compute; reflexivity).
  destruct H as (r & Hr & Hs). exists r. split; [exact Hr|]. split; [exact Hs|].
  exact (compare_file_counts_at_most _ _ _ _ _ _ Hr Hs).
Defined.

(** The record of [include/foo.h] in the example trees: no line of the two
    files starts with two dashes or two plus signs. *)
Lemma compare_file_counts_witness :
  exists r,
    FS.value (Engine.compare_file u"include/foo.h"
                u"/A/include/foo.h" u"/B/include/foo.h" 3) Scenario.disk = Some r
    /\ Engine.status r = u"modified"
    /\ Forall (fun l => Py.startswith l u"--" = false)
              (FS.value (Engine.read_lines u"/A/include/foo.h") Scenario.disk)
    /\ Forall (fun l => Py.startswith l u"++" = false)
              (FS.value (Engine.read_lines u"/B/include/foo.h") Scenario.disk)
    /\ Engine.lines_removed r = 0
    /\ Engine.lines_added r = 1.
Proof.
  assert (H : exists r,
    FS.value (Engine.compare_file u"include/foo.h"
                u"/A/include/foo.h" u"/B/include/foo.h" 3) Scenario.disk = Some r
    /\ Engine.status r = u"modified")
    by (eexists; split; vm_compute; reflexivity).
  destruct H as (r & Hr & Hs). exists r. split; [exact Hr|]. split; [exact Hs|].
  assert (Ha : Forall (fun l => Py.startswith l u"--" = false)
                 (FS.value (Engine.read_lines u"/A/include/foo.h") Scenario.disk))
    by (vm_compute; repeat constructor).
  assert (Hb : Forall (fun l => Py.startswith l u"++" = false)
                 (FS.value (Engine.read_lines u"/B/include/foo.h") Scenario.disk))
    by (vm_compute; repeat constructor).
  split; [exact Ha|]. split; [exact Hb|].
  destruct (compare_file_counts _ _ _ _ _ _ Hr Hs Ha Hb) as [-> ->].
  split; vm_compute; reflexivity.
Defined.

(** ** The digest of a file *)






(** ** The lines of a file *)

Lemma readlines_nil s : Codecs.readlines s = [] -> s = [].
Proof.
  destruct s as [|c s]; [done|]. cbn [Codecs.readlines].
  destruct (c =? Py.NL)%N; [done|]. by destruct (Codecs.readlines s).
Qed.

Lemma endswith_cons c l :
  l <> [] -> Py.endswith (c :: l) Py.LF = Py.endswith l Py.LF.
Proof.
  intros Hl. induction l as [|x l _] using rev_ind; [done|].
  by rewrite app_comm_cons, !endswith_snoc.
Qed.

(** The lines put together again are the text. *)
Lemma readlines_concat s : concat (Codecs.readlines s) = s.
Proof.
  induction s as [|c s IH]; [done|]. cbn [Codecs.readlines].
  destruct (c =? Py.NL)%N.
  - cbn. by rewrite IH.
  - destruct (Codecs.readlines s) as [|l ls] eqn:Hls.
    + apply readlines_nil in Hls as ->. done.
    + cbn in *. by rewrite IH.
Qed.

(** No line is empty, a line feed ends the line it is in, and every line
    but the last ends in a line feed. *)
Lemma readlines_lines s :
  Forall (fun l => l <> [] /\ Py.NL ∉ removelast l) (Codecs.readlines s)
  /\ Forall (fun l => Py.endswith l Py.LF = true) (removelast (Codecs.readlines s)).
Proof.
  induction s as [|c s [IH1 IH2]]; [by split; constructor|].
  cbn [Codecs.readlines]. destruct (N.eqb_spec c Py.NL) as [->|Hc].
  - split.
    + constructor; [|done]. split; [done|]. cbn. by inversion 1.
    + destruct (Codecs.readlines s) as [|l ls]; [constructor|].
      cbn [removelast] in *. by constructor.
  - destruct (Codecs.readlines s) as [|l ls]; [|destruct ls as [|l' ls]].
    + split; [|constructor]. constructor; [|done]. split; [done|]. cbn. by inversion 1.
    + apply Forall_singleton in IH1 as [Hl Hnl]. split; [|constructor].
      apply Forall_singleton. split; [done|].
      destruct l as [|d l]; [done|]. cbn [removelast] in *.
      destruct l as [|d' l]; apply not_elem_of_cons; split; try done; congruence.
    + apply Forall_cons in IH1 as [[Hl Hnl] IH1].
      cbn [removelast] in IH2. apply Forall_cons in IH2 as [Hend IH2]. split.
      * constructor; [|done]. split; [done|].
        destruct l as [|d l]; [done|]. cbn [removelast] in *.
        destruct l as [|d' l]; apply not_elem_of_cons; split; try done; congruence.
      * cbn [removelast]. constructor; [|done]. by rewrite endswith_cons.
Qed.

Lemma translate_newlines_no_cr_upto n s :
  length s <= n -> Py.CR ∉ Codecs.translate_newlines s.
Proof.
  revert s. induction n as [|n IH]; intros s Hn.
  - destruct s; [|cbn in Hn; lia]. cbn. by inversion 1.
  - destruct s as [|c s]; [cbn; by inversion 1|].
    cbn [Codecs.translate_newlines]. cbn [length] in Hn.
    destruct (N.eqb_spec c Py.CR) as [->|Hc].
    + apply not_elem_of_cons. split; [done|].
      destruct s as [|d s]; [by inversion 1|].
      cbn [length] in Hn. destruct (d =? Py.NL)%N; apply IH; cbn [length]; lia.
    + apply not_elem_of_cons. split; [congruence|]. apply IH. lia.
Qed.

Lemma elem_of_concat_2 {A} (x : A) l ls : x ∈ l -> l ∈ ls -> x ∈ concat ls.
Proof.
  intros Hx. induction 1 as [l ls|l l' ls _ IH]; cbn [concat]; apply elem_of_app; auto.
Qed.

(** Universal newlines leave no carriage return in the text. *)
Lemma translate_newlines_no_cr s : Py.CR ∉ Codecs.translate_newlines s.
Proof. by apply (translate_newlines_no_cr_upto (length s)). Qed.

(** X7: the lines [read_lines] returns for a readable file, put together
    again, are the decoded text with every line end translated to a line
    feed.  No line is empty, no line holds a carriage return, a line feed
    stands only at the end of a line, and every line but the last ends in
    one.  For every other path the list is empty. *)
Theorem read_lines_line_structure fs path :
  let lines := FS.value (Engine.read_lines path) fs in
  Forall is_line lines
  /\ Forall (fun l => Py.endswith l Py.LF = true) (removelast lines)
  /\ match fs path with
     | FS.Regular (Some data) =>
         concat lines = Codecs.translate_newlines (utf8_text data)
     | _ => lines = []
     end.
Proof.
  cbv zeta. rewrite value_read_lines.
  destruct (fs path) as [| |[data|]]; try (by repeat split; constructor).
  set (text := Codecs.translate_newlines (utf8_text data)).
  destruct (readlines_lines text) as [H1 H2].
  split; [|split; [done|apply readlines_concat]].
  apply Forall_forall. intros l Hl.
  pose proof (proj1 (Forall_forall _ _) H1 l Hl) as [Hne Hnl].
  split; [done|]. split; [|done].
  intros Hcr. apply (translate_newlines_no_cr (utf8_text data)). fold text.
  rewrite <- (readlines_concat text). by apply (elem_of_concat_2 _ l).
Qed.

(** ** What a scan collects *)

Section collect.

Variable abspath : Py.str -> Py.str.
Variables join relpath : Py.str -> Py.str -> Py.str.
Variable lower : Py.str -> Py.str.
Variable root : Py.str.
Variable extensions : gset Py.str.

Local Abbreviation add_file dirpath :=
  (fun (result : gmap Py.str Py.str) fname =>
     if Engine.is_source_file lower extensions fname then
       <[relpath (join dirpath fname) (abspath root) := join dirpath fname]> result
     else result).

(** The files of one directory: an entry of the result was there before, or
    it comes from a source file of the directory. *)
Lemma collect_directory_inv dirpath filenames result rel_path abs_path :
  fold_left (add_file dirpath) filenames result !! rel_path = Some abs_path ->
  result !! rel_path = Some abs_path
  \/ exists fname,
       fname ∈ filenames
       /\ Engine.is_source_file lower extensions fname = true
       /\ abs_path = join dirpath fname
       /\ rel_path = relpath abs_path (abspath root).
Proof.
  revert result. induction filenames as [|fname filenames IH]; intros result H.
  - by left.
  - cbn [fold_left] in H. apply IH in H as [H|(f & Hf & ?)].
    + destruct (Engine.is_source_file lower extensions fname) eqn:Htest; [|by left].
      destruct (decide (relpath (join dirpath fname) (abspath root) = rel_path))
        as [<-|Hne].
      * rewrite lookup_insert_eq in H. injection H as <-.
        right. exists fname. split; [left|done].
      * rewrite lookup_insert_ne in H by done. by left.
    + right. exists f. split; [by right|done].
Qed.

(** A source file of a directory has its key in the result. *)
Lemma collect_directory_dom dirpath filenames result fname :
  fname ∈ filenames ->
  Engine.is_source_file lower extensions fname = true ->
  relpath (join dirpath fname) (abspath root)
  ∈ dom (fold_left (add_file dirpath) filenames result).
Proof.
  intros Hf Htest.
  apply fold_left_dom_elem with (x := fname); [|exact Hf|].
  - intros m x. destruct (Engine.is_source_file lower extensions x); [|done].
    rewrite dom_insert_L. apply union_subseteq_r.
  - intros m. rewrite Htest, dom_insert_L. by apply elem_of_union_l, elem_of_singleton.
Qed.

End collect.

(** X8: the result of [collect_source_files] holds source files of the walk
    and nothing else.  Every entry maps the path of a file relative to the
    root to the location of that file, the file is in a directory of the
    walk and its name passes the test on the extension; and the relative
    path of every such file is a key of the result. *)
Theorem collect_source_files_entries abspath join relpath lower tree root extensions :
  map_Forall (collected_from abspath join relpath lower tree root extensions)
    (Engine.collect_source_files abspath join relpath lower tree root extensions)
  /\ forall rel_path,
       rel_path ∈ dom (Engine.collect_source_files abspath join relpath lower
                         tree root extensions)
       <-> exists abs_path,
             collected_from abspath join relpath lower tree root extensions
               rel_path abs_path.
Proof.
  assert (Hsound : map_Forall (collected_from abspath join relpath lower tree root extensions)
            (Engine.collect_source_files abspath join relpath lower tree root extensions)).
  { unfold Engine.collect_source_files, collected_from.
    generalize (OsPath.walk join (abspath root) tree). intros entries.
    assert (Hgen : forall seen (result : gmap Py.str Py.str),
      map_Forall (fun rel_path abs_path =>
        exists dirpath dirnames filenames fname,
          (dirpath, dirnames, filenames) ∈ seen ++ entries
          /\ fname ∈ filenames
          /\ Engine.is_source_file lower extensions fname = true
          /\ abs_path = join dirpath fname
          /\ rel_path = relpath abs_path (abspath root)) result ->
      map_Forall (fun rel_path abs_path =>
        exists dirpath dirnames filenames fname,
          (dirpath, dirnames, filenames) ∈ seen ++ entries
          /\ fname ∈ filenames
          /\ Engine.is_source_file lower extensions fname = true
          /\ abs_path = join dirpath fname
          /\ rel_path = relpath abs_path (abspath root))
        (fold_left
           (fun result '(dirpath, _, filenames) =>
              fold_left
                (fun result fname =>
                   if Engine.is_source_file lower extensions fname then
                     <[relpath (join dirpath fname) (abspath root) := join dirpath fname]>
                       result
                   else result)
                filenames result)
           entries result)).
    { induction entries as [|[[dp dn] fns] entries IH]; intros seen result Hres; [done|].
      cbn [fold_left].
      replace (seen ++ (dp, dn, fns) :: entries)
        with ((seen ++ [(dp, dn, fns)]) ++ entries) by (by rewrite <- app_assoc).
      apply IH. intros rel_path abs_path Hl.
      apply collect_directory_inv in Hl as [Hl|(f & Hf & Htest & Habs & Hrel)].
      - destruct (Hres _ _ Hl) as (dp' & dn' & fns' & f & Hin & ?).
        exists dp', dn', fns', f. split; [|done].
        rewrite <- app_assoc. exact Hin.
      - exists dp, dn, fns, f. split; [|done].
        apply elem_of_app. left. apply elem_of_app. right. left. }
    apply (Hgen [] ∅). intros ? ?. by rewrite lookup_empty. }
  split; [exact Hsound|].
  intros rel_path. split.
  - intros [abs_path Hl]%elem_of_dom. exists abs_path. by apply Hsound.
  - intros (abs_path & dp & dn & fns & f & Hin & Hf & Htest & -> & ->).
    unfold Engine.collect_source_files.
    apply fold_left_dom_elem with (x := (dp, dn, fns)); [|exact Hin|].
    + intros m [[dp' dn'] fns']. apply fold_left_dom_mono.
      intros m' x. destruct (Engine.is_source_file lower extensions x); [|done].
      rewrite dom_insert_L. apply union_subseteq_r.
    + intros m. by apply collect_directory_dom.
Qed.

(** ** The records of a report *)

(** The records of a sorted plan are in the order of their paths. *)
Lemma records_of_plan_Sorted join files_a files_b ea eb ctx fs order :
  StronglySorted str_le order ->
  StronglySorted (key_le Engine.relative_path)
    (omap (record_of join files_a files_b ea eb ctx fs) order).
Proof.
  induction 1 as [|rel order Hsorted IH Hrel]; [constructor|].
  cbn [omap list_omap].
  destruct (record_of _ _ _ _ _ _ _ rel) as [r|] eqn:Hr; [|exact IH].
  constructor; [exact IH|].
  apply compare_file_record in Hr as [Hpath _].
  apply Forall_forall. intros r' Hr'.
  apply list_elem_of_omap in Hr' as (rel' & Hin & Hr').
  apply compare_file_record in Hr' as [Hpath' _].
  unfold key_le. rewrite Hpath, Hpath'.
  by apply (proj1 (Forall_forall _ _) Hrel).
Qed.

Lemma omap_length_le {A B} (f : A -> option B) (l : list A) :
  length (omap f l) <= length l.
Proof.
  induction l as [|x l IH]; [done|]. cbn [omap list_omap].
  destruct (f x); cbn [length]; lia.
Qed.

(** X9: the records of a report are the records [compare_file] gives for the
    paths of the plan, one for each path that has one, in the order of the
    plan, whatever the order in which the pool completes its tasks.  So no
    two records share a relative path, and there are at most
    [total_files_scanned] of them. *)
Theorem report_lists_the_records_of_the_plan abspath join relpath lower tree_a tree_b
    engine_a engine_b ctx cancel_at schedule fs report :
  (forall l, schedule l ≡ₚ l) ->
  FS.value
    (Engine.comparison_worker abspath join relpath lower tree_a tree_b
       engine_a engine_b ctx cancel_at schedule) fs = Some report ->
  let files_a :=
    Engine.collect_source_files abspath join relpath lower tree_a (abspath engine_a)
      Engine.DEFAULT_EXTENSIONS in
  let files_b :=
    Engine.collect_source_files abspath join relpath lower tree_b (abspath engine_b)
      Engine.DEFAULT_EXTENSIONS in
  Engine.differences report
  = omap (record_of join files_a files_b (abspath engine_a) (abspath engine_b) ctx fs)
      (Engine.all_paths files_a files_b)
  /\ NoDup (map Engine.relative_path (Engine.differences report))
  /\ length (Engine.differences report)
     <= Engine.total_files_scanned (Engine.summary report).
Proof.
  intros Hschedule Hr files_a files_b.
  rewrite value_comparison_worker in Hr. fold files_a files_b in Hr.
  destruct (_ || _); [discriminate|]. injection Hr as <-.
  cbn [Engine.build_report Engine.differences Engine.summary
       Engine.total_files_scanned].
  set (paths := Engine.all_paths files_a files_b).
  set (f := record_of join files_a files_b (abspath engine_a) (abspath engine_b) ctx fs).
  assert (Htrans : Transitive str_le) by (intros x y z; apply str_leb_trans).
  assert (Htrans' : Transitive (key_le Engine.relative_path))
    by (intros x y z; apply str_leb_trans).
  assert (Hnd : NoDup (map Engine.relative_path (omap f paths))).
  { eapply sublist_NoDup; [apply all_paths_NoDup|].
    apply (proj2 (records_of_plan _ _ _ _ _ _ _ _)). }
  assert (Heq : Py.sorted_by Engine.relative_path (omap f (schedule paths))
                = omap f paths).
  { apply (Sorted_unique_strong (key_le Engine.relative_path)).
    - intros x1 x2 Hx1 Hx2 H12 H21.
      rewrite sorted_by_Permutation, Hschedule in Hx1.
      apply (NoDup_fmap_inj_on Engine.relative_path (omap f paths)); try done.
      by apply str_leb_antisym.
    - apply sorted_by_Sorted.
    - apply StronglySorted_Sorted, records_of_plan_Sorted.
      apply Sorted_StronglySorted; [done|]. apply sorted_Sorted.
    - by rewrite sorted_by_Permutation, Hschedule. }
  rewrite Heq. split; [done|]. split; [done|]. apply omap_length_le.
Qed.

(** The example trees, with the tasks completed in the reverse order of the
    plan. *)
Lemma report_lists_the_records_of_the_plan_witness :
  match Scenario.run (@rev Py.str) with
  | Some report =>
      map Engine.relative_path (Engine.differences report)
      = [u"include/foo.h"; u"src/bar.cpp"; u"src/baz.cpp"]
      /\ NoDup (map Engine.relative_path (Engine.differences report))
      /\ length (Engine.differences report)
         <= Engine.total_files_scanned (Engine.summary report)
  | None => False
  end.
Proof.
  destruct (Scenario.run (@rev Py.str)) as [report|] eqn:Hr.
  - destruct (report_lists_the_records_of_the_plan _ _ _ _ _ _ _ _ _ _ _ _ _
                (fun l => Permutation_sym (Permutation_rev l)) Hr) as (H1 & H2 & H3).
    split; [|split; [exact H2|exact H3]].
    rewrite H1. vm_compute. reflexivity.
  - vm_compute in Hr. discriminate.
Defined.

(** ** The calls to the filesystem *)

(** X10: the calls [compare_file] makes, in order: the two existence tests;
    then, when both files exist, one [open] of each for the digests; then,
    when the digests differ, the reads of the lines of the two files.  So a
    path that is missing on a side is never opened, and two files with the
    same digest are each opened once. *)
Theorem compare_file_calls fs rel pa pb n :
  FS.calls (Engine.compare_file rel pa pb n) fs
  = [FS.Stat pa; FS.Stat pb]
    ++ (if FS.value (FS.isfile pa) fs && FS.value (FS.isfile pb) fs then
          [FS.Open pa; FS.Open pb]
          ++ (if bool_decide (FS.value (Engine.fast_hash pa) fs
                              = FS.value (Engine.fast_hash pb) fs)
              then []
              else FS.calls (Engine.read_lines pa) fs
                   ++ FS.calls (Engine.read_lines pb) fs)
        else []).
Proof.
  unfold Engine.compare_file.
  rewrite !calls_bind, !calls_isfile, ?value_bind.
  destruct (FS.value (FS.isfile pa) fs), (FS.value (FS.isfile pb) fs);
    cbn [andb negb]; try reflexivity.
  rewrite !calls_bind, !calls_fast_hash, ?value_bind.
  case_bool_decide; [reflexivity|].
  rewrite !calls_bind, ?value_bind.
  destruct (Difflib.unified_diff _ _ _ _ _); rewrite calls_ret, app_nil_r; reflexivity.
Qed.

(** ** Cancellation *)




(** ** The escaping of text for the report *)

Lemma replace_char_app c r s1 s2 :
  Html.replace_char c r (s1 ++ s2) = Html.replace_char c r s1 ++ Html.replace_char c r s2.
Proof. unfold Html.replace_char. apply flat_map_app. Qed.

Lemma replace_char_cons c r d s :
  Html.replace_char c r (d :: s)
  = (if Py.char_eqb d c then r else [d]) ++ Html.replace_char c r s.
Proof. reflexivity. Qed.

(** [esc] works character by character. *)
Lemma esc_cons c s : HtmlReport.esc (c :: s) = escaped_char c ++ HtmlReport.esc s.
Proof.
  unfold HtmlReport.esc, Html.escape. cbv zeta.
  rewrite replace_char_cons, !replace_char_app. f_equal.
  unfold escaped_char, Py.char_eqb.
  destruct (N.eqb_spec c 38) as [->|H38]; [reflexivity|].
  cbn [Html.replace_char flat_map]. unfold Py.char_eqb. rewrite !app_nil_r.
  destruct (N.eqb_spec c 60) as [->|H60]; [reflexivity|].
  cbn [Html.replace_char flat_map]. unfold Py.char_eqb. rewrite !app_nil_r.
  destruct (N.eqb_spec c 62) as [->|H62]; [reflexivity|].
  cbn [Html.replace_char flat_map]. unfold Py.char_eqb. rewrite !app_nil_r.
  destruct (N.eqb_spec c 34) as [->|H34]; [reflexivity|].
  cbn [Html.replace_char flat_map]. unfold Py.char_eqb. rewrite !app_nil_r.
  destruct (N.eqb_spec c 39) as [->|H39]; reflexivity.
Qed.

Lemma escaped_char_inert c : Forall is_inert (escaped_char c).
Proof.
  unfold escaped_char.
  destruct (N.eqb_spec c 38); [by repeat constructor|].
  destruct (N.eqb_spec c 60); [by repeat constructor|].
  destruct (N.eqb_spec c 62); [by repeat constructor|].
  destruct (N.eqb_spec c 34); [by repeat constructor|].
  destruct (N.eqb_spec c 39); [by repeat constructor|].
  by repeat constructor.
Qed.

(** What is written for a character tells the character, and where it
    ends. *)
Lemma escaped_char_prefix_free c1 c2 t1 t2 :
  escaped_char c1 ++ t1 = escaped_char c2 ++ t2 -> c1 = c2 /\ t1 = t2.
Proof.
  unfold escaped_char.
  destruct (N.eqb_spec c1 38) as [->|?]; [|
  destruct (N.eqb_spec c1 60) as [->|?]; [|
  destruct (N.eqb_spec c1 62) as [->|?]; [|
  destruct (N.eqb_spec c1 34) as [->|?]; [|
  destruct (N.eqb_spec c1 39) as [->|?]]]]];
  (destruct (N.eqb_spec c2 38) as [->|?]; [|
   destruct (N.eqb_spec c2 60) as [->|?]; [|
   destruct (N.eqb_spec c2 62) as [->|?]; [|
   destruct (N.eqb_spec c2 34) as [->|?]; [|
   destruct (N.eqb_spec c2 39) as [->|?]]]]]);
  cbn; intros H; try discriminate H; injection H; intros; subst; try done.
Qed.

(** X12: the text [esc] writes holds no angle bracket and no quotation
    mark; a text without ampersand, angle bracket and quotation mark is
    written as it is; and two different texts are never written the same. *)
Theorem esc_is_inert_and_lossless s :
  Forall is_inert (HtmlReport.esc s)
  /\ (Forall (fun c => c <> 38%N /\ is_inert c) s -> HtmlReport.esc s = s)
  /\ forall s', HtmlReport.esc s = HtmlReport.esc s' -> s = s'.
Proof.
  split; [|split].
  - induction s as [|c s IH]; [constructor|].
    rewrite esc_cons. apply Forall_app. split; [apply escaped_char_inert|exact IH].
  - induction 1 as [|c s (H38 & H60 & H62 & H34 & H39) _ IH]; [reflexivity|].
    rewrite esc_cons, IH. unfold escaped_char.
    destruct (N.eqb_spec c 38); [done|]. destruct (N.eqb_spec c 60); [done|].
    destruct (N.eqb_spec c 62); [done|]. destruct (N.eqb_spec c 34); [done|].
    by destruct (N.eqb_spec c 39).
  - induction s as [|c s IH]; intros [|c' s'] H.
    + reflexivity.
    + rewrite esc_cons in H. change (HtmlReport.esc []) with (@nil N) in H.
      apply (f_equal length) in H. rewrite length_app in H. cbn [length] in H.
      assert (0 < length (escaped_char c')); [|lia].
      unfold escaped_char. repeat case_match; cbn; lia.
    + rewrite esc_cons in H. change (HtmlReport.esc []) with (@nil N) in H.
      apply (f_equal length) in H. rewrite length_app in H. cbn [length] in H.
      assert (0 < length (escaped_char c)); [|lia].
      unfold escaped_char. repeat case_match; cbn; lia.
    + rewrite !esc_cons in H. apply escaped_char_prefix_free in H as [-> H].
      f_equal. by apply IH.
Qed.

(** ** The number of context lines *)

Section changes.

Variables a b : list Py.str.

Lemma changes_of_equal i1 i2 j1 j2 :
  changes_of a b (Difflib.Op Difflib.Equal i1 i2 j1 j2) = [].
Proof.
  unfold changes_of. cbn [Difflib.opcode_lines].
  induction (Difflib.slice a i1 i2) as [|x l IH]; [done|]. exact IH.
Qed.

Lemma flat_map_insert_nil {A B} (f : A -> list B) (l : list A) i x y :
  l !! i = Some x -> f x = [] -> f y = [] -> flat_map f (<[i := y]> l) = flat_map f l.
Proof.
  revert i. induction l as [|z l IH]; intros [|i] Hl Hx Hy; try done.
  - injection Hl as ->. cbn. by rewrite Hx, Hy.
  - cbn. f_equal. by apply IH.
Qed.

(** A step of the grouping loop loses no change and adds none. *)
Lemma group_step_changes n st c :
  flat_map (changes_of a b)
    (concat (Difflib.group_step n st c).2 ++ (Difflib.group_step n st c).1)
  = flat_map (changes_of a b) (concat st.2 ++ st.1) ++ changes_of a b c.
Proof.
  destruct st as [group out], c as [t i1 i2 j1 j2].
  cbn [Difflib.group_step fst snd].
  destruct (Difflib.is_equal t && (n + n <? i2 - i1)) eqn:Hcond; cbn [fst snd].
  - apply andb_true_iff in Hcond as [Ht _]. destruct t; try done.
    rewrite concat_app. cbn [concat]. rewrite app_nil_r.
    rewrite !flat_map_app. cbn [flat_map].
    by rewrite !changes_of_equal, !app_nil_r.
  - rewrite app_assoc, flat_map_app. cbn [flat_map]. by rewrite app_nil_r.
Qed.

Lemma group_fold_changes n codes st :
  flat_map (changes_of a b)
    (concat (fold_left (Difflib.group_step n) codes st).2
     ++ (fold_left (Difflib.group_step n) codes st).1)
  = flat_map (changes_of a b) (concat st.2 ++ st.1) ++ flat_map (changes_of a b) codes.
Proof.
  revert st. induction codes as [|c codes IH]; intros st.
  - cbn. by rewrite app_nil_r.
  - cbn [fold_left flat_map]. rewrite IH, group_step_changes. by rewrite <- app_assoc.
Qed.

(** The groups hold the changes of the opcodes, for every number of context
    lines. *)
Lemma get_grouped_opcodes_changes m n :
  flat_map (changes_of a b) (concat (Difflib.get_grouped_opcodes m n))
  = flat_map (changes_of a b) (Difflib.get_opcodes m).
Proof.
  unfold Difflib.get_grouped_opcodes.
  set (codes1 := match Difflib.get_opcodes m with
                 | [] => [Difflib.Op Difflib.Equal 0 1 0 1]
                 | _ => Difflib.get_opcodes m
                 end).
  assert (H1 : flat_map (changes_of a b) codes1
               = flat_map (changes_of a b) (Difflib.get_opcodes m)).
  { unfold codes1. destruct (Difflib.get_opcodes m); [|done].
    cbn [flat_map]. by rewrite changes_of_equal. }
  set (codes2 := match codes1 !! 0 with
                 | Some (Difflib.Op Difflib.Equal i1 i2 j1 j2) =>
                     <[0 := Difflib.Op Difflib.Equal (i1 `max` (i2 - n)) i2
                             (j1 `max` (j2 - n)) j2]> codes1
                 | _ => codes1
                 end).
  assert (H2 : flat_map (changes_of a b) codes2 = flat_map (changes_of a b) codes1).
  { unfold codes2. destruct (codes1 !! 0) as [[[] i1 i2 j1 j2]|] eqn:Hl; try done.
    eapply flat_map_insert_nil; [exact Hl| |]; apply changes_of_equal. }
  set (codes3 := match codes2 !! (length codes2 - 1) with
                 | Some (Difflib.Op Difflib.Equal i1 i2 j1 j2) =>
                     <[length codes2 - 1 :=
                         Difflib.Op Difflib.Equal i1 (i2 `min` (i1 + n))
                           j1 (j2 `min` (j1 + n))]> codes2
                 | _ => codes2
                 end).
  assert (H3 : flat_map (changes_of a b) codes3 = flat_map (changes_of a b) codes2).
  { unfold codes3.
    destruct (codes2 !! (length codes2 - 1)) as [[[] i1 i2 j1 j2]|] eqn:Hl; try done.
    eapply flat_map_insert_nil; [exact Hl| |]; apply changes_of_equal. }
  pose proof (group_fold_changes n codes3 ([], [])) as Hfold.
  destruct (fold_left (Difflib.group_step n) codes3 ([], [])) as [group out].
  cbn [fst snd concat app flat_map] in Hfold.
  rewrite <- H1, <- H2, <- H3, <- Hfold.
  destruct group as [|[[] i1 i2 j1 j2] [|c group]];
    rewrite ?concat_app, ?flat_map_app; cbn [concat flat_map app];
    rewrite ?flat_map_app; cbn [concat flat_map app];
    rewrite ?changes_of_equal, ?app_nil_r; reflexivity.
Qed.

Lemma filter_concat_map {A B} (p : B -> bool) (f : A -> list B) (l : list A) :
  List.filter p (concat (map f l)) = flat_map (fun x => List.filter p (f x)) l.
Proof.
  induction l as [|x l IH]; [done|]. cbn. by rewrite List.filter_app, IH.
Qed.

Lemma group_lines_changes lineterm group :
  List.filter is_change (Difflib.group_lines a b lineterm group)
  = flat_map (changes_of a b) group.
Proof.
  unfold Difflib.group_lines. destruct group as [|c group]; [done|].
  cbn [head]. destruct (last (c :: group)) as [c'|] eqn:Hlast.
  - cbn [List.filter is_change fst Difflib.kind_eqb orb]. apply filter_concat_map.
  - by apply last_None in Hlast.
Qed.

(** The lines of a diff that show a change are those of the opcodes: they
    depend neither on the number of context lines nor on the names in the
    header. *)
Lemma unified_diff_lines_changes fromfile tofile n lineterm :
  List.filter is_change (Difflib.unified_diff_lines a b fromfile tofile n lineterm)
  = flat_map (changes_of a b) (Difflib.get_opcodes (Difflib.chain_b a b)).
Proof.
  rewrite <- (get_grouped_opcodes_changes (Difflib.chain_b a b) n).
  unfold Difflib.unified_diff_lines.
  destruct (Difflib.get_grouped_opcodes (Difflib.chain_b a b) n) as [|g groups]; [done|].
  cbn [List.filter is_change fst Difflib.kind_eqb orb].
  rewrite filter_concat_map.
  generalize (g :: groups). intros gs.
  induction gs as [|g' gs IH]; [done|].
  cbn [flat_map concat]. by rewrite flat_map_app, IH, group_lines_changes.
Qed.

(** Only lines that show a change are counted. *)
Lemma count_if_changes (f : Py.str -> bool) (lines : list Difflib.line) :
  Forall (fun l => f l.2 = true -> is_change l = true) lines ->
  Engine.count_if f (map snd lines)
  = Engine.count_if f (map snd (List.filter is_change lines)).
Proof.
  unfold Engine.count_if. induction 1 as [|l lines Hl _ IH]; [done|].
  cbn [map List.filter]. destruct (is_change l) eqn:Hc.
  - cbn [map List.filter]. destruct (f l.2); cbn [length]; by rewrite IH.
  - destruct (f l.2); [specialize (Hl eq_refl); congruence|]. exact IH.
Qed.

(** The two counts of a diff, from the opcodes. *)
Lemma counts_from_opcodes fromfile tofile n :
  Engine.count_if counted_as_removed (Difflib.unified_diff a b fromfile tofile n)
  = Engine.count_if counted_as_removed
      (map snd (flat_map (changes_of a b) (Difflib.get_opcodes (Difflib.chain_b a b))))
  /\ Engine.count_if counted_as_added (Difflib.unified_diff a b fromfile tofile n)
     = Engine.count_if counted_as_added
         (map snd (flat_map (changes_of a b) (Difflib.get_opcodes (Difflib.chain_b a b)))).
Proof.
  unfold Difflib.unified_diff.
  rewrite <- (unified_diff_lines_changes fromfile tofile n Py.LF).
  pose proof (unified_diff_lines_from a b fromfile tofile n Py.LF) as H.
  split; apply count_if_changes; (eapply Forall_impl; [exact H|]); intros l Hl Hc;
    destruct (line_from_counted _ _ l Hl) as [Hr Ha]; unfold is_change.
  - by rewrite (Hr Hc).
  - rewrite (Ha Hc). apply orb_true_r.
Qed.

End changes.

(** X13: a number of context lines that is not negative changes what a
    record shows, not what is reported: for two such numbers [compare_file]
    gives a record for the one exactly when it gives a record for the other,
    and the two records have the same status, the same locations and the
    same counts of added and removed lines. *)
Theorem compare_file_context_independent fs rel pa pb (n n' : Z) :
  (0 <= n)%Z ->
  (0 <= n')%Z ->
  match FS.value (Engine.compare_file rel pa pb (Z.to_nat n)) fs,
        FS.value (Engine.compare_file rel pa pb (Z.to_nat n')) fs with
  | Some r, Some r' =>
      Engine.relative_path r = Engine.relative_path r'
      /\ Engine.status r = Engine.status r'
      /\ Engine.location_a r = Engine.location_a r'
      /\ Engine.location_b r = Engine.location_b r'
      /\ Engine.lines_added r = Engine.lines_added r'
      /\ Engine.lines_removed r = Engine.lines_removed r'
  | None, None => True
  | _, _ => False
  end.
Proof.
  intros _ _. generalize (Z.to_nat n) (Z.to_nat n'). clear n n'. intros n n'.
  rewrite !value_compare_file.
  destruct (FS.value (FS.isfile pa) fs), (FS.value (FS.isfile pb) fs); try done.
  case_bool_decide; [done|].
  unfold file_diff.
  set (la := FS.value (Engine.read_lines pa) fs).
  set (lb := FS.value (Engine.read_lines pb) fs).
  destruct (counts_from_opcodes la lb (u"A/" ++ rel) (u"B/" ++ rel) n) as [Hr Ha].
  destruct (counts_from_opcodes la lb (u"A/" ++ rel) (u"B/" ++ rel) n') as [Hr' Ha'].
  destruct (Difflib.unified_diff la lb _ _ n) as [|l diff] eqn:Hd;
    destruct (Difflib.unified_diff la lb _ _ n') as [|l' diff'] eqn:Hd'.
  - done.
  - apply unified_diff_nil_iff in Hd.
    apply (unified_diff_nil_iff _ _ (u"A/" ++ rel) (u"B/" ++ rel) n') in Hd.
    congruence.
  - apply unified_diff_nil_iff in Hd'.
    apply (unified_diff_nil_iff _ _ (u"A/" ++ rel) (u"B/" ++ rel) n) in Hd'.
    congruence.
  - cbn [modified_record Engine.relative_path Engine.status Engine.location_a
         Engine.location_b Engine.lines_added Engine.lines_removed].
    fold counted_as_added counted_as_removed.
    change (fun l0 : Py.str => Py.startswith l0 u"+" && negb (Py.startswith l0 u"+++"))
      with counted_as_added.
    change (fun l0 : Py.str => Py.startswith l0 u"-" && negb (Py.startswith l0 u"---"))
      with counted_as_removed.
    rewrite Ha, Hr, Ha', Hr'. done.
Qed.

(** The record of [include/foo.h] in the example trees, without context
    lines and with three. *)
Lemma compare_file_context_independent_witness :
  (0 <= 0)%Z
  /\ (0 <= 3)%Z
  /\ match FS.value (Engine.compare_file u"include/foo.h"
                       u"/A/include/foo.h" u"/B/include/foo.h" (Z.to_nat 0))
               Scenario.disk,
            FS.value (Engine.compare_file u"include/foo.h"
                        u"/A/include/foo.h" u"/B/include/foo.h" (Z.to_nat 3))
               Scenario.disk with
      | Some r, Some r' =>
          Engine.relative_path r = Engine.relative_path r'
          /\ Engine.status r = Engine.status r'
          /\ Engine.location_a r = Engine.location_a r'
          /\ Engine.location_b r = Engine.location_b r'
          /\ Engine.lines_added r = Engine.lines_added r'
          /\ Engine.lines_removed r = Engine.lines_removed r'
      | None, None => True
      | _, _ => False
      end.
Proof.
  split; [lia|]. split; [lia|].
  apply (compare_file_context_independent Scenario.disk u"include/foo.h"
           u"/A/include/foo.h" u"/B/include/foo.h" 0 3); lia.
Defined.

(** ** A file against no lines *)

Lemma slice_all {A} (l : list A) : Difflib.slice l 0 (length l) = l.
Proof. unfold Difflib.slice. rewrite Nat.sub_0_r, drop_0. apply firstn_all. Qed.

(** X14: when the file on one side yields no line (it is empty, or it cannot
    be read) and the file on the other side yields some, the diff
    [compare_file] computes is the two file header lines, one hunk header
    and every line of the other file, in order: as a removal line when the
    lines are those of side A, as an addition line when they are those of
    side B.  The number of context lines plays no part. *)
Theorem compare_file_diff_against_no_lines fs rel pa pb n :
  FS.value (Engine.read_lines pa) fs <> [] ->
  FS.value (Engine.read_lines pb) fs = [] ->
  let lines := FS.value (Engine.read_lines pa) fs in
  Difflib.unified_diff_lines
    (FS.value (Engine.read_lines pa) fs) (FS.value (Engine.read_lines pb) fs)
    (u"A/" ++ rel) (u"B/" ++ rel) n Py.LF
  = (Difflib.FileHeader, u"--- " ++ (u"A/" ++ rel) ++ Py.LF)
    :: (Difflib.FileHeader, u"+++ " ++ (u"B/" ++ rel) ++ Py.LF)
    :: (Difflib.HunkHeader,
        u"@@ -" ++ Difflib.format_range_unified 0 (length lines) ++ u" +0,0 @@" ++ Py.LF)
    :: map (fun l => (Difflib.Removal, u"-" ++ l)) lines
  /\ Difflib.unified_diff_lines
       (FS.value (Engine.read_lines pb) fs) (FS.value (Engine.read_lines pa) fs)
       (u"A/" ++ rel) (u"B/" ++ rel) n Py.LF
     = (Difflib.FileHeader, u"--- " ++ (u"A/" ++ rel) ++ Py.LF)
       :: (Difflib.FileHeader, u"+++ " ++ (u"B/" ++ rel) ++ Py.LF)
       :: (Difflib.HunkHeader,
           u"@@ -0,0 +" ++ Difflib.format_range_unified 0 (length lines) ++ u" @@" ++ Py.LF)
       :: map (fun l => (Difflib.Addition, u"+" ++ l)) lines.
Proof.
  intros Ha Hb. cbv zeta. rewrite Hb.
  generalize dependent (FS.value (Engine.read_lines pa) fs). intros a Ha.
  unfold Difflib.unified_diff_lines.
  rewrite get_grouped_opcodes_empty_b, get_grouped_opcodes_empty_a by done.
  cbn [map concat Difflib.group_lines head last Difflib.op_i1 Difflib.op_i2
       Difflib.op_j1 Difflib.op_j2 Difflib.opcode_lines].
  rewrite !app_nil_r, !slice_all. split; reflexivity.
Qed.

(** The file whose only line starts with two dashes, against the empty
    file. *)
Lemma compare_file_diff_against_no_lines_witness :
  FS.value (Engine.read_lines u"/A/f") Scenario.dashes <> []
  /\ FS.value (Engine.read_lines u"/B/f") Scenario.dashes = []
  /\ map snd
       (Difflib.unified_diff_lines
          (FS.value (Engine.read_lines u"/A/f") Scenario.dashes)
          (FS.value (Engine.read_lines u"/B/f") Scenario.dashes)
          (u"A/" ++ u"f") (u"B/" ++ u"f") 3 Py.LF)
     = [u"--- A/f" ++ Py.LF; u"+++ B/f" ++ Py.LF; u"@@ -1 +0,0 @@" ++ Py.LF;
        u"---x" ++ Py.LF].
Proof.
  assert (Ha : FS.value (Engine.read_lines u"/A/f") Scenario.dashes <> [])
    by (vm_compute; discriminate).
  assert (Hb : FS.value (Engine.read_lines u"/B/f") Scenario.dashes = [])
    by (vm_compute; reflexivity).
  split; [exact Ha|]. split; [exact Hb|].
  rewrite (proj1 (compare_file_diff_against_no_lines Scenario.dashes u"f" u"/A/f" u"/B/f" 3
                    Ha Hb)).
  vm_compute. reflexivity.
Defined.

(** ** The two sides exchanged *)

(** X15: comparing the two files the other way round reports the same
    pairs: [compare_file] gives a record for the pair [(pa, pb)] exactly
    when it gives one for [(pb, pa)].  A modified pair stays modified, an
    added file becomes a removed file and a removed file an added one, and
    the two locations are exchanged. *)
Theorem compare_file_sides_exchanged fs rel pa pb n :
  match FS.value (Engine.compare_file rel pa pb n) fs,
        FS.value (Engine.compare_file rel pb pa n) fs with
  | Some r, Some r' =>
      (Engine.status r = u"modified" /\ Engine.status r' = u"modified"
       \/ Engine.status r = u"added" /\ Engine.status r' = u"removed"
       \/ Engine.status r = u"removed" /\ Engine.status r' = u"added")
      /\ Engine.relative_path r = Engine.relative_path r'
      /\ Engine.location_a r = Engine.location_b r'
      /\ Engine.location_b r = Engine.location_a r'
  | None, None => True
  | _, _ => False
  end.
Proof.
  rewrite !value_compare_file.
  destruct (FS.value (FS.isfile pa) fs), (FS.value (FS.isfile pb) fs);
    try (by repeat split; auto).
  do 2 case_bool_decide; try congruence; [done|].
  unfold file_diff.
  destruct (Difflib.unified_diff (FS.value (Engine.read_lines pa) fs) _ _ _ n)
    as [|l diff] eqn:Hd;
    destruct (Difflib.unified_diff (FS.value (Engine.read_lines pb) fs) _ _ _ n)
      as [|l' diff'] eqn:Hd'.
  - done.
  - apply unified_diff_nil_iff in Hd. symmetry in Hd.
    apply (unified_diff_nil_iff _ _ (u"A/" ++ rel) (u"B/" ++ rel) n) in Hd.
    congruence.
  - apply unified_diff_nil_iff in Hd'. symmetry in Hd'.
    apply (unified_diff_nil_iff _ _ (u"A/" ++ rel) (u"B/" ++ rel) n) in Hd'.
    congruence.
  - cbn. split; [by left|done].
Qed.

(** ** The end tag of a script element in the escaped diffs *)

Lemma replace_from_skip old new k s :
  Py.replace_from old new k s = Py.replace_from old new 0 (drop k s).
Proof.
  revert k. induction s as [|c s IH]; intros [|k]; try reflexivity.
  cbn [Py.replace_from drop]. apply IH.
Qed.

Lemma end_tag_chars :
  u"</script>" = [60; 47; 115; 99; 114; 105; 112; 116; 62]%N
  /\ u"<" ++ HtmlReport.BACKSLASH :: u"/script>"
     = [60; 92; 47; 115; 99; 114; 105; 112; 116; 62]%N.
Proof. split; reflexivity. Qed.

Section end_tag.

Local Abbreviation old := [60; 47; 115; 99; 114; 105; 112; 116; 62]%N.
Local Abbreviation new := [60; 92; 47; 115; 99; 114; 105; 112; 116; 62]%N.

(** Where the result reads a text without the character [<], the replaced
    text reads the same: such characters are copied. *)
Lemma replace_copies p s :
  60%N ∉ p ->
  Py.startswith (Py.replace s old new) p = true -> Py.startswith s p = true.
Proof.
  revert s. induction p as [|d p IH]; intros s Hp H; [by destruct s|].
  apply not_elem_of_cons in Hp as [Hd Hp].
  destruct s as [|e s]; [done|].
  unfold Py.replace in *. cbn [Py.replace_from] in H.
  destruct (Py.startswith (e :: s) old).
  - cbn [app Py.startswith] in H. apply andb_true_iff in H as [H _].
    apply N.eqb_eq in H. congruence.
  - cbn [Py.startswith] in *. apply andb_true_iff in H as [-> H]. cbn [andb].
    by apply IH.
Qed.

Lemma replace_no_end_tag_upto n s :
  length s <= n -> Py.contains (Py.replace s old new) old = false.
Proof.
  revert s. induction n as [|n IH]; intros s Hn.
  - destruct s; [reflexivity|cbn in Hn; lia].
  - destruct s as [|c s]; [reflexivity|]. cbn [length] in Hn.
    unfold Py.replace in *. cbn [Py.replace_from].
    destruct (Py.startswith (c :: s) old) eqn:Hm.
    + rewrite replace_from_skip.
      assert (Hrest : Py.contains
                (Py.replace_from old new 0 (drop (Nat.pred (length old)) s)) old = false).
      { apply IH. rewrite length_drop. lia. }
      revert Hrest.
      generalize (Py.replace_from old new 0 (drop (Nat.pred (length old)) s)).
      intros t Ht. simpl. exact Ht.
    + cbn [Py.contains]. rewrite (IH s) by lia. rewrite orb_false_r.
      destruct (Py.startswith (c :: Py.replace_from old new 0 s) old) eqn:Hs; [|done].
      cbn [Py.startswith] in Hs, Hm. apply andb_true_iff in Hs as [Hc Hs].
      rewrite Hc in Hm. cbn [andb] in Hm.
      apply (replace_copies [47; 115; 99; 114; 105; 112; 116; 62]%N s) in Hs.
      * cbn [Py.startswith] in Hs. congruence.
      * intros Hin.
        repeat (apply elem_of_cons in Hin as [Hin|Hin]; [discriminate Hin|]).
        by apply elem_of_nil in Hin.
Qed.

End end_tag.

(** X16: the escaped JSON text of the diffs never holds the end tag of a
    script element, [</script>] in lower case, whatever the lines of the
    diffs are. *)
Theorem diff_json_escaped_has_no_end_tag s :
  Py.contains (HtmlReport.diff_json_escaped s) u"</script>" = false.
Proof.
  unfold HtmlReport.diff_json_escaped.
  destruct end_tag_chars as [-> ->].
  by apply (replace_no_end_tag_upto (length (Py.replace (Py.replace (Py.replace s
              [HtmlReport.BACKSLASH] [HtmlReport.BACKSLASH; HtmlReport.BACKSLASH])
              u"`" (HtmlReport.BACKSLASH :: u"`"))
              u"${" (HtmlReport.BACKSLASH :: u"${")))).
Qed.
